(** * Packet-decision pipeline of the Minecraft XDP filter

    A shallow embedding of [src/minecraft_protection.c]: the two protocol
    validators, the token-bucket rate limiter, the UDP challenge gate, the
    endpoint lookup, the flow tracker, the counters and the XDP entry point
    that orders them.

    Conventions.
    - Fixed-width C integers are [Z] values with the wrap-around written out
      ([u8], [u16], [u32], [u64]).
    - A packet buffer is a base address [data] and the list of bytes stored
      from [data] up to [data_end]; an access outside the list is reported as
      [OutOfBounds] instead of being given a value.
    - The BPF maps are explicit state: hash maps are [gmap]s with the
      capacity of the map declaration, the statistics array is a list, the
      LPM trie is the list of its entries.
    - Multi-byte loads follow a little-endian BPF target (bpfel).  *)

From Stdlib Require Import ZArith List Lia Bool.
From Stdlib.Strings Require Import Byte.
From stdpp Require Import base option list gmap fin_maps.
Import ListNotations.
Local Open Scope Z_scope.

(** ** Machine integers *)

Definition u8 (z : Z) : Z := z mod 2 ^ 8.
Definition u16 (z : Z) : Z := z mod 2 ^ 16.
Definition u32 (z : Z) : Z := z mod 2 ^ 32.
Definition u64 (z : Z) : Z := z mod 2 ^ 64.

Definition byte_val (b : byte) : Z := Z.of_N (Byte.to_N b).

(** C truth value of an integer used as a condition. *)
Definition truthy (z : Z) : bool := negb (z =? 0).

(** ** Packet memory *)

(** Result of code that reads packet memory: a value, an access at an offset
    that lies at or beyond [data_end], or a loop that was cut by the model's
    iteration bound. *)
Inductive access (A : Type) : Type :=
| Done (a : A)
| OutOfBounds (off : Z)
| OutOfFuel.
Arguments Done {A} a.
Arguments OutOfBounds {A} off.
Arguments OutOfFuel {A}.

Definition access_bind {A B} (m : access A) (k : A -> access B) : access B :=
  match m with
  | Done a => k a
  | OutOfBounds off => OutOfBounds off
  | OutOfFuel => OutOfFuel
  end.

Declare Scope access_scope.
Delimit Scope access_scope with access.
Notation "'do' x <- m ; k" := (access_bind m (fun x => k))
  (at level 10, x name, m at level 100, k at level 200) : access_scope.

(** [pkt[off]] for [pkt = (__u8 * )data]: defined exactly when
    [data + off < data_end]. *)
Definition pkt_read (pkt : list byte) (off : Z) : access Z :=
  if off <? 0 then OutOfBounds off
  else match pkt !! Z.to_nat off with
       | Some b => Done (byte_val b)
       | None => OutOfBounds off
       end.

Definition data_end_of (data : Z) (pkt : list byte) : Z :=
  data + Z.of_nat (length pkt).

(** ** Protocol validators *)

Module Java.

(** Count of a 32-bit left shift.  C leaves a count of 32 or more
    undefined; the 32-bit shift instruction the compiler emits takes the
    count modulo 32, and so does the model. *)
Definition shift_count (n : Z) : Z := u32 n mod 32.

(** [(b & 0x7F) << (7 * k)] stored into a [__u32]; the count [7 * k] is
    a [__u32] product. *)
Definition group (b k : Z) : Z :=
  u32 (Z.shiftl (Z.land b 127) (shift_count (7 * k))).

(** [b << (7 * k)] stored into a [__u32]. *)
Definition last_group (b k : Z) : Z :=
  u32 (Z.shiftl b (shift_count (7 * k))).

(** First loop (lines 205-210):
    [while (offset < 5 && (pkt[offset] & 0x80))], with [length_bytes = 0].
    The test [offset + 1 > data_end] compares the integer [offset + 1] with
    the address [data_end]. *)
Fixpoint length_loop (fuel : nat) (data_end : Z) (pkt : list byte)
    (length offset : Z) : access (option (Z * Z)) :=
  match fuel with
  | O => OutOfFuel
  | S fuel' =>
    if offset <? 5 then
      (do b <- pkt_read pkt offset;
       if truthy (Z.land b 128) then
         if u32 (offset + 1) >? data_end then Done None
         else length_loop fuel' data_end pkt
                (Z.lor length (group b (u32 (offset - 0))))
                (u32 (offset + 1))
       else Done (Some (length, offset)))%access
    else Done (Some (length, offset))
  end.

(** Second loop (lines 237-240):
    [while (offset < data_end && (pkt[offset] & 0x80))]; the guard compares
    the integer [offset] with the address [data_end]. *)
Fixpoint version_loop (fuel : nat) (data_end : Z) (pkt : list byte)
    (protocol_version offset : Z) : access (Z * Z) :=
  match fuel with
  | O => OutOfFuel
  | S fuel' =>
    if offset <? data_end then
      (do b <- pkt_read pkt offset;
       if truthy (Z.land b 128) then
         version_loop fuel' data_end pkt
           (Z.lor protocol_version (group b (u32 (offset - 1))))
           (u32 (offset + 1))
       else Done (protocol_version, offset))%access
    else Done (protocol_version, offset)
  end.

End Java.

(** [validate_minecraft_java] (lines 185-254).  [fuel] bounds the two loops
    of the model; [validate_minecraft_java] below supplies enough of it. *)
Definition validate_minecraft_java_fuel (fuel : nat) (data : Z)
    (pkt : list byte) : access Z :=
  let data_end := data_end_of data pkt in
  if data + 5 >? data_end then Done 0
  else
    (do byte <- pkt_read pkt 0;
     let offset := 1 in
     do lo <-
       (if truthy (Z.land byte 128) then
          do r <- Java.length_loop fuel data_end pkt (Z.land byte 127) offset;
          match r with
          | None => Done None
          | Some (length, offset) =>
            if offset <? 5 then
              do b <- pkt_read pkt offset;
              Done (Some (Z.lor length (Java.last_group b (u32 (offset - 0))),
                          u32 (offset + 1)))
            else Done (Some (length, offset))
          end
        else Done (Some (byte, offset)));
     match lo with
     | None => Done 0
     | Some (length, offset) =>
       if (length <? 5) || (length >? 100) then Done 0
       else if offset >=? data_end then Done 0
       else
         do id <- pkt_read pkt offset;
         if negb (id =? 0) then Done 0
         else
           let offset := u32 (offset + 1) in
           if offset >=? data_end then Done 0
           else
             do ver_byte <- pkt_read pkt offset;
             let offset := u32 (offset + 1) in
             do pv <-
               (if truthy (Z.land ver_byte 128) then
                  do r <- Java.version_loop fuel data_end pkt
                            (Z.land ver_byte 127) offset;
                  let '(protocol_version, offset) := r in
                  if offset <? data_end then
                    do b <- pkt_read pkt offset;
                    Done (Z.lor protocol_version
                            (Java.last_group b (u32 (offset - 1))))
                  else Done protocol_version
                else Done ver_byte);
             if (pv <? 4) || (pv >? 1000) then Done 0
             else Done 1
     end)%access.

Definition validate_minecraft_java (data : Z) (pkt : list byte) : access Z :=
  validate_minecraft_java_fuel (S (length pkt)) data pkt.

(** The nine RakNet packet types of the allow-set (line 280-282). *)
Definition raknet_type_allowed (t : Z) : bool :=
  (t =? 0x05) || (t =? 0x06) || (t =? 0x07) || (t =? 0x08) || (t =? 0x09)
  || (t =? 0x10) || (t =? 0x13) || (t =? 0x15) || (t =? 0x1c).

(** The sixteen bytes compared at [pkt[1..16]] (lines 291-294). *)
Definition raknet_magic : list Z :=
  [0x00; 0xFF; 0xFF; 0x00; 0xFE; 0xFE; 0xFE; 0xFE;
   0xFD; 0xFD; 0xFD; 0xFD; 0x12; 0x34; 0x56; 0x78].

(** The sixteen-fold conjunction [pkt[1] == 0x00 && ... && pkt[16] == 0x78],
    read left to right and stopping at the first mismatch. *)
Fixpoint magic_matches (pkt : list byte) (off : Z) (magic : list Z)
    : access bool :=
  match magic with
  | [] => Done true
  | m :: rest =>
    (do b <- pkt_read pkt off;
     if b =? m then magic_matches pkt (off + 1) rest else Done false)%access
  end.

(** [validate_minecraft_bedrock] (lines 256-304). *)
Definition validate_minecraft_bedrock (data : Z) (pkt : list byte)
    : access Z :=
  let data_end := data_end_of data pkt in
  if data + 4 >? data_end then Done 0
  else
    (do packet_type <- pkt_read pkt 0;
     if raknet_type_allowed packet_type then
       if (packet_type =? 0x05) || (packet_type =? 0x15) then
         if data + 17 >? data_end then Done 0
         else
           do ok <- magic_matches pkt 1 raknet_magic;
           if ok then Done 1
           else Done 1 (* falls out of the inner block to line 300 *)
       else Done 1
     else Done 0)%access.

(** ** Data structures (lines 61-117) *)

Record endpoint_key := {
  prefix_len : Z;
  ip : Z;
  port : Z;
  protocol : Z
}.

Record endpoint_info := {
  origin_ip : Z;
  origin_port : Z;
  rate_limit : Z;
  burst_limit : Z;
  protocol_type : Z;  (* 0=Java, 1=Bedrock *)
  maintenance_mode : Z
}.

Record rate_limit_state := {
  last_update : Z;
  tokens : Z;
  last_burst : Z
}.

Record conntrack_entry := {
  ct_src_ip : Z;
  ct_dst_ip : Z;
  ct_src_port : Z;
  ct_dst_port : Z;
  ct_protocol : Z;
  ct_state : Z;  (* 0=unknown, 1=established, 2=challenge_sent *)
  ct_challenge_id : Z
}.

Record udp_challenge_state := {
  timestamp : Z;
  challenge_cookie : Z;
  challenge_sent : Z
}.

(** Statistics counters: the anonymous enum of lines 104-117. *)
Definition STAT_ALLOWED_PACKETS : Z := 0.
Definition STAT_BLOCKED_RATE_LIMIT : Z := 1.
Definition STAT_BLOCKED_BLACKLIST : Z := 2.
Definition STAT_BLOCKED_INVALID_PROTOCOL : Z := 3.
Definition STAT_BLOCKED_CHALLENGE_FAILED : Z := 4.
Definition STAT_BLOCKED_MAINTENANCE : Z := 5.
Definition STAT_TOTAL_PACKETS : Z := 6.
Definition STAT_XDP_DROP : Z := 7.
Definition STAT_XDP_PASS : Z := 8.
Definition STAT_XDP_REDIRECT : Z := 9.
Definition STAT_UDP_CHALLENGES_SENT : Z := 10.
Definition STAT_UDP_CHALLENGES_PASSED : Z := 11.

(** [max_entries] of the map declarations (lines 18-59). *)
Definition SRC_RATE_MAX_ENTRIES : Z := 100000.
Definition CONNTRACK_MAX_ENTRIES : Z := 100000.
Definition BLACKLIST_MAX_ENTRIES : Z := 50000.
Definition STATS_MAX_ENTRIES : Z := 10.
Definition UDP_CHALLENGES_MAX_ENTRIES : Z := 10000.

(** The verdicts the program returns. *)
Inductive xdp_action := XDP_DROP | XDP_PASS | XDP_REDIRECT.

(** ** The BPF maps as state *)

(** The hash maps the program writes with [bpf_map_update_elem]. *)
Inductive map_id := MapSrcRate | MapConntrack | MapUdpChallenges.

Global Instance map_id_eq_dec : EqDecision map_id.
Proof. solve_decision. Defined.

(** One call of [bpf_map_update_elem]: the map, the key and whether the
    write was stored. *)
Record update_event := {
  ev_map : map_id;
  ev_key : Z;
  ev_stored : bool
}.

Record xdp_state := {
  map_protected_endpoints : list (endpoint_key * endpoint_info);
  map_src_rate : gmap Z rate_limit_state;
  map_conntrack : gmap Z conntrack_entry;
  map_blacklist : gmap Z Z;
  map_stats : list Z;
  map_udp_challenges : gmap Z udp_challenge_state;
  (** value returned by [bpf_ktime_get_ns]; it stands still during one run
      of the program and is advanced between packets *)
  ktime_ns : Z;
  (** ghost record of the [bpf_map_update_elem] calls, oldest first *)
  update_log : list update_event
}.

Definition set_src_rate (m : gmap Z rate_limit_state) (st : xdp_state) :=
  {| map_protected_endpoints := map_protected_endpoints st;
     map_src_rate := m;
     map_conntrack := map_conntrack st;
     map_blacklist := map_blacklist st;
     map_stats := map_stats st;
     map_udp_challenges := map_udp_challenges st;
     ktime_ns := ktime_ns st;
     update_log := update_log st |}.

Definition set_conntrack (m : gmap Z conntrack_entry) (st : xdp_state) :=
  {| map_protected_endpoints := map_protected_endpoints st;
     map_src_rate := map_src_rate st;
     map_conntrack := m;
     map_blacklist := map_blacklist st;
     map_stats := map_stats st;
     map_udp_challenges := map_udp_challenges st;
     ktime_ns := ktime_ns st;
     update_log := update_log st |}.

Definition set_blacklist (m : gmap Z Z) (st : xdp_state) :=
  {| map_protected_endpoints := map_protected_endpoints st;
     map_src_rate := map_src_rate st;
     map_conntrack := map_conntrack st;
     map_blacklist := m;
     map_stats := map_stats st;
     map_udp_challenges := map_udp_challenges st;
     ktime_ns := ktime_ns st;
     update_log := update_log st |}.

Definition set_stats (l : list Z) (st : xdp_state) :=
  {| map_protected_endpoints := map_protected_endpoints st;
     map_src_rate := map_src_rate st;
     map_conntrack := map_conntrack st;
     map_blacklist := map_blacklist st;
     map_stats := l;
     map_udp_challenges := map_udp_challenges st;
     ktime_ns := ktime_ns st;
     update_log := update_log st |}.

Definition set_udp_challenges (m : gmap Z udp_challenge_state)
    (st : xdp_state) :=
  {| map_protected_endpoints := map_protected_endpoints st;
     map_src_rate := map_src_rate st;
     map_conntrack := map_conntrack st;
     map_blacklist := map_blacklist st;
     map_stats := map_stats st;
     map_udp_challenges := m;
     ktime_ns := ktime_ns st;
     update_log := update_log st |}.

Definition log_update (e : update_event) (st : xdp_state) :=
  {| map_protected_endpoints := map_protected_endpoints st;
     map_src_rate := map_src_rate st;
     map_conntrack := map_conntrack st;
     map_blacklist := map_blacklist st;
     map_stats := map_stats st;
     map_udp_challenges := map_udp_challenges st;
     ktime_ns := ktime_ns st;
     update_log := update_log st ++ [e] |}.

(** State-passing computations over the maps. *)
Definition M (A : Type) : Type := xdp_state -> A * xdp_state.

Definition ret {A} (a : A) : M A := fun st => (a, st).
Definition bind {A B} (m : M A) (k : A -> M B) : M B :=
  fun st => let (a, st') := m st in k a st'.
Definition modify (f : xdp_state -> xdp_state) : M unit :=
  fun st => (tt, f st).

Declare Scope xdp_scope.
Delimit Scope xdp_scope with xdp.
Notation "x <- m ;; k" := (bind m (fun x => k))
  (at level 100, m at next level, right associativity) : xdp_scope.
Notation "m ;; k" := (bind m (fun _ => k))
  (at level 100, right associativity) : xdp_scope.

(** [bpf_map_update_elem(map, key, value, BPF_ANY)] on a hash map of
    capacity [max_entries]: an existing key is overwritten, a new key is
    stored while the map has room, and refused (-E2BIG) once it is full. *)
Definition E2BIG : Z := 7.

Definition hash_update {V} (max_entries : Z) (k : Z) (v : V)
    (m : gmap Z V) : option (gmap Z V) :=
  match m !! k with
  | Some _ => Some (<[k := v]> m)
  | None =>
    if Z.of_nat (size m) <? max_entries then Some (<[k := v]> m) else None
  end.

Definition bpf_map_update_src_rate (k : Z) (v : rate_limit_state) : M Z :=
  fun st =>
    match hash_update SRC_RATE_MAX_ENTRIES k v (map_src_rate st) with
    | Some m =>
      (0, log_update {| ev_map := MapSrcRate; ev_key := k; ev_stored := true |}
            (set_src_rate m st))
    | None =>
      (- E2BIG,
       log_update {| ev_map := MapSrcRate; ev_key := k; ev_stored := false |}
         st)
    end.

Definition bpf_map_update_udp_challenges (k : Z) (v : udp_challenge_state)
    : M Z :=
  fun st =>
    match hash_update UDP_CHALLENGES_MAX_ENTRIES k v (map_udp_challenges st)
    with
    | Some m =>
      (0, log_update
            {| ev_map := MapUdpChallenges; ev_key := k; ev_stored := true |}
            (set_udp_challenges m st))
    | None =>
      (- E2BIG,
       log_update
         {| ev_map := MapUdpChallenges; ev_key := k; ev_stored := false |} st)
    end.

Definition bpf_map_update_conntrack (k : Z) (v : conntrack_entry) : M Z :=
  fun st =>
    match hash_update CONNTRACK_MAX_ENTRIES k v (map_conntrack st) with
    | Some m =>
      (0, log_update
            {| ev_map := MapConntrack; ev_key := k; ev_stored := true |}
            (set_conntrack m st))
    | None =>
      (- E2BIG,
       log_update
         {| ev_map := MapConntrack; ev_key := k; ev_stored := false |} st)
    end.

Definition bpf_ktime_get_ns (st : xdp_state) : Z := u64 (ktime_ns st).

(** ** Helper functions (lines 119-183) *)

Definition get_current_time (st : xdp_state) : Z :=
  u32 (bpf_ktime_get_ns st / 1000000).

Definition hash_5tuple (src_ip dst_ip src_port dst_port protocol : Z) : Z :=
  Z.lor (Z.lor (Z.lor (Z.lor (u64 (Z.shiftl src_ip 32)) dst_ip)
                      (u64 (Z.shiftl src_port 48)))
               (u64 (Z.shiftl dst_port 32)))
        (u64 (Z.shiftl protocol 24)).

Definition update_rate_limit (src_ip rate_limit burst_limit : Z) : M Z :=
  fun st =>
    let current_time := get_current_time st in
    match map_src_rate st !! src_ip with
    | None =>
      (* First packet from this IP *)
      let new_state := {| last_update := current_time;
                          tokens := burst_limit;
                          last_burst := 0 |} in
      let (r, st') := bpf_map_update_src_rate src_ip new_state st in
      if r <? 0 then (-1, st') else (1, st')
    | Some state =>
      let time_diff := u32 (current_time - last_update state) in
      let new_tokens :=
        u32 (tokens state + u32 (time_diff * rate_limit) / 1000) in
      let new_tokens :=
        if new_tokens >? burst_limit then burst_limit else new_tokens in
      if new_tokens =? 0 then
        (0, set_src_rate
              (<[src_ip := {| last_update := current_time;
                              tokens := tokens state;
                              last_burst := last_burst state |}]>
                 (map_src_rate st)) st)
      else
        let new_tokens := u32 (new_tokens - 1) in
        (1, set_src_rate
              (<[src_ip := {| last_update := current_time;
                              tokens := new_tokens;
                              last_burst := last_burst state |}]>
                 (map_src_rate st)) st)
    end.

Definition is_blacklisted (src_ip : Z) : M Z :=
  fun st =>
    match map_blacklist st !! src_ip with
    | None => (0, st)
    | Some blocked_until =>
      let current_time := bpf_ktime_get_ns st / 1000000 in
      if current_time <? blocked_until then (1, st)
      else (0, set_blacklist (delete src_ip (map_blacklist st)) st)
    end.

(** ** Counters (lines 306-312) *)

(** [bpf_map_lookup_elem] on the array map [map_stats]: a slot for an index
    below [max_entries], NULL otherwise. *)
Definition stats_lookup (stat_type : Z) (stats : list Z) : option Z :=
  if (0 <=? stat_type) && (stat_type <? STATS_MAX_ENTRIES)
  then stats !! Z.to_nat stat_type
  else None.

Definition update_stats (stat_type : Z) : M unit :=
  modify (fun st =>
    match stats_lookup stat_type (map_stats st) with
    | Some count =>
      set_stats (<[Z.to_nat stat_type := u64 (count + 1)]> (map_stats st)) st
    | None => st
    end).

(** ** Challenge gate (lines 314-360) *)

(** [current_time - challenge->timestamp] on [__u64]. *)
Definition challenge_age (st : xdp_state) (challenge : udp_challenge_state)
    : Z :=
  u64 (bpf_ktime_get_ns st / 1000000 - timestamp challenge).

(** The function calls itself after deleting an expired challenge; [fuel]
    bounds the depth of that recursion in the model. *)
Fixpoint handle_udp_challenge_fuel (fuel : nat) (src_ip data : Z)
    (pkt : list byte) : M (access Z) :=
  fun st =>
    match fuel with
    | O => (OutOfFuel, st)
    | S fuel' =>
      let current_time := bpf_ktime_get_ns st / 1000000 in
      match map_udp_challenges st !! src_ip with
      | None =>
        (* First packet from this IP - send challenge *)
        let new_challenge :=
          {| timestamp := current_time;
             challenge_cookie := u32 (Z.lxor current_time src_ip);
             challenge_sent := 1 |} in
        let (r, st') := bpf_map_update_udp_challenges src_ip new_challenge st in
        if r <? 0 then (Done 0, st')
        else (Done 0, snd (update_stats STAT_UDP_CHALLENGES_SENT st'))
      | Some challenge =>
        if challenge_age st challenge >? 5000 then
          handle_udp_challenge_fuel fuel' src_ip data pkt
            (set_udp_challenges (delete src_ip (map_udp_challenges st)) st)
        else if data + 8 >? data_end_of data pkt then (Done 0, st)
        else if challenge_age st challenge >? 100 then
          (Done 1,
           snd (update_stats STAT_UDP_CHALLENGES_PASSED
                  (set_udp_challenges
                     (delete src_ip (map_udp_challenges st)) st)))
        else (Done 0, st)
      end
    end.

Definition handle_udp_challenge (src_ip data : Z) (pkt : list byte)
    : M (access Z) :=
  handle_udp_challenge_fuel 2 src_ip data pkt.

(** ** Endpoint registry: [BPF_MAP_TYPE_LPM_TRIE] (lines 18-24, 62-67)

    The kernel's trie treats a key as [prefix_len] followed by the bytes of
    the rest of the struct, and compares bit strings: bit [i] of the data is
    bit [7 - i mod 8] of byte [i / 8].  A lookup returns the stored entry
    with the longest prefix that is no longer than the prefix length of the
    lookup key and whose bits all agree with the lookup key's. *)

(** Bytes of [struct endpoint_key] after [prefix_len]: [ip], [port],
    [protocol] and one byte of padding. *)
Definition key_data (k : endpoint_key) : list Z :=
  [ Z.land (ip k) 255;
    Z.land (Z.shiftr (ip k) 8) 255;
    Z.land (Z.shiftr (ip k) 16) 255;
    Z.land (Z.shiftr (ip k) 24) 255;
    Z.land (port k) 255;
    Z.land (Z.shiftr (port k) 8) 255;
    Z.land (protocol k) 255;
    0 ].

Definition LPM_MAX_PREFIXLEN : Z := 64.

Definition extract_bit (data : list Z) (index : nat) : bool :=
  Z.testbit (nth (index / 8) data 0) (7 - Z.of_nat (index mod 8)).

Definition lpm_prefix_match (node key : endpoint_key) : bool :=
  (prefix_len node <=? prefix_len key)
  && forallb (fun i => Bool.eqb (extract_bit (key_data node) i)
                                (extract_bit (key_data key) i))
             (seq 0 (Z.to_nat (prefix_len node))).

Definition lpm_longer (cand : endpoint_key * endpoint_info)
    (best : option (endpoint_key * endpoint_info))
    : option (endpoint_key * endpoint_info) :=
  match best with
  | None => Some cand
  | Some b =>
    if prefix_len (fst b) <? prefix_len (fst cand) then Some cand else Some b
  end.

Fixpoint lpm_lookup (trie : list (endpoint_key * endpoint_info))
    (key : endpoint_key) : option (endpoint_key * endpoint_info) :=
  match trie with
  | [] => None
  | e :: rest =>
    if lpm_prefix_match (fst e) key
    then lpm_longer e (lpm_lookup rest key)
    else lpm_lookup rest key
  end.

(** [bpf_map_lookup_elem(&map_protected_endpoints, &key)]. *)
Definition bpf_map_lookup_endpoint (key : endpoint_key) (st : xdp_state)
    : option endpoint_info :=
  if prefix_len key >? LPM_MAX_PREFIXLEN then None
  else snd <$> lpm_lookup (map_protected_endpoints st) key.

(** ** Header decoding

    Layouts of [struct ethhdr], [struct iphdr], [struct tcphdr] and
    [struct udphdr] of the Linux headers the program includes. *)

Record xdp_md := {
  data : Z;
  frame : list byte
}.

Definition sizeof_ethhdr : Z := 14.
Definition sizeof_iphdr : Z := 20.
Definition sizeof_tcphdr : Z := 20.
Definition sizeof_udphdr : Z := 8.
Definition ETH_P_IP : Z := 0x0800.
Definition IPPROTO_TCP : Z := 6.
Definition IPPROTO_UDP : Z := 17.

Definition frame_u8 (pkt : list byte) (off : Z) : Z :=
  match pkt !! Z.to_nat off with
  | Some b => byte_val b
  | None => 0
  end.

Definition frame_u16 (pkt : list byte) (off : Z) : Z :=
  Z.lor (frame_u8 pkt off) (Z.shiftl (frame_u8 pkt (off + 1)) 8).

Definition frame_u32 (pkt : list byte) (off : Z) : Z :=
  Z.lor (frame_u16 pkt off) (Z.shiftl (frame_u16 pkt (off + 2)) 16).

Definition bpf_htons (x : Z) : Z :=
  Z.lor (Z.shiftl (Z.land x 255) 8) (Z.land (Z.shiftr x 8) 255).
Definition bpf_ntohs (x : Z) : Z := bpf_htons x.

Definition eth_h_proto (pkt : list byte) : Z := frame_u16 pkt 12.
Definition ip_protocol (pkt : list byte) : Z :=
  frame_u8 pkt (sizeof_ethhdr + 9).
Definition ip_saddr (pkt : list byte) : Z :=
  frame_u32 pkt (sizeof_ethhdr + 12).
Definition ip_daddr (pkt : list byte) : Z :=
  frame_u32 pkt (sizeof_ethhdr + 16).
(** [source] and [dest] sit at the same offsets in [tcphdr] and [udphdr]. *)
Definition l4_source (pkt : list byte) : Z :=
  frame_u16 pkt (sizeof_ethhdr + sizeof_iphdr).
Definition l4_dest (pkt : list byte) : Z :=
  frame_u16 pkt (sizeof_ethhdr + sizeof_iphdr + 2).

(** ** Flow tracker (lines 457-479) *)

Definition conntrack_record (src_ip dst_ip src_port dst_port protocol : Z)
    : M unit :=
  fun st =>
    let flow_hash :=
      hash_5tuple src_ip dst_ip src_port dst_port protocol in
    match map_conntrack st !! flow_hash with
    | Some _ => (tt, st)
    | None =>
      (* New connection - add to conntrack *)
      let new_conn := {| ct_src_ip := src_ip;
                         ct_dst_ip := dst_ip;
                         ct_src_port := src_port;
                         ct_dst_port := dst_port;
                         ct_protocol := protocol;
                         ct_state := 1;
                         ct_challenge_id := 0 |} in
      let (_, st') := bpf_map_update_conntrack flow_hash new_conn st in
      (tt, st')
    end.

(** ** The XDP program (lines 363-483) *)

Local Open Scope xdp_scope.

(** Lines 452-482: the verdict once [valid_protocol] is known. *)
Definition xdp_admit (pkt : list byte) (key : endpoint_key)
    (valid_protocol : Z) : M (access xdp_action) :=
  if negb (truthy valid_protocol) then
    update_stats STAT_BLOCKED_INVALID_PROTOCOL;;
    ret (Done XDP_DROP)
  else
    conntrack_record (ip_saddr pkt) (ip_daddr pkt) (bpf_ntohs (l4_source pkt))
      (port key) (ip_protocol pkt);;
    update_stats STAT_ALLOWED_PACKETS;;
    ret (Done XDP_REDIRECT).

(** Lines 434-450: protocol-specific validation, then [xdp_admit]. *)
Definition xdp_validate (ctx : xdp_md) (key : endpoint_key)
    (endpoint : endpoint_info) : M (access xdp_action) :=
  let pkt := frame ctx in
  if (ip_protocol pkt =? IPPROTO_TCP) && (protocol_type endpoint =? 0) then
    match validate_minecraft_java (data ctx) pkt with
    | Done valid_protocol => xdp_admit pkt key valid_protocol
    | OutOfBounds off => ret (OutOfBounds off)
    | OutOfFuel => ret OutOfFuel
    end
  else if (ip_protocol pkt =? IPPROTO_UDP) && (protocol_type endpoint =? 1)
  then
    match validate_minecraft_bedrock (data ctx) pkt with
    | Done v =>
      if truthy v then
        challenge_result <- handle_udp_challenge (ip_saddr pkt) (data ctx) pkt;;
        match challenge_result with
        | Done c =>
          if c =? 0 then
            update_stats STAT_BLOCKED_CHALLENGE_FAILED;;
            ret (Done XDP_DROP)
          else xdp_admit pkt key 1
        | OutOfBounds off => ret (OutOfBounds off)
        | OutOfFuel => ret OutOfFuel
        end
      else xdp_admit pkt key 0
    | OutOfBounds off => ret (OutOfBounds off)
    | OutOfFuel => ret OutOfFuel
    end
  else xdp_admit pkt key 0.

(** Lines 414-432: endpoint lookup, maintenance mode, rate limiting. *)
Definition xdp_endpoint (ctx : xdp_md) (key : endpoint_key)
    : M (access xdp_action) :=
  fun st =>
    match bpf_map_lookup_endpoint key st with
    | None => (Done XDP_PASS, st) (* Not a protected endpoint *)
    | Some endpoint =>
      (if truthy (maintenance_mode endpoint) then
         update_stats STAT_BLOCKED_MAINTENANCE;;
         ret (Done XDP_DROP)
       else
         rate_result <- update_rate_limit (ip_saddr (frame ctx))
                          (rate_limit endpoint) (burst_limit endpoint);;
         if rate_result <? 0 then ret (Done XDP_DROP)
         else if rate_result =? 0 then
           update_stats STAT_BLOCKED_RATE_LIMIT;;
           ret (Done XDP_DROP)
         else xdp_validate ctx key endpoint) st
    end.

Definition with_port (key : endpoint_key) (p : Z) : endpoint_key :=
  {| prefix_len := prefix_len key; ip := ip key; port := p;
     protocol := protocol key |}.

Definition xdp_minecraft_protection (ctx : xdp_md) : M (access xdp_action) :=
  let pkt := frame ctx in
  let data_end := data_end_of (data ctx) pkt in
  update_stats STAT_TOTAL_PACKETS;;
  (* Parse Ethernet header *)
  if data ctx + sizeof_ethhdr >? data_end then ret (Done XDP_DROP)
  else if negb (eth_h_proto pkt =? bpf_htons ETH_P_IP) then ret (Done XDP_PASS)
  else if data ctx + sizeof_ethhdr + sizeof_iphdr >? data_end
  then ret (Done XDP_DROP)
  else
    blocked <- is_blacklisted (ip_saddr pkt);;
    if truthy blocked then
      update_stats STAT_BLOCKED_BLACKLIST;;
      ret (Done XDP_DROP)
    else
      let key := {| prefix_len := 32; ip := ip_daddr pkt; port := 0;
                    protocol := ip_protocol pkt |} in
      if ip_protocol pkt =? IPPROTO_TCP then
        if data ctx + sizeof_ethhdr + sizeof_iphdr + sizeof_tcphdr >? data_end
        then ret (Done XDP_DROP)
        else xdp_endpoint ctx (with_port key (bpf_ntohs (l4_dest pkt)))
      else if ip_protocol pkt =? IPPROTO_UDP then
        if data ctx + sizeof_ethhdr + sizeof_iphdr + sizeof_udphdr >? data_end
        then ret (Done XDP_DROP)
        else xdp_endpoint ctx (with_port key (bpf_ntohs (l4_dest pkt)))
      else ret (Done XDP_PASS).

Local Close Scope xdp_scope.

(** * Reference states, packets and specification-side definitions *)

(** ** States and frames *)

(** The maps as the loader leaves them: hash maps empty, the statistics
    array zero-filled with its [max_entries] slots. *)
Definition initial_state : xdp_state :=
  {| map_protected_endpoints := [];
     map_src_rate := ∅;
     map_conntrack := ∅;
     map_blacklist := ∅;
     map_stats := repeat 0 (Z.to_nat STATS_MAX_ENTRIES);
     map_udp_challenges := ∅;
     ktime_ns := 0;
     update_log := [] |}.

Definition set_ktime (t : Z) (st : xdp_state) : xdp_state :=
  {| map_protected_endpoints := map_protected_endpoints st;
     map_src_rate := map_src_rate st;
     map_conntrack := map_conntrack st;
     map_blacklist := map_blacklist st;
     map_stats := map_stats st;
     map_udp_challenges := map_udp_challenges st;
     ktime_ns := t;
     update_log := update_log st |}.

Definition set_endpoints (l : list (endpoint_key * endpoint_info))
    (st : xdp_state) : xdp_state :=
  {| map_protected_endpoints := l;
     map_src_rate := map_src_rate st;
     map_conntrack := map_conntrack st;
     map_blacklist := map_blacklist st;
     map_stats := map_stats st;
     map_udp_challenges := map_udp_challenges st;
     ktime_ns := ktime_ns st;
     update_log := update_log st |}.

(** A kernel address for [ctx->data] in the examples. *)
Definition sample_data : Z := 0xffff888004a3c000.

(** Frames for the examples: Ethernet II carrying IPv4 from 10.0.0.5 to
    10.0.0.1, source port 12345. *)
Definition eth_ipv4 (dst_mac src_mac : list byte) : list byte :=
  dst_mac ++ src_mac ++ [x08; x00].

Definition ipv4_header (proto : byte) : list byte :=
  [x45; x00; x00; x28; x00; x00; x00; x00; x40; proto; x00; x00;
   x0a; x00; x00; x05;  x0a; x00; x00; x01].

Definition tcp_header (dport_hi dport_lo : byte) : list byte :=
  [x30; x39; dport_hi; dport_lo; x00; x00; x00; x01; x00; x00; x00; x00;
   x50; x02; xff; xff; x00; x00; x00; x00].

(** UDP header with destination port 19132. *)
Definition udp_header : list byte :=
  [x30; x39; x4a; xbc; x00; x08; x00; x00].

Definition tcp_frame (dst_mac src_mac : list byte)
    (dport_hi dport_lo : byte) : list byte :=
  eth_ipv4 dst_mac src_mac ++ ipv4_header x06 ++ tcp_header dport_hi dport_lo.

Definition udp_frame_to (dst_mac src_mac : list byte) : list byte :=
  eth_ipv4 dst_mac src_mac ++ ipv4_header x11 ++ udp_header.

Definition plain_mac : list byte := [x02; x00; x00; x00; x00; x02].

Definition ctx_of (f : list byte) : xdp_md :=
  {| data := sample_data; frame := f |}.

(** A 42-byte UDP frame whose first byte is the RakNet type 0x06. *)
Definition udp_frame : list byte :=
  udp_frame_to [x06; x00; x00; x00; x00; x01] plain_mac.

Definition udp_ctx : xdp_md := ctx_of udp_frame.

(** A 42-byte UDP frame whose first byte is the ping tag 0x05; the sixteen
    bytes after it are not the RakNet magic. *)
Definition ping_udp_frame : list byte :=
  udp_frame_to [x05; x00; x00; x00; x00; x01] plain_mac.

(** TCP frames to port 25565 whose first bytes read as a handshake:
    length 5, id 0 and an eight-byte version VarInt of value 4; length 50,
    id 0, version 760; length 50, id 0, version 47. *)
Definition long_varint_frame : list byte :=
  tcp_frame [x05; x00; x84; x80; x80; x80] [x80; x80; x80; x00; x00; x02]
    x63 xdd.

Definition version_760_frame : list byte :=
  tcp_frame [x32; x00; xf8; x05; x00; x01] plain_mac x63 xdd.

Definition version_47_frame : list byte :=
  tcp_frame [x32; x00; x2f; x05; x00; x01] plain_mac x63 xdd.

(** The frame [version_47_frame] sent to port 80 instead. *)
Definition port_80_frame : list byte :=
  tcp_frame [x32; x00; x2f; x05; x00; x01] plain_mac x00 x50.

(** UNCONNECTED_PING followed by the RakNet magic with its last byte
    changed from 0x78 to 0x79. *)
Definition ping_bad_magic : list byte :=
  [x05; x00; xff; xff; x00; xfe; xfe; xfe; xfe;
   xfd; xfd; xfd; xfd; x12; x34; x56; x79].

Definition ping_good_magic : list byte :=
  [x05; x00; xff; xff; x00; xfe; xfe; xfe; xfe;
   xfd; xfd; xfd; xfd; x12; x34; x56; x78].

(** Five bytes: a length VarInt whose five bytes all carry the continuation
    bit and whose value bits spell 5. *)
Definition varint_five_continued : list byte := [x85; x80; x80; x80; x80].

(** Length 5, packet id 0, then a protocol-version VarInt of eight bytes
    (value 4). *)
Definition version_eight_bytes : list byte :=
  [x05; x00; x84; x80; x80; x80; x80; x80; x80; x00].

(** A complete handshake: length 50, packet id 0, protocol version 760
    (VarInt [f8 05]), a 43-character server address, port 25565,
    next state 2. *)
Definition handshake_760 : list byte :=
  [x32; x00; xf8; x05; x2b] ++ repeat x61 43 ++ [x63; xdd; x02].

(** The same handshake with the one-byte protocol version 47. *)
Definition handshake_47 : list byte :=
  [x32; x00; x2f; x2c] ++ repeat x61 44 ++ [x63; xdd; x02].

(** VarInt as the protocol defines it: seven value bits per byte, least
    significant group first, high bit set on every byte but the last, at
    most five bytes.  Returns the value and the number of bytes used. *)
Fixpoint varint_decode (budget : nat) (bytes : list byte) (shift : Z)
    : option (Z * Z) :=
  match budget, bytes with
  | S budget', b :: rest =>
    let v := Z.shiftl (Z.land (byte_val b) 127) shift in
    if truthy (Z.land (byte_val b) 128) then
      match varint_decode budget' rest (shift + 7) with
      | Some (w, n) => Some (Z.lor v w, n + 1)
      | None => None
      end
    else Some (v, 1)
  | _, _ => None
  end.

(** The endpoint the loader stores for 10.0.0.1:25565/tcp (Java). *)
Definition java_endpoint_key : endpoint_key :=
  {| prefix_len := 32; ip := 0x0100000a; port := 25565;
     protocol := IPPROTO_TCP |}.

Definition java_endpoint_info : endpoint_info :=
  {| origin_ip := 0x0200000a; origin_port := 25565; rate_limit := 1000;
     burst_limit := 10; protocol_type := 0; maintenance_mode := 0 |}.

Definition one_endpoint_state : xdp_state :=
  set_endpoints [(java_endpoint_key, java_endpoint_info)] initial_state.

(** ** Rate limiter: the refill rule and a wrapping refill *)

(** The refill rule in the specification's words:
    min(burst_limit, tokens + floor(elapsed_ms * rate_limit / 1000)) over
    unbounded integers. *)
Definition spec_new_tokens (tokens elapsed_ms rate_limit burst_limit : Z)
    : Z :=
  Z.min burst_limit (tokens + elapsed_ms * rate_limit / 1000).

(** A source with an empty bucket, last seen at time 0, at an endpoint with
    rate 1000/s and burst 10; the clock stands at 4294968 ms (71.6 min). *)
Definition idle_source_state : xdp_state :=
  set_ktime (4294968 * 1000000)
    (set_src_rate
       {[ 1 := {| last_update := 0; tokens := 0; last_burst := 0 |} ]}
       initial_state).

(** ** Flow keys *)

(** The flow key of the 5-tuple held by a flow entry. *)
Definition flow_key (e : conntrack_entry) : Z :=
  hash_5tuple (ct_src_ip e) (ct_dst_ip e) (ct_src_port e) (ct_dst_port e)
    (ct_protocol e).

Definition record_flow (e : conntrack_entry) : M unit :=
  conntrack_record (ct_src_ip e) (ct_dst_ip e) (ct_src_port e)
    (ct_dst_port e) (ct_protocol e).

(** 10.1.0.1:3840 -> 10.0.0.9:25565 over TCP. *)
Definition flow_a : conntrack_entry :=
  {| ct_src_ip := 0x0a010001; ct_dst_ip := 0x0a000009; ct_src_port := 0x0f00;
     ct_dst_port := 25565; ct_protocol := IPPROTO_TCP; ct_state := 1;
     ct_challenge_id := 0 |}.

(** 10.0.0.1:3841 -> 10.0.0.9:25565 over TCP. *)
Definition flow_b : conntrack_entry :=
  {| ct_src_ip := 0x0a000001; ct_dst_ip := 0x0a000009; ct_src_port := 0x0f01;
     ct_dst_port := 25565; ct_protocol := IPPROTO_TCP; ct_state := 1;
     ct_challenge_id := 0 |}.

(** ** Rate limiter: bursts *)

(** Verdicts of [n] consecutive packets of one source at one endpoint while
    the clock stands still. *)
Fixpoint burst (n : nat) (src_ip rate_limit burst_limit : Z)
    (st : xdp_state) : list Z :=
  match n with
  | O => []
  | S n' =>
    let (r, st') := update_rate_limit src_ip rate_limit burst_limit st in
    r :: burst n' src_ip rate_limit burst_limit st'
  end.

(** Number of packets allowed before the first verdict other than allow. *)
Fixpoint allowed_before_deny (verdicts : list Z) : nat :=
  match verdicts with
  | [] => 0
  | r :: rest => if r =? 1 then S (allowed_before_deny rest) else 0
  end.

(** ** Challenge gate: fresh challenges and valid datagrams *)

(** The challenge stored for a source seen without state (lines 322-326). *)
Definition fresh_challenge (st : xdp_state) (src_ip : Z)
    : udp_challenge_state :=
  {| timestamp := bpf_ktime_get_ns st / 1000000;
     challenge_cookie := u32 (Z.lxor (bpf_ktime_get_ns st / 1000000) src_ip);
     challenge_sent := 1 |}.

(** A frame as the gate receives it from the program: the Ethernet, IPv4
    and UDP headers lie inside the buffer (line 407) and the datagram
    validator has accepted it (line 441). *)
Definition valid_datagram (ctx : xdp_md) : bool :=
  negb (data ctx + sizeof_ethhdr + sizeof_iphdr + sizeof_udphdr
        >? data_end_of (data ctx) (frame ctx))
  && match validate_minecraft_bedrock (data ctx) (frame ctx) with
     | Done v => truthy v
     | _ => false
     end.

(** The source 10.0.0.5 was challenged at 1000 ms; the clock reads
    1150 ms. *)
Definition waiting_state : xdp_state :=
  set_ktime 1150000000
    (set_udp_challenges
       {[ 0x0500000a := {| timestamp := 1000; challenge_cookie := 0;
                           challenge_sent := 1 |} ]}
       initial_state).

(** ** Traces of state writes *)

(** The [bpf_map_update_elem] calls made between two states. *)
Definition new_updates (st st' : xdp_state) : list update_event :=
  drop (length (update_log st)) (update_log st').

(** Number of [bpf_map_update_elem] calls on map [m] in a trace. *)
Fixpoint writes_to (m : map_id) (evs : list update_event) : nat :=
  match evs with
  | [] => 0
  | e :: rest =>
    (if decide (ev_map e = m) then 1 else 0) + writes_to m rest
  end.

(** At most one write, and it goes to map [m]. *)
Inductive write_shape (m : map_id) : list update_event -> Prop :=
| ws_none : write_shape m []
| ws_one (k : Z) (b : bool) :
    write_shape m [{| ev_map := m; ev_key := k; ev_stored := b |}].

Definition write_failed (evs : list update_event) : Prop :=
  exists e, In e evs /\ ev_stored e = false.

(** What one run of the program may write: at most one rate-state insert,
    then at most one challenge insert, then at most one flow insert; a
    refused rate or challenge insert ends the run with a drop. *)
Definition run_trace (r : access xdp_action) (evs : list update_event)
    : Prop :=
  exists evr evc evt,
    evs = evr ++ evc ++ evt
    /\ write_shape MapSrcRate evr
    /\ write_shape MapUdpChallenges evc
    /\ write_shape MapConntrack evt
    /\ (write_failed evr \/ write_failed evc -> r = Done XDP_DROP).

(** The Bedrock endpoint 10.0.0.1:19132/udp. *)
Definition bedrock_endpoint_key : endpoint_key :=
  {| prefix_len := 32; ip := 0x0100000a; port := 19132;
     protocol := IPPROTO_UDP |}.

Definition bedrock_endpoint_info : endpoint_info :=
  {| origin_ip := 0x0200000a; origin_port := 19132; rate_limit := 1000;
     burst_limit := 10; protocol_type := 1; maintenance_mode := 0 |}.

(** A challenge table filled to its [max_entries] by the sources
    1 .. 10000. *)
Definition filled_challenges : gmap Z udp_challenge_state :=
  snd (Pos.iter
         (fun km : Z * gmap Z udp_challenge_state =>
            (fst km + 1,
             <[fst km := {| timestamp := 0; challenge_cookie := fst km;
                            challenge_sent := 1 |}]> (snd km)))
         (1, ∅) 10000).

Definition full_challenges_state : xdp_state :=
  set_udp_challenges filled_challenges
    (set_endpoints [(bedrock_endpoint_key, bedrock_endpoint_info)]
       initial_state).

(** ** Termination of the model *)

(** The computation ends before the model's iteration bound. *)
Definition returns {A} (m : access A) : Prop := m <> OutOfFuel.

(** * Further reference states *)

(** Slot 0 of the counters array at the largest 64-bit value. *)
Definition saturated_stats_state : xdp_state :=
  set_stats (<[0%nat := 2 ^ 64 - 1]> (map_stats initial_state)) initial_state.

(** Source 1 holds 3 tokens stamped at 0 ms, source 2 holds 7; the clock
    reads 50 ms. *)
Definition two_sources_state : xdp_state :=
  set_ktime 50000000
    (set_src_rate
       {[ 1 := {| last_update := 0; tokens := 3; last_burst := 0 |};
          2 := {| last_update := 0; tokens := 7; last_burst := 0 |} ]}
       initial_state).

(** Source 7 is blacklisted until 2000 ms, source 8 until 500 ms; the clock
    reads 1000 ms. *)
Definition blacklist_state : xdp_state :=
  set_ktime 1000000000
    (set_blacklist {[ 7 := 2000; 8 := 500 ]} initial_state).

(** The 5-tuple entry the flow tracker stores (lines 467-477). *)
Definition new_conn (src_ip dst_ip src_port dst_port protocol : Z)
    : conntrack_entry :=
  {| ct_src_ip := src_ip; ct_dst_ip := dst_ip; ct_src_port := src_port;
     ct_dst_port := dst_port; ct_protocol := protocol; ct_state := 1;
     ct_challenge_id := 0 |}.

(** ** Validator verdicts in closed form *)

(** The datagram verdict as a function of the buffer length and the first
    byte alone. *)
Definition bedrock_verdict (pkt : list byte) : Z :=
  match pkt with
  | [] => 0
  | b :: _ =>
    let t := byte_val b in
    if (4 <=? Z.of_nat (length pkt)) && raknet_type_allowed t
       && (negb ((t =? 0x05) || (t =? 0x15))
           || (17 <=? Z.of_nat (length pkt)))
    then 1 else 0
  end.

(** The handshake verdict for a one-byte length, the packet id and a
    one-byte protocol version. *)
Definition java_short_verdict (len id ver : Z) : Z :=
  if (5 <=? len) && (len <=? 100) && (id =? 0) && (4 <=? ver) then 1 else 0.

(** ** Whole-run invariants *)

(** The counters [xdp_minecraft_protection] itself increments after the
    total-packets counter. *)
Definition reason_counters : list Z :=
  [STAT_BLOCKED_BLACKLIST; STAT_BLOCKED_MAINTENANCE; STAT_BLOCKED_RATE_LIMIT;
   STAT_BLOCKED_CHALLENGE_FAILED; STAT_BLOCKED_INVALID_PROTOCOL;
   STAT_ALLOWED_PACKETS].

(** No hash map holds more entries than its declaration allows. *)
Definition within_capacity (st : xdp_state) : Prop :=
  Z.of_nat (size (map_src_rate st)) <= SRC_RATE_MAX_ENTRIES
  /\ Z.of_nat (size (map_udp_challenges st)) <= UDP_CHALLENGES_MAX_ENTRIES
  /\ Z.of_nat (size (map_conntrack st)) <= CONNTRACK_MAX_ENTRIES
  /\ Z.of_nat (size (map_blacklist st)) <= BLACKLIST_MAX_ENTRIES.

(** The Ethernet and IPv4 headers lie inside the buffer and the EtherType
    is IPv4 (the checks of lines 373, 377 and 382). *)
Definition ipv4_frame (ctx : xdp_md) : bool :=
  negb (data ctx + sizeof_ethhdr >? data_end_of (data ctx) (frame ctx))
  && (eth_h_proto (frame ctx) =? bpf_htons ETH_P_IP)
  && negb (data ctx + sizeof_ethhdr + sizeof_iphdr
           >? data_end_of (data ctx) (frame ctx)).

(** An ARP frame of 42 bytes and a frame cut after 10 bytes. *)
Definition arp_frame : list byte :=
  [xff; xff; xff; xff; xff; xff] ++ plain_mac ++ [x08; x06] ++ repeat x00 28.

Definition cut_frame : list byte := repeat x00 10.

(** The registry entry of [one_endpoint_state] put in maintenance mode. *)
Definition maintenance_state : xdp_state :=
  set_endpoints
    [(java_endpoint_key,
      {| origin_ip := 0x0200000a; origin_port := 25565; rate_limit := 1000;
         burst_limit := 10; protocol_type := 0; maintenance_mode := 1 |})]
    initial_state.

(** The source of [udp_frame] blacklisted until 5000 ms, the clock at 0. *)
Definition blocked_source_state : xdp_state :=
  set_blacklist {[ 0x0500000a := 5000 ]} one_endpoint_state.

(** * Control plane ([src/loader.c])

    The map-management functions of the loader as operations on the same
    maps.  Their [printf] output is left out.  The calls the loader makes
    are not part of [update_log], which records the XDP program's calls. *)

(** [bpf_map_delete_elem] on a hash map: the key is removed, or the call
    fails when it is absent. *)
Definition hash_delete {V} (k : Z) (m : gmap Z V) : option (gmap Z V) :=
  match m !! k with
  | Some _ => Some (delete k m)
  | None => None
  end.

(** [add_to_blacklist] (lines 167-182); [now_s] is the value of
    [time(NULL)], seconds of the wall clock. *)
Definition add_to_blacklist (now_s ip duration_ms : Z) : M Z :=
  fun st =>
    let block_until := u64 (u64 now_s * 1000 + duration_ms) in
    match hash_update BLACKLIST_MAX_ENTRIES ip block_until (map_blacklist st)
    with
    | Some m => (0, set_blacklist m st)
    | None => (-1, st)
    end.

(** [remove_from_blacklist] (lines 185-198). *)
Definition remove_from_blacklist (ip : Z) : M Z :=
  fun st =>
    match hash_delete ip (map_blacklist st) with
    | Some m => (0, set_blacklist m st)
    | None => (-1, st)
    end.

(** [get_stats] (lines 201-213): the [count] values written to [stats]. *)
Definition get_stats (count : nat) (st : xdp_state) : list Z :=
  map (fun i : nat =>
         match stats_lookup (u32 (Z.of_nat i)) (map_stats st) with
         | Some value => value
         | None => 0
         end)
      (seq 0 count).

(** Wall clock 1700000000 s; 10.0.0.5 is blacklisted for 60 s in the
    initial state. *)
Definition after_blacklisting : xdp_state :=
  snd (add_to_blacklist 1700000000 0x0500000a 60000 initial_state).

(** ** Endpoint registry updates

    [bpf_map_update_elem] and [bpf_map_delete_elem] on the LPM trie: two
    keys name the same node when they have the same prefix length and agree
    on that many bits.  An update replaces the key and value of the node,
    or adds a node while the trie has room; a delete removes the node or
    fails when there is none. *)

Definition PROTECTED_ENDPOINTS_MAX_ENTRIES : Z := 10000.

Definition lpm_same_node (node key : endpoint_key) : bool :=
  (prefix_len node =? prefix_len key) && lpm_prefix_match node key.

Definition lpm_update (key : endpoint_key) (info : endpoint_info)
    (trie : list (endpoint_key * endpoint_info))
    : option (list (endpoint_key * endpoint_info)) :=
  if prefix_len key >? LPM_MAX_PREFIXLEN then None
  else if existsb (fun e => lpm_same_node (fst e) key) trie then
    Some (map (fun e => if lpm_same_node (fst e) key then (key, info) else e)
              trie)
  else if Z.of_nat (length trie) <? PROTECTED_ENDPOINTS_MAX_ENTRIES then
    Some ((key, info) :: trie)
  else None.

Definition lpm_delete (key : endpoint_key)
    (trie : list (endpoint_key * endpoint_info))
    : option (list (endpoint_key * endpoint_info)) :=
  if existsb (fun e => lpm_same_node (fst e) key) trie then
    Some (List.filter (fun e => negb (lpm_same_node (fst e) key)) trie)
  else None.

(** [add_protected_endpoint] (lines 107-141). *)
Definition add_protected_endpoint
    (front_ip front_port protocol origin_ip origin_port protocol_type
     rate_limit burst_limit : Z) : M Z :=
  fun st =>
    let key := {| prefix_len := 32; ip := front_ip; port := front_port;
                  protocol := protocol |} in
    let info := {| origin_ip := origin_ip; origin_port := origin_port;
                   rate_limit := rate_limit; burst_limit := burst_limit;
                   protocol_type := protocol_type;
                   maintenance_mode := 0 |} in
    match lpm_update key info (map_protected_endpoints st) with
    | Some trie => (0, set_endpoints trie st)
    | None => (-1, st)
    end.

(** [remove_protected_endpoint] (lines 144-164). *)
Definition remove_protected_endpoint (front_ip front_port protocol : Z)
    : M Z :=
  fun st =>
    let key := {| prefix_len := 32; ip := front_ip; port := front_port;
                  protocol := protocol |} in
    match lpm_delete key (map_protected_endpoints st) with
    | Some trie => (0, set_endpoints trie st)
    | None => (-1, st)
    end.

(** * Results *)

(** ** Validators *)

Lemma byte_val_range (b : byte) : 0 <= byte_val b < 256.
Proof.
  unfold byte_val. pose proof (Byte.to_N_bounded b) as H.
  split; [apply N2Z.is_nonneg|]. lia.
Qed.

Lemma pkt_read_Some (pkt : list byte) (off : Z) (b : byte) :
  0 <= off -> pkt !! Z.to_nat off = Some b ->
  pkt_read pkt off = Done (byte_val b).
Proof.
  intros Hoff Hb. unfold pkt_read.
  destruct (off <? 0) eqn:E; [apply Z.ltb_lt in E; lia|].
  now rewrite Hb.
Qed.

(** Inside the buffer the magic comparison always yields a truth value. *)
Lemma magic_matches_total (pkt : list byte) (magic : list Z) (off : Z) :
  0 <= off ->
  off + Z.of_nat (length magic) <= Z.of_nat (length pkt) ->
  exists ok, magic_matches pkt off magic = Done ok.
Proof.
  revert off. induction magic as [|m rest IH]; intros off Hoff Hlen.
  - now exists true.
  - cbn [magic_matches length] in *.
    destruct (lookup_lt_is_Some_2 pkt (Z.to_nat off)) as [b Hb]; [lia|].
    rewrite (pkt_read_Some _ _ _ Hoff Hb). cbn [access_bind].
    destruct (byte_val b =? m).
    + apply IH; lia.
    + now exists false.
Qed.

(** Whatever follows a ping tag, a packet of at least 17 bytes is accepted:
    the magic comparison has no effect on the verdict. *)
Lemma bedrock_ping_magic_ignored (d : Z) (pkt : list byte) :
  (17 <= length pkt)%nat ->
  pkt_read pkt 0 = Done 0x05 \/ pkt_read pkt 0 = Done 0x15 ->
  validate_minecraft_bedrock d pkt = Done 1.
Proof.
  intros Hlen Htag. unfold validate_minecraft_bedrock, data_end_of.
  destruct (d + 4 >? d + Z.of_nat (length pkt)) eqn:E4;
    [apply Z.gtb_lt in E4; lia|].
  assert (E17 : (d + 17 >? d + Z.of_nat (length pkt)) = false).
  { apply not_true_is_false. intros H. apply Z.gtb_lt in H. lia. }
  destruct (magic_matches_total pkt raknet_magic 1) as [ok Hok];
    [lia | cbn [raknet_magic length]; lia |].
  destruct Htag as [-> | ->]; cbn [access_bind];
    change (raknet_type_allowed 5) with true;
    change (raknet_type_allowed 21) with true;
    cbn [Z.eqb Pos.eqb orb]; rewrite E17, Hok; cbn [access_bind];
    now destruct ok.
Qed.

(** C1. A ping-tagged packet (first byte 0x05) whose sixteen following bytes
    differ from the RakNet magic is accepted by
    [validate_minecraft_bedrock], where the claim has it rejected: the
    failed comparison leaves the inner block and reaches the [return 1] that
    ends the allow-set branch.  Shown on the magic with its last byte
    altered and on a 42-byte UDP frame as the program passes it in. *)
Theorem bedrock_ping_bad_magic_accepted :
  magic_matches ping_bad_magic 1 raknet_magic = Done false
  /\ validate_minecraft_bedrock sample_data ping_bad_magic = Done 1
  /\ magic_matches ping_udp_frame 1 raknet_magic = Done false
  /\ validate_minecraft_bedrock sample_data ping_udp_frame = Done 1
  /\ magic_matches ping_good_magic 1 raknet_magic = Done true.
Proof. repeat split; vm_compute; reflexivity. Qed.

(** C2. On the five-byte buffer [85 80 80 80 80] the handshake validator
    passes its own checks ([data + 5 > data_end] is false; the tests
    [offset + 1 > data_end] and [offset >= data_end] compare a small integer
    with an address and never fire) and reads [pkt[5]], the byte at
    [data_end].  A protocol-version VarInt of eight bytes is accepted, alone
    and inside a TCP frame that the program then redirects: the second loop
    is not held to five bytes. *)
Theorem java_out_of_bounds_read :
  length varint_five_continued = 5%nat
  /\ validate_minecraft_java sample_data varint_five_continued
     = OutOfBounds 5
  /\ validate_minecraft_java sample_data version_eight_bytes = Done 1
  /\ validate_minecraft_java sample_data long_varint_frame = Done 1
  /\ fst (xdp_minecraft_protection (ctx_of long_varint_frame)
            one_endpoint_state) = Done XDP_REDIRECT.
Proof. repeat split; vm_compute; reflexivity. Qed.

(** C8. A well-formed handshake of declared length 50, packet id 0 and
    protocol version 760 (VarInt [f8 05]) is rejected, where the claim has
    it accepted: the second byte of the version VarInt is shifted by
    [7 * (offset - 1) = 14] bits instead of 7, which gives 82040.  The same
    bytes at the head of a TCP frame make the program drop the frame; with
    the one-byte version 47 the handshake is accepted and the frame
    redirected. *)
Theorem java_version_760_rejected :
  varint_decode 5 [x32] 0 = Some (50, 1)
  /\ varint_decode 5 [xf8; x05] 0 = Some (760, 2)
  /\ length handshake_760 = 51%nat
  /\ validate_minecraft_java sample_data handshake_760 = Done 0
  /\ Z.lor (Z.land 0xf8 127) (Java.last_group 0x05 (u32 (3 - 1))) = 82040
  /\ validate_minecraft_java sample_data handshake_47 = Done 1
  /\ fst (xdp_minecraft_protection (ctx_of version_760_frame)
            one_endpoint_state) = Done XDP_DROP
  /\ fst (xdp_minecraft_protection (ctx_of version_47_frame)
            one_endpoint_state) = Done XDP_REDIRECT.
Proof. repeat split; vm_compute; reflexivity. Qed.

(** ** Counters *)

Lemma stats_lookup_out_of_range (stat_type : Z) (stats : list Z) :
  STATS_MAX_ENTRIES <= stat_type -> stats_lookup stat_type stats = None.
Proof.
  intros H. unfold stats_lookup.
  destruct (stat_type <? STATS_MAX_ENTRIES) eqn:E;
    [apply Z.ltb_lt in E; lia|].
  now rewrite andb_false_r.
Qed.

Lemma update_stats_out_of_range (stat_type : Z) (st : xdp_state) :
  STATS_MAX_ENTRIES <= stat_type -> update_stats stat_type st = (tt, st).
Proof.
  intros H. unfold update_stats, modify.
  now rewrite stats_lookup_out_of_range.
Qed.

(** A slot below [max_entries] that the array holds goes up by one. *)
Lemma update_stats_in_range (stat_type count : Z) (st : xdp_state) :
  0 <= stat_type < STATS_MAX_ENTRIES ->
  map_stats st !! Z.to_nat stat_type = Some count ->
  map_stats (snd (update_stats stat_type st)) !! Z.to_nat stat_type
  = Some (u64 (count + 1)).
Proof.
  intros Hr Hc. unfold update_stats, modify, stats_lookup. cbn [snd].
  destruct (0 <=? stat_type) eqn:E0; [|apply Z.leb_gt in E0; lia].
  destruct (stat_type <? STATS_MAX_ENTRIES) eqn:E1;
    [|apply Z.ltb_ge in E1; lia].
  cbn [andb]. rewrite Hc. cbn [map_stats set_stats].
  apply list_lookup_insert_eq. now apply lookup_lt_Some in Hc.
Qed.

(** No path through the challenge gate changes a counter. *)
Lemma handle_udp_challenge_stats (src_ip d : Z) (pkt : list byte)
    (st : xdp_state) :
  map_stats (snd (handle_udp_challenge src_ip d pkt st)) = map_stats st.
Proof.
  unfold handle_udp_challenge. cbn [handle_udp_challenge_fuel].
  unfold bpf_map_update_udp_challenges.
  rewrite !update_stats_out_of_range by (vm_compute; discriminate).
  destruct (map_udp_challenges st !! src_ip) as [ch|] eqn:Hch.
  - destruct (challenge_age st ch >? 5000).
    + cbn [map_udp_challenges set_udp_challenges].
      rewrite lookup_delete_eq.
      destruct (hash_update _ _ _ _); cbn; reflexivity.
    + destruct (d + 8 >? data_end_of d pkt); [reflexivity|].
      destruct (challenge_age st ch >? 100); reflexivity.
  - destruct (hash_update _ _ _ _); cbn; reflexivity.
Qed.

(** C4. The counters array has ten slots (indices 0-9) and the challenge
    tallies are numbered 10 and 11: [update_stats] finds no slot for either
    and does nothing, so a run of the challenge gate leaves every counter as
    it was; a first valid datagram creates the challenge state while the
    challenge-sent tally stays absent. *)
Theorem challenge_counters_have_no_slot :
  forall (src_ip d : Z) (pkt : list byte) (st : xdp_state),
    update_stats STAT_UDP_CHALLENGES_SENT st = (tt, st)
    /\ update_stats STAT_UDP_CHALLENGES_PASSED st = (tt, st)
    /\ map_stats (snd (handle_udp_challenge src_ip d pkt st)) = map_stats st
    /\ is_Some (map_udp_challenges
                  (snd (handle_udp_challenge 1 sample_data ping_good_magic
                          initial_state)) !! 1)
    /\ map_stats initial_state !! Z.to_nat STAT_UDP_CHALLENGES_SENT = None.
Proof.
  intros src_ip d pkt st.
  split; [apply update_stats_out_of_range; vm_compute; discriminate|].
  split; [apply update_stats_out_of_range; vm_compute; discriminate|].
  split; [apply handle_udp_challenge_stats|].
  split; [vm_compute; eexists; reflexivity | reflexivity].
Qed.

(** ** Endpoint lookup *)

Lemma extract_bit_ip_only (k1 k2 : endpoint_key) (i : nat) :
  ip k1 = ip k2 -> (i < 32)%nat ->
  extract_bit (key_data k1) i = extract_bit (key_data k2) i.
Proof.
  intros Hip Hi. unfold extract_bit, key_data. rewrite Hip.
  do 32 (destruct i as [|i]; [reflexivity|]). lia.
Qed.

Lemma forallb_agree {A} (f g : A -> bool) (l : list A) :
  (forall x, In x l -> f x = g x) -> forallb f l = forallb g l.
Proof.
  induction l as [|a l IH]; intros H; [reflexivity|].
  cbn [forallb]. rewrite (H a) by now left.
  rewrite IH; [reflexivity|]. intros x Hx. apply H. now right.
Qed.

Lemma lpm_prefix_match_ip_only (node k1 k2 : endpoint_key) :
  prefix_len k1 = 32 -> prefix_len k2 = 32 -> ip k1 = ip k2 ->
  lpm_prefix_match node k1 = lpm_prefix_match node k2.
Proof.
  intros H1 H2 Hip. unfold lpm_prefix_match. rewrite H1, H2.
  destruct (prefix_len node <=? 32) eqn:E; [|reflexivity].
  apply Z.leb_le in E. cbn [andb].
  apply forallb_agree. intros i Hi. apply in_seq in Hi.
  rewrite (extract_bit_ip_only k1 k2 i Hip) by lia. reflexivity.
Qed.

(** With the lookup key's prefix length fixed at 32 the trie sees the
    address only: port and protocol of the packet never influence which
    entry is returned. *)
Lemma lookup_ignores_port_and_protocol (st : xdp_state)
    (dst_ip p1 pr1 p2 pr2 : Z) :
  bpf_map_lookup_endpoint
    {| prefix_len := 32; ip := dst_ip; port := p1; protocol := pr1 |} st
  = bpf_map_lookup_endpoint
      {| prefix_len := 32; ip := dst_ip; port := p2; protocol := pr2 |} st.
Proof.
  unfold bpf_map_lookup_endpoint. cbn [prefix_len]. f_equal.
  induction (map_protected_endpoints st) as [|e rest IH]; [reflexivity|].
  cbn [lpm_lookup].
  rewrite (lpm_prefix_match_ip_only (fst e)
             {| prefix_len := 32; ip := dst_ip; port := p1; protocol := pr1 |}
             {| prefix_len := 32; ip := dst_ip; port := p2; protocol := pr2 |})
    by reflexivity.
  now rewrite IH.
Qed.

(** C5. With one registry entry, 10.0.0.1 port 25565 over TCP, the lookup
    the program performs for a packet to 10.0.0.1 port 80 over TCP, and for
    one to port 19132 over UDP, returns that entry's policy: the key is
    looked up with [prefix_len = 32], which covers the address bytes only,
    so port and protocol are not compared.  The TCP frame to port 80 is
    redirected and the UDP frame dropped as invalid protocol; neither is
    passed through as the claim has it. *)
Theorem lookup_matches_other_port :
  bpf_map_lookup_endpoint
    {| prefix_len := 32; ip := 0x0100000a; port := 80;
       protocol := IPPROTO_TCP |} one_endpoint_state
  = Some java_endpoint_info
  /\ bpf_map_lookup_endpoint
       {| prefix_len := 32; ip := 0x0100000a; port := 19132;
          protocol := IPPROTO_UDP |} one_endpoint_state
     = Some java_endpoint_info
  /\ bpf_map_lookup_endpoint
       {| prefix_len := 32; ip := 0x0300000a; port := 25565;
          protocol := IPPROTO_TCP |} one_endpoint_state
     = None
  /\ fst (xdp_minecraft_protection (ctx_of port_80_frame)
            one_endpoint_state) = Done XDP_REDIRECT
  /\ fst (xdp_minecraft_protection (ctx_of udp_frame) one_endpoint_state)
     = Done XDP_DROP.
Proof. repeat split; vm_compute; reflexivity. Qed.

(** ** Rate limiter: a refill that wraps *)

(** C9. For a stored token count 0 (at most the burst limit 10), rate 1000
    and 4294968 ms elapsed, the 32-bit product [time_diff * rate_limit] is
    4294968000 mod 2^32 = 704, the refill is 0 and the packet is denied with
    the bucket still empty, where the unbounded formula gives
    min(10, 4294968) = 10 tokens. *)
Theorem refill_product_wraps :
  map_src_rate idle_source_state !! 1
  = Some {| last_update := 0; tokens := 0; last_burst := 0 |}
  /\ get_current_time idle_source_state = 4294968
  /\ u32 (4294968 * 1000) = 704
  /\ fst (update_rate_limit 1 1000 10 idle_source_state) = 0
  /\ tokens <$> map_src_rate
                  (snd (update_rate_limit 1 1000 10 idle_source_state)) !! 1
     = Some 0
  /\ spec_new_tokens 0 4294968 1000 10 = 10.
Proof. repeat split; vm_compute; reflexivity. Qed.

(** ** Flow key collisions *)

(** The source port lands on bits 48-63, where the upper half of the source
    address already sits. *)
Lemma src_port_overlaps_src_ip (p dst_ip dst_port protocol : Z) :
  hash_5tuple (Z.shiftl (u16 p) 16) dst_ip 0 dst_port protocol
  = hash_5tuple 0 dst_ip (u16 p) dst_port protocol.
Proof.
  unfold hash_5tuple. rewrite Z.shiftl_shiftl by lia.
  change (16 + 32) with 48. rewrite !Z.shiftl_0_l.
  change (u64 0) with 0. rewrite Z.lor_0_r, Z.lor_0_l.
  now rewrite (Z.lor_comm dst_ip).
Qed.

(** The destination port lands on bits 32-47, where the lower half of the
    source address already sits. *)
Lemma dst_port_overlaps_src_ip (p dst_ip src_port protocol : Z) :
  hash_5tuple (u16 p) dst_ip src_port 0 protocol
  = hash_5tuple 0 dst_ip src_port (u16 p) protocol.
Proof.
  unfold hash_5tuple. rewrite !Z.shiftl_0_l.
  change (u64 0) with 0. rewrite Z.lor_0_r, Z.lor_0_l. f_equal.
  rewrite (Z.lor_comm (u64 (Z.shiftl (u16 p) 32)) dst_ip).
  now rewrite <- !Z.lor_assoc, (Z.lor_comm (u64 (Z.shiftl (u16 p) 32))).
Qed.

(** The protocol lands on bits 24-31, the top byte of the destination
    address. *)
Lemma protocol_overlaps_dst_ip (q src_ip src_port dst_port : Z) :
  hash_5tuple src_ip (Z.shiftl (u8 q) 24) src_port dst_port 0
  = hash_5tuple src_ip 0 src_port dst_port (u8 q).
Proof.
  assert (Hq : u64 (Z.shiftl (u8 q) 24) = Z.shiftl (u8 q) 24).
  { unfold u64, u8. apply Z.mod_small.
    pose proof (Z.mod_pos_bound q (2 ^ 8) ltac:(lia)).
    rewrite Z.shiftl_mul_pow2 by lia. lia. }
  unfold hash_5tuple. rewrite !Z.shiftl_0_l.
  change (u64 0) with 0. rewrite !Z.lor_0_r, Hq.
  rewrite <- !Z.lor_assoc. f_equal.
  rewrite (Z.lor_comm (Z.shiftl (u8 q) 24)).
  now rewrite <- !Z.lor_assoc.
Qed.

(** Once a key is in the flow table, a later flow with the same key leaves
    the table as it is. *)
Lemma conntrack_record_keeps_first (st : xdp_state)
    (e1 e2 e : conntrack_entry) :
  flow_key e1 = flow_key e2 ->
  map_conntrack st !! flow_key e1 = Some e ->
  record_flow e2 st = (tt, st).
Proof.
  intros Hk He. unfold record_flow, conntrack_record.
  fold (flow_key e2). now rewrite <- Hk, He.
Qed.

(** C10. [hash_5tuple] is not injective.  The flows 10.1.0.1:3840 and
    10.0.0.1:3841 to the same endpoint differ and have the same key, because
    the shifted fields are OR-ed over one another: the source port covers
    the upper half of the source address, the destination port its lower
    half, the protocol the top byte of the destination address.  Recording
    the first flow and then the second leaves one flow-table entry, which
    holds the first flow's 5-tuple. *)
Theorem hash_5tuple_not_injective :
  flow_a <> flow_b
  /\ flow_key flow_a = flow_key flow_b
  /\ map_conntrack (snd (record_flow flow_b (snd (record_flow flow_a
                                                    initial_state))))
     = {[ flow_key flow_a := flow_a ]}
  /\ (forall p dst_ip dst_port protocol,
        hash_5tuple (Z.shiftl (u16 p) 16) dst_ip 0 dst_port protocol
        = hash_5tuple 0 dst_ip (u16 p) dst_port protocol)
  /\ (forall p dst_ip src_port protocol,
        hash_5tuple (u16 p) dst_ip src_port 0 protocol
        = hash_5tuple 0 dst_ip src_port (u16 p) protocol)
  /\ (forall q src_ip src_port dst_port,
        hash_5tuple src_ip (Z.shiftl (u8 q) 24) src_port dst_port 0
        = hash_5tuple src_ip 0 src_port dst_port (u8 q)).
Proof.
  split; [discriminate|].
  split; [vm_compute; reflexivity|].
  split.
  - assert (Ha : record_flow flow_a initial_state
                 = (tt, log_update {| ev_map := MapConntrack;
                                      ev_key := flow_key flow_a;
                                      ev_stored := true |}
                          (set_conntrack {[ flow_key flow_a := flow_a ]}
                             initial_state)))
      by (vm_compute; reflexivity).
    rewrite Ha. cbn [snd].
    erewrite conntrack_record_keeps_first with (e1 := flow_a) (e := flow_a).
    + reflexivity.
    + vm_compute; reflexivity.
    + cbn [map_conntrack log_update set_conntrack].
      apply lookup_singleton_eq.
  - split; [exact src_port_overlaps_src_ip|].
    split; [exact dst_port_overlaps_src_ip | exact protocol_overlaps_dst_ip].
Qed.

(** ** Rate limiter: instantaneous bursts *)

Lemma u32_small (z : Z) : 0 <= z < 2 ^ 32 -> u32 z = z.
Proof. intros H. unfold u32. now apply Z.mod_small. Qed.

Lemma allowed_before_deny_repeat (a b : nat) :
  allowed_before_deny (repeat 1 a ++ repeat 0 b) = a.
Proof.
  induction a as [|a IH]; cbn.
  - now destruct b.
  - now rewrite IH.
Qed.

(** With a bucket of [t] tokens stamped with the current time, the next
    [t] packets are allowed and every later one is denied. *)
Lemma burst_from_bucket (n : nat) :
  forall (st : xdp_state) (src_ip rate_limit burst_limit : Z)
         (s : rate_limit_state),
    map_src_rate st !! src_ip = Some s ->
    last_update s = get_current_time st ->
    0 <= tokens s <= burst_limit -> burst_limit < 2 ^ 32 ->
    burst n src_ip rate_limit burst_limit st
    = repeat 1 (Nat.min n (Z.to_nat (tokens s)))
      ++ repeat 0 (n - Z.to_nat (tokens s)).
Proof.
  induction n as [|n IH]; intros st src_ip rl bl s Hs Ht Htok Hbl;
    [reflexivity|].
  cbn [burst]. unfold update_rate_limit. rewrite Hs, Ht.
  rewrite Z.sub_diag. change (u32 0) with 0.
  rewrite Z.mul_0_l. change (u32 0 / 1000) with 0.
  rewrite Z.add_0_r, (u32_small (tokens s)) by lia.
  destruct (tokens s >? bl) eqn:Egt; [apply Z.gtb_lt in Egt; lia|].
  destruct (tokens s =? 0) eqn:E0.
  - apply Z.eqb_eq in E0.
    rewrite (IH _ src_ip rl bl
               {| last_update := get_current_time st; tokens := tokens s;
                  last_burst := last_burst s |});
      cbn [map_src_rate set_src_rate tokens last_update];
      [| apply lookup_insert_eq | reflexivity | lia | exact Hbl].
    rewrite E0. cbn [Z.to_nat]. rewrite Nat.min_0_r, !Nat.sub_0_r.
    reflexivity.
  - apply Z.eqb_neq in E0.
    rewrite (IH _ src_ip rl bl
               {| last_update := get_current_time st;
                  tokens := u32 (tokens s - 1);
                  last_burst := last_burst s |});
      cbn [map_src_rate set_src_rate tokens last_update];
      [| apply lookup_insert_eq | reflexivity
       | rewrite u32_small by lia; lia | exact Hbl].
    rewrite u32_small by lia.
    replace (Z.to_nat (tokens s)) with (S (Z.to_nat (tokens s - 1))) by lia.
    reflexivity.
Qed.

(** C3, as stated, fails: with burst limit 2 and no stored state, four
    packets arriving at the same instant are answered allow, allow, allow,
    deny; three packets are allowed before the first deny, not two. *)
Lemma burst_of_four_allows_three :
  map_src_rate initial_state !! 1 = None
  /\ burst 4 1 10 2 initial_state = [1; 1; 1; 0]
  /\ allowed_before_deny (burst 4 1 10 2 initial_state) <> Z.to_nat 2.
Proof. repeat split; vm_compute; congruence. Qed.

(** C3, amended. Starting from no stored rate state for a source, with room
    in the rate table, packets arriving with zero elapsed time are allowed
    [burst_limit + 1] times before the first deny: the first packet creates
    the state with a full bucket without taking a token, the next
    [burst_limit] packets each take one, and every packet after that is
    denied. *)
Theorem burst_allows_burst_limit_plus_one :
  forall (st : xdp_state) (src_ip rate_limit burst_limit : Z) (n : nat),
    map_src_rate st !! src_ip = None ->
    Z.of_nat (size (map_src_rate st)) < SRC_RATE_MAX_ENTRIES ->
    0 <= burst_limit < 2 ^ 32 ->
    burst n src_ip rate_limit burst_limit st
    = repeat 1 (Nat.min n (Z.to_nat burst_limit + 1))
      ++ repeat 0 (n - (Z.to_nat burst_limit + 1))
    /\ ((Z.to_nat burst_limit + 1 < n)%nat ->
        allowed_before_deny (burst n src_ip rate_limit burst_limit st)
        = (Z.to_nat burst_limit + 1)%nat).
Proof.
  intros st src_ip rl bl n Hnone Hroom Hbl.
  assert (Hlist : burst n src_ip rl bl st
                  = repeat 1 (Nat.min n (Z.to_nat bl + 1))
                    ++ repeat 0 (n - (Z.to_nat bl + 1))).
  { destruct n as [|n]; [reflexivity|].
    cbn [burst]. unfold update_rate_limit, bpf_map_update_src_rate,
      hash_update.
    rewrite Hnone.
    destruct (Z.of_nat (size (map_src_rate st)) <? SRC_RATE_MAX_ENTRIES)
      eqn:E; [|apply Z.ltb_ge in E; lia].
    cbn [Z.ltb Z.compare].
    rewrite (burst_from_bucket n _ src_ip rl bl
               {| last_update := get_current_time st; tokens := bl;
                  last_burst := 0 |});
      cbn [map_src_rate set_src_rate log_update tokens last_update];
      [| apply lookup_insert_eq | reflexivity | lia | lia].
    replace (Z.to_nat bl + 1)%nat with (S (Z.to_nat bl)) by lia.
    reflexivity. }
  split; [exact Hlist|].
  intros Hn. rewrite Hlist.
  replace (Nat.min n (Z.to_nat bl + 1)) with (Z.to_nat bl + 1)%nat by lia.
  apply allowed_before_deny_repeat.
Qed.

Lemma burst_allows_burst_limit_plus_one_witness :
  burst 5 1 10 2 initial_state = [1; 1; 1; 0; 0]
  /\ allowed_before_deny (burst 5 1 10 2 initial_state) = 3%nat.
Proof.
  destruct (burst_allows_burst_limit_plus_one initial_state 1 10 2 5)
    as [Hl Ha].
  - reflexivity.
  - vm_compute; reflexivity.
  - lia.
  - split; [exact Hl | apply Ha; vm_compute; lia].
Defined.

(** ** Challenge gate *)

Lemma valid_datagram_length (ctx : xdp_md) :
  valid_datagram ctx = true ->
  (data ctx + 8 >? data_end_of (data ctx) (frame ctx)) = false.
Proof.
  unfold valid_datagram, sizeof_ethhdr, sizeof_iphdr, sizeof_udphdr.
  intros H. apply andb_true_iff in H as [H _].
  apply negb_true_iff in H. apply not_true_is_false. intros H8.
  apply Z.gtb_lt in H8.
  destruct (Z.gtb_spec (data ctx + 14 + 20 + 8)
              (data_end_of (data ctx) (frame ctx))); [discriminate|lia].
Qed.

Lemma hash_update_room {V} (max_entries k : Z) (v : V) (m : gmap Z V) :
  Z.of_nat (size m) < max_entries ->
  hash_update max_entries k v m = Some (<[k := v]> m).
Proof.
  intros H. unfold hash_update. destruct (m !! k); [reflexivity|].
  destruct (Z.of_nat (size m) <? max_entries) eqn:E;
    [reflexivity | apply Z.ltb_ge in E; lia].
Qed.

(** C6 as stated fails on a full challenge table: the source 10.0.0.5 has
    no stored state and sends a valid datagram, the table holds its 10000
    entries, and the gate denies the packet without creating any state. *)
Lemma challenge_gate_full_table_no_state :
  valid_datagram udp_ctx = true
  /\ map_udp_challenges full_challenges_state !! 0x0500000a = None
  /\ fst (handle_udp_challenge 0x0500000a (data udp_ctx) (frame udp_ctx)
            full_challenges_state) = Done 0
  /\ map_udp_challenges
       (snd (handle_udp_challenge 0x0500000a (data udp_ctx) (frame udp_ctx)
               full_challenges_state)) !! 0x0500000a = None.
Proof. repeat split; vm_compute; reflexivity. Qed.

(** C6, amended. For every source address and every valid datagram packet
    the gate acts by these cases, where [now] is the clock in milliseconds
    and the age of a stored state is [now] minus its timestamp, taken as an
    unsigned 64-bit difference:
    - no stored state, room in the table: the fresh challenge is stored and
      the packet denied;
    - no stored state, table full: the packet is denied and no state is
      created;
    - age above 5000 ms: the state is replaced by a fresh challenge and the
      packet denied;
    - age in (100, 5000] ms: the state is deleted and the packet allowed;
    - age at most 100 ms: the packet is denied and nothing changes.
    The age is the plain difference [now - timestamp] whenever the timestamp
    is not later than the clock.  The table is one the kernel can hold: at
    most [max_entries] entries. *)
Theorem challenge_gate_four_cases :
  forall (st : xdp_state) (ctx : xdp_md) (src_ip : Z),
    valid_datagram ctx = true ->
    Z.of_nat (size (map_udp_challenges st)) <= UDP_CHALLENGES_MAX_ENTRIES ->
    let now := (ktime_ns st mod 2 ^ 64) / 1000000 in
    let age := fun ch => (now - timestamp ch) mod 2 ^ 64 in
    let fresh :=
      {| timestamp := now;
         challenge_cookie := Z.lxor now src_ip mod 2 ^ 32;
         challenge_sent := 1 |} in
    let table := map_udp_challenges st in
    let run := handle_udp_challenge src_ip (data ctx) (frame ctx) st in
    (table !! src_ip = None ->
     Z.of_nat (size table) < UDP_CHALLENGES_MAX_ENTRIES ->
     fst run = Done 0
     /\ map_udp_challenges (snd run) = <[src_ip := fresh]> table)
    /\ (table !! src_ip = None ->
        Z.of_nat (size table) = UDP_CHALLENGES_MAX_ENTRIES ->
        fst run = Done 0 /\ map_udp_challenges (snd run) = table)
    /\ (forall ch, table !! src_ip = Some ch ->
        5000 < age ch ->
        fst run = Done 0
        /\ map_udp_challenges (snd run) = <[src_ip := fresh]> table)
    /\ (forall ch, table !! src_ip = Some ch ->
        100 < age ch <= 5000 ->
        fst run = Done 1
        /\ map_udp_challenges (snd run) = delete src_ip table)
    /\ (forall ch, table !! src_ip = Some ch ->
        age ch <= 100 ->
        fst run = Done 0 /\ snd run = st)
    /\ (forall ch, 0 <= timestamp ch <= now -> age ch = now - timestamp ch).
Proof.
  intros st ctx src_ip Hvalid Hsize now age fresh table run.
  pose proof (valid_datagram_length ctx Hvalid) as Hlen.
  assert (Hage : forall ch, challenge_age st ch = age ch) by reflexivity.
  assert (Hnow : 0 <= now < 2 ^ 64).
  { subst now.
    pose proof (Z.mod_pos_bound (ktime_ns st) (2 ^ 64) ltac:(lia)) as Hk.
    split; [apply Z.div_pos; lia|].
    apply Z.div_lt_upper_bound; lia. }
  assert (Hrun : run = handle_udp_challenge src_ip (data ctx) (frame ctx) st)
    by reflexivity.
  clearbody run age. subst table.
  unfold handle_udp_challenge in Hrun.
  cbn [handle_udp_challenge_fuel] in Hrun.
  unfold bpf_map_update_udp_challenges in Hrun.
  rewrite !update_stats_out_of_range in Hrun by (vm_compute; discriminate).
  split; [|split; [|split; [|split; [|split]]]].
  - intros Hnone Hroom.
    rewrite Hnone, hash_update_room in Hrun by assumption.
    now subst run.
  - intros Hnone Hfull.
    rewrite Hnone in Hrun. unfold hash_update in Hrun.
    rewrite Hnone in Hrun.
    destruct (Z.ltb_spec (Z.of_nat (size (map_udp_challenges st)))
                UDP_CHALLENGES_MAX_ENTRIES) as [Hlt|_]; [lia|].
    now subst run.
  - intros ch Hch Hold. rewrite <- Hage in Hold. apply Z.gtb_lt in Hold.
    rewrite Hch, Hold in Hrun.
    cbn [map_udp_challenges set_udp_challenges] in Hrun.
    rewrite lookup_delete_eq, hash_update_room in Hrun.
    + subst run. split; [reflexivity|].
      cbn [snd map_udp_challenges set_udp_challenges log_update].
      exact (insert_delete_eq (map_udp_challenges st) src_ip fresh).
    + rewrite map_size_delete_Some by (rewrite Hch; eauto).
      unfold UDP_CHALLENGES_MAX_ENTRIES in *. lia.
  - intros ch Hch [H100 H5000]. rewrite <- Hage in H100, H5000.
    apply Z.gtb_lt in H100.
    rewrite Hch, Hlen, H100 in Hrun.
    destruct (challenge_age st ch >? 5000) eqn:E;
      [apply Z.gtb_lt in E; lia|].
    now subst run.
  - intros ch Hch H100. rewrite <- Hage in H100.
    rewrite Hch, Hlen in Hrun.
    destruct (challenge_age st ch >? 5000) eqn:E;
      [apply Z.gtb_lt in E; lia|].
    destruct (challenge_age st ch >? 100) eqn:E';
      [apply Z.gtb_lt in E'; lia|].
    now subst run.
  - intros ch Hts. rewrite <- Hage. unfold challenge_age, u64.
    fold now. apply Z.mod_small. lia.
Qed.

Lemma challenge_gate_four_cases_witness :
  fst (handle_udp_challenge 0x0500000a (data udp_ctx) (frame udp_ctx)
         waiting_state) = Done 1
  /\ map_udp_challenges
       (snd (handle_udp_challenge 0x0500000a (data udp_ctx) (frame udp_ctx)
               waiting_state))
     = delete 0x0500000a (map_udp_challenges waiting_state).
Proof.
  destruct (challenge_gate_four_cases waiting_state udp_ctx 0x0500000a)
    as (_ & _ & _ & Hpass & _).
  - vm_compute; reflexivity.
  - vm_compute; discriminate.
  - apply (Hpass {| timestamp := 1000; challenge_cookie := 0;
                    challenge_sent := 1 |}).
    + reflexivity.
    + vm_compute. split; [reflexivity | discriminate].
Defined.

(** ** Refused state writes *)

Lemma write_failed_nil : ~ write_failed [].
Proof. intros (e & [] & _). Qed.

Lemma update_stats_log (stat_type : Z) (st : xdp_state) :
  update_log (snd (update_stats stat_type st)) = update_log st.
Proof.
  unfold update_stats, modify. cbn [snd].
  now destruct (stats_lookup stat_type (map_stats st)).
Qed.

Lemma is_blacklisted_log (src_ip : Z) (st : xdp_state) :
  update_log (snd (is_blacklisted src_ip st)) = update_log st.
Proof.
  unfold is_blacklisted. destruct (map_blacklist st !! src_ip); [|reflexivity].
  now destruct (_ <? _).
Qed.

Lemma update_rate_limit_trace (src_ip rl bl : Z) (st : xdp_state) :
  exists evs,
    update_log (snd (update_rate_limit src_ip rl bl st))
    = update_log st ++ evs
    /\ write_shape MapSrcRate evs
    /\ (write_failed evs -> fst (update_rate_limit src_ip rl bl st) = -1).
Proof.
  unfold update_rate_limit, bpf_map_update_src_rate.
  destruct (map_src_rate st !! src_ip) as [s|].
  - exists []. rewrite app_nil_r.
    split; [|split; [constructor | intros H; now apply write_failed_nil in H]].
    destruct (_ >? _); destruct (_ =? 0); reflexivity.
  - destruct (hash_update _ _ _ _).
    + eexists. split; [reflexivity|]. split; [constructor|].
      intros (e & [<- | []] & He). discriminate.
    + eexists. split; [reflexivity|]. split; [constructor|]. reflexivity.
Qed.

Lemma handle_udp_challenge_trace (src_ip d : Z) (pkt : list byte)
    (st : xdp_state) :
  exists evs c,
    update_log (snd (handle_udp_challenge src_ip d pkt st))
    = update_log st ++ evs
    /\ write_shape MapUdpChallenges evs
    /\ fst (handle_udp_challenge src_ip d pkt st) = Done c
    /\ (write_failed evs -> c = 0).
Proof.
  unfold handle_udp_challenge. cbn [handle_udp_challenge_fuel].
  unfold bpf_map_update_udp_challenges.
  rewrite !update_stats_out_of_range by (vm_compute; discriminate).
  destruct (map_udp_challenges st !! src_ip) as [ch|].
  - destruct (challenge_age st ch >? 5000).
    + cbn [map_udp_challenges set_udp_challenges].
      rewrite lookup_delete_eq.
      destruct (hash_update _ _ _ _); do 2 eexists;
        (split; [reflexivity|]); (split; [constructor|]); split;
        reflexivity || (intros _; reflexivity).
    + destruct (d + 8 >? data_end_of d pkt).
      * exists [], 0. rewrite app_nil_r. repeat split. constructor.
      * destruct (challenge_age st ch >? 100).
        -- exists [], 1. rewrite app_nil_r.
           split; [reflexivity|]. split; [constructor|].
           split; [reflexivity|]. intros H. now apply write_failed_nil in H.
        -- exists [], 0. rewrite app_nil_r. repeat split. constructor.
  - destruct (hash_update _ _ _ _); do 2 eexists;
      (split; [reflexivity|]); (split; [constructor|]); split;
      reflexivity || (intros _; reflexivity).
Qed.

Lemma conntrack_record_trace (s d sp dp pr : Z) (st : xdp_state) :
  exists evs,
    update_log (snd (conntrack_record s d sp dp pr st)) = update_log st ++ evs
    /\ write_shape MapConntrack evs.
Proof.
  unfold conntrack_record, bpf_map_update_conntrack.
  destruct (map_conntrack st !! _).
  - exists []. rewrite app_nil_r. split; [reflexivity | constructor].
  - destruct (hash_update _ _ _ _); eexists;
      (split; [reflexivity | constructor]).
Qed.

Lemma bind_update_stats {A} (stat_type : Z) (k : M A) (st : xdp_state) :
  bind (update_stats stat_type) (fun _ => k) st
  = k (snd (update_stats stat_type st)).
Proof. unfold bind. now destruct (update_stats stat_type st). Qed.

Lemma bind_run {A B} (m : M A) (k : A -> M B) (st : xdp_state) :
  bind m k st = k (fst (m st)) (snd (m st)).
Proof. unfold bind. now destruct (m st). Qed.

Lemma xdp_admit_trace (pkt : list byte) (key : endpoint_key) (v : Z)
    (st : xdp_state) :
  exists evs,
    update_log (snd (xdp_admit pkt key v st)) = update_log st ++ evs
    /\ write_shape MapConntrack evs.
Proof.
  unfold xdp_admit. destruct (negb (truthy v)).
  - exists []. rewrite app_nil_r. split; [|constructor].
    rewrite bind_update_stats. unfold ret. cbn [snd]. apply update_stats_log.
  - destruct (conntrack_record_trace (ip_saddr pkt) (ip_daddr pkt)
                (bpf_ntohs (l4_source pkt)) (port key) (ip_protocol pkt) st)
      as (evs & Hlog & Hshape).
    unfold bind at 1.
    destruct (conntrack_record _ _ _ _ _ st) as [u st1]. cbn [snd] in Hlog.
    exists evs. split; [|exact Hshape].
    rewrite bind_update_stats. unfold ret. cbn [snd].
    rewrite update_stats_log. exact Hlog.
Qed.

Lemma run_trace_nil (r : access xdp_action) : run_trace r [].
Proof.
  exists [], [], []. repeat split; try constructor.
  intros [H | H]; now apply write_failed_nil in H.
Qed.

Lemma xdp_validate_trace (ctx : xdp_md) (key : endpoint_key)
    (endpoint : endpoint_info) (st : xdp_state) :
  exists evc evt,
    update_log (snd (xdp_validate ctx key endpoint st))
    = update_log st ++ evc ++ evt
    /\ write_shape MapUdpChallenges evc
    /\ write_shape MapConntrack evt
    /\ (write_failed evc ->
        fst (xdp_validate ctx key endpoint st) = Done XDP_DROP).
Proof.
  assert (Hadmit : forall v st0,
    update_log st0 = update_log st ->
    exists evc evt,
      update_log (snd (xdp_admit (frame ctx) key v st0))
      = update_log st ++ evc ++ evt
      /\ write_shape MapUdpChallenges evc
      /\ write_shape MapConntrack evt
      /\ (write_failed evc ->
          fst (xdp_admit (frame ctx) key v st0) = Done XDP_DROP)).
  { intros v st0 Hst0.
    destruct (xdp_admit_trace (frame ctx) key v st0) as (evt & Hlog & Hshape).
    exists [], evt. rewrite Hlog, Hst0.
    split; [reflexivity|]. split; [constructor|]. split; [exact Hshape|].
    intros H. now apply write_failed_nil in H. }
  assert (Hstop : forall r : access xdp_action,
    exists evc evt : list update_event,
      update_log st = update_log st ++ evc ++ evt
      /\ write_shape MapUdpChallenges evc
      /\ write_shape MapConntrack evt
      /\ (write_failed evc -> r = Done XDP_DROP)).
  { intros r. exists [], []. rewrite app_nil_r.
    split; [reflexivity|]. split; [constructor|]. split; [constructor|].
    intros H. now apply write_failed_nil in H. }
  unfold xdp_validate.
  destruct (_ && _).
  { destruct (validate_minecraft_java _ _);
      [apply Hadmit; reflexivity | apply Hstop | apply Hstop]. }
  destruct (_ && _); [|apply Hadmit; reflexivity].
  destruct (validate_minecraft_bedrock _ _) as [v| |];
    [|apply Hstop | apply Hstop].
  destruct (truthy v); [|apply Hadmit; reflexivity].
  destruct (handle_udp_challenge_trace (ip_saddr (frame ctx)) (data ctx)
              (frame ctx) st) as (evc & c & Hlog & Hshape & Hres & Hfail).
  rewrite bind_run, Hres.
  set (st1 := snd (handle_udp_challenge _ _ _ st)) in *. clearbody st1.
  destruct (c =? 0) eqn:Ec.
  - exists evc, []. rewrite bind_update_stats. unfold ret. cbn [fst snd].
    rewrite update_stats_log, Hlog, app_nil_r.
    split; [reflexivity|]. split; [exact Hshape|]. split; [constructor|].
    reflexivity.
  - destruct (xdp_admit_trace (frame ctx) key 1 st1) as (evt & Hlog' & Hshape').
    exists evc, evt. rewrite Hlog', Hlog, <- app_assoc.
    split; [reflexivity|]. split; [exact Hshape|]. split; [exact Hshape'|].
    intros H. apply Hfail in H. subst c. discriminate.
Qed.

Lemma xdp_endpoint_trace (ctx : xdp_md) (key : endpoint_key)
    (st : xdp_state) :
  run_trace (fst (xdp_endpoint ctx key st))
    (new_updates st (snd (xdp_endpoint ctx key st))).
Proof.
  unfold xdp_endpoint, new_updates.
  destruct (bpf_map_lookup_endpoint key st) as [endpoint|].
  2:{ cbn [fst snd]. rewrite drop_all. apply run_trace_nil. }
  destruct (truthy (maintenance_mode endpoint)).
  { rewrite bind_update_stats. unfold ret. cbn [fst snd].
    rewrite update_stats_log, drop_all. apply run_trace_nil. }
  destruct (update_rate_limit_trace (ip_saddr (frame ctx))
              (rate_limit endpoint) (burst_limit endpoint) st)
    as (evr & Hlog & Hshape & Hfail).
  rewrite bind_run.
  set (st1 := snd (update_rate_limit _ _ _ st)) in *.
  set (rate_result := fst (update_rate_limit _ _ _ st)) in *.
  clearbody st1 rate_result.
  destruct (rate_result <? 0) eqn:Eneg.
  { unfold ret. cbn [fst snd]. rewrite Hlog, drop_app_length.
    exists evr, [], []. rewrite !app_nil_r.
    split; [reflexivity|]. split; [exact Hshape|].
    split; [constructor|]. split; [constructor|]. reflexivity. }
  assert (Hnofail : ~ write_failed evr).
  { intros H. apply Hfail in H. subst rate_result. discriminate. }
  destruct (rate_result =? 0).
  { rewrite bind_update_stats. unfold ret. cbn [fst snd].
    rewrite update_stats_log, Hlog, drop_app_length.
    exists evr, [], []. rewrite !app_nil_r.
    split; [reflexivity|]. split; [exact Hshape|].
    split; [constructor|]. split; [constructor|]. reflexivity. }
  destruct (xdp_validate_trace ctx key endpoint st1)
    as (evc & evt & Hlog' & Hshapec & Hshapet & Hfailc).
  rewrite Hlog', Hlog, <- app_assoc, drop_app_length.
  exists evr, evc, evt.
  split; [reflexivity|]. split; [exact Hshape|].
  split; [exact Hshapec|]. split; [exact Hshapet|].
  intros [H | H]; [contradiction | now apply Hfailc].
Qed.

Lemma xdp_minecraft_protection_trace (ctx : xdp_md) (st : xdp_state) :
  run_trace (fst (xdp_minecraft_protection ctx st))
    (new_updates st (snd (xdp_minecraft_protection ctx st))).
Proof.
  assert (Hstop : forall (r : access xdp_action) st0,
            update_log st0 = update_log st ->
            run_trace r (new_updates st st0)).
  { intros r st0 H. unfold new_updates. rewrite H, drop_all.
    apply run_trace_nil. }
  assert (Hgo : forall key st0,
            update_log st0 = update_log st ->
            run_trace (fst (xdp_endpoint ctx key st0))
              (new_updates st (snd (xdp_endpoint ctx key st0)))).
  { intros key st0 H. unfold new_updates. rewrite <- H.
    apply xdp_endpoint_trace. }
  unfold xdp_minecraft_protection. rewrite bind_update_stats.
  pose proof (update_stats_log STAT_TOTAL_PACKETS st) as H0.
  destruct (_ >? _); [now apply Hstop|].
  destruct (negb _); [now apply Hstop|].
  destruct (_ >? _); [now apply Hstop|].
  rewrite bind_run.
  pose proof (is_blacklisted_log (ip_saddr (frame ctx))
                (snd (update_stats STAT_TOTAL_PACKETS st))) as H1.
  rewrite H0 in H1.
  set (st1 := snd (is_blacklisted _ _)) in *.
  set (blocked := fst (is_blacklisted _ _)) in *.
  clearbody st1 blocked.
  destruct (truthy blocked).
  { rewrite bind_update_stats. unfold ret. cbn [fst snd].
    apply Hstop. now rewrite update_stats_log. }
  destruct (_ =? IPPROTO_TCP).
  { destruct (_ >? _); [now apply Hstop | now apply Hgo]. }
  destruct (_ =? IPPROTO_UDP); [|now apply Hstop].
  destruct (_ >? _); [now apply Hstop | now apply Hgo].
Qed.

Lemma writes_to_app (m : map_id) (l1 l2 : list update_event) :
  writes_to m (l1 ++ l2) = (writes_to m l1 + writes_to m l2)%nat.
Proof.
  induction l1 as [|e l1 IH]; [reflexivity|].
  cbn [app writes_to]. rewrite IH. lia.
Qed.

Lemma writes_to_shape (m m' : map_id) (evs : list update_event) :
  write_shape m' evs ->
  writes_to m evs = if decide (m' = m) then length evs else 0%nat.
Proof.
  intros [|k b]; cbn; destruct (decide (m' = m)); reflexivity.
Qed.

Lemma In_shape (m : map_id) (evs : list update_event) (e : update_event) :
  write_shape m evs -> In e evs -> ev_map e = m /\ evs = [e].
Proof. intros [|k b] H; [destruct H|]. destruct H as [<- | []]. now split. Qed.

(** C7. If, during one run of the program, the insert into the rate-state
    table or into the challenge table is refused, the run ends in
    [XDP_DROP] (so neither redirect nor pass), and that run called
    [bpf_map_update_elem] on that table exactly once: the write is not
    tried again. *)
Theorem failed_state_write_drops :
  forall (ctx : xdp_md) (st : xdp_state) (e : update_event),
    let run := xdp_minecraft_protection ctx st in
    In e (new_updates st (snd run)) ->
    ev_stored e = false ->
    ev_map e = MapSrcRate \/ ev_map e = MapUdpChallenges ->
    fst run = Done XDP_DROP
    /\ writes_to (ev_map e) (new_updates st (snd run)) = 1%nat.
Proof.
  intros ctx st e run Hin Hstored Hmap.
  destruct (xdp_minecraft_protection_trace ctx st)
    as (evr & evc & evt & Hevs & Hr & Hc & Ht & Hdrop).
  fold run in Hevs, Hdrop. rewrite Hevs in Hin |- *.
  rewrite !writes_to_app.
  rewrite (writes_to_shape _ _ _ Hr), (writes_to_shape _ _ _ Hc),
    (writes_to_shape _ _ _ Ht).
  apply in_app_or in Hin as [Hin | Hin];
    [|apply in_app_or in Hin as [Hin | Hin]].
  - destruct (In_shape _ _ _ Hr Hin) as [Hm ->]. split.
    + apply Hdrop. left. exists e. split; [now left | exact Hstored].
    + rewrite Hm. reflexivity.
  - destruct (In_shape _ _ _ Hc Hin) as [Hm ->]. split.
    + apply Hdrop. right. exists e. split; [now left | exact Hstored].
    + rewrite Hm. reflexivity.
  - destruct (In_shape _ _ _ Ht Hin) as [Hm _].
    rewrite Hm in Hmap. destruct Hmap; discriminate.
Qed.

Lemma failed_state_write_drops_witness :
  fst (xdp_minecraft_protection udp_ctx full_challenges_state)
  = Done XDP_DROP
  /\ writes_to MapUdpChallenges
       (new_updates full_challenges_state
          (snd (xdp_minecraft_protection udp_ctx full_challenges_state)))
     = 1%nat.
Proof.
  apply (failed_state_write_drops udp_ctx full_challenges_state
           {| ev_map := MapUdpChallenges; ev_key := 0x0500000a;
              ev_stored := false |}).
  - vm_compute. right. left. reflexivity.
  - reflexivity.
  - right. reflexivity.
Defined.

(** ** The model's iteration bounds are never reached *)

Lemma returns_bind {A B} (m : access A) (k : A -> access B) :
  returns m -> (forall a, m = Done a -> returns (k a)) ->
  returns (access_bind m k).
Proof.
  unfold returns. intros Hm Hk. destruct m as [a| |]; cbn.
  - now apply Hk.
  - discriminate.
  - contradiction.
Qed.

Lemma returns_read (pkt : list byte) (off : Z) : returns (pkt_read pkt off).
Proof.
  unfold returns, pkt_read. destruct (off <? 0); [discriminate|].
  destruct (pkt !! Z.to_nat off); discriminate.
Qed.

Lemma pkt_read_in_bounds (pkt : list byte) (off b : Z) :
  pkt_read pkt off = Done b -> 0 <= off < Z.of_nat (length pkt).
Proof.
  unfold pkt_read. destruct (off <? 0) eqn:E; [discriminate|].
  apply Z.ltb_ge in E.
  destruct (pkt !! Z.to_nat off) eqn:El; [|discriminate].
  intros _. apply lookup_lt_Some in El. lia.
Qed.

Lemma length_loop_returns (fuel : nat) :
  forall (data_end : Z) (pkt : list byte) (len off : Z),
    0 <= off -> (0 < fuel)%nat -> 5 - off < Z.of_nat fuel ->
    returns (Java.length_loop fuel data_end pkt len off).
Proof.
  induction fuel as [|fuel IH]; intros data_end pkt len off Hoff Hpos Hfuel;
    [lia|].
  cbn [Java.length_loop].
  destruct (off <? 5) eqn:E5; [|discriminate].
  apply Z.ltb_lt in E5.
  apply returns_bind; [apply returns_read|]. intros b _.
  destruct (truthy (Z.land b 128)); [|discriminate].
  destruct (_ >? _); [discriminate|].
  rewrite (u32_small (off + 1)) by lia.
  apply IH; lia.
Qed.

Lemma version_loop_returns (fuel : nat) :
  forall (data_end : Z) (pkt : list byte) (pv off : Z),
    Z.of_nat (length pkt) < 2 ^ 32 ->
    (0 < fuel)%nat -> Z.of_nat (length pkt) - off < Z.of_nat fuel ->
    returns (Java.version_loop fuel data_end pkt pv off).
Proof.
  induction fuel as [|fuel IH]; intros data_end pkt pv off Hlen Hpos Hfuel;
    [lia|].
  cbn [Java.version_loop].
  destruct (off <? data_end); [|discriminate].
  apply returns_bind; [apply returns_read|]. intros b Hb.
  apply pkt_read_in_bounds in Hb.
  destruct (truthy (Z.land b 128)); [|discriminate].
  rewrite (u32_small (off + 1)) by lia.
  apply IH; lia.
Qed.

(** The validator always comes back with a verdict or with an access past
    the buffer end; the fuel of the model never runs out. *)
Lemma validate_minecraft_java_returns (d : Z) (pkt : list byte) :
  Z.of_nat (length pkt) < 2 ^ 32 ->
  returns (validate_minecraft_java d pkt).
Proof.
  intros Hlen. unfold validate_minecraft_java, validate_minecraft_java_fuel.
  destruct (d + 5 >? data_end_of d pkt) eqn:E5; [discriminate|].
  assert (H5 : 5 <= Z.of_nat (length pkt)).
  { unfold data_end_of in E5.
    destruct (Z.gtb_spec (d + 5) (d + Z.of_nat (length pkt))); [discriminate|].
    lia. }
  apply returns_bind; [apply returns_read|]. intros byte0 _.
  apply returns_bind.
  { destruct (truthy (Z.land byte0 128)); [|discriminate].
    apply returns_bind; [apply length_loop_returns; lia|].
    intros [[len off]|] _; [|discriminate].
    destruct (off <? 5); [|discriminate].
    apply returns_bind; [apply returns_read|]. discriminate. }
  intros [[len off]|] _; [|discriminate].
  destruct (_ || _); [discriminate|].
  destruct (off >=? _); [discriminate|].
  apply returns_bind; [apply returns_read|]. intros id _.
  destruct (negb _); [discriminate|].
  destruct (u32 (off + 1) >=? _); [discriminate|].
  apply returns_bind; [apply returns_read|]. intros ver_byte Hv.
  apply pkt_read_in_bounds in Hv.
  apply returns_bind.
  { destruct (truthy (Z.land ver_byte 128)); [|discriminate].
    apply returns_bind.
    - apply version_loop_returns; [exact Hlen | lia |].
      assert (0 <= u32 (u32 (off + 1) + 1))
        by (apply Z.mod_pos_bound; lia).
      lia.
    - intros [pv off'] _. destruct (off' <? _); [|discriminate].
      apply returns_bind; [apply returns_read|]. discriminate. }
  intros pv _. destruct (_ || _); discriminate.
Qed.

Lemma validate_minecraft_bedrock_returns (d : Z) (pkt : list byte) :
  returns (validate_minecraft_bedrock d pkt).
Proof.
  unfold validate_minecraft_bedrock.
  destruct (_ >? _); [discriminate|].
  apply returns_bind; [apply returns_read|]. intros t _.
  destruct (raknet_type_allowed t); [|discriminate].
  destruct (_ || _); [|discriminate].
  destruct (_ >? _); [discriminate|].
  apply returns_bind.
  - generalize 1. induction raknet_magic as [|m rest IH]; intros off;
      [discriminate|].
    cbn [magic_matches]. apply returns_bind; [apply returns_read|].
    intros b _. destruct (b =? m); [apply IH | discriminate].
  - intros []; discriminate.
Qed.

(** The datagram validator never reads outside the buffer. *)
Lemma validate_minecraft_bedrock_in_bounds (d : Z) (pkt : list byte) :
  exists v, validate_minecraft_bedrock d pkt = Done v.
Proof.
  unfold validate_minecraft_bedrock, data_end_of.
  destruct (d + 4 >? d + Z.of_nat (length pkt)) eqn:E4; [now exists 0|].
  assert (H4 : 4 <= Z.of_nat (length pkt)).
  { destruct (Z.gtb_spec (d + 4) (d + Z.of_nat (length pkt)));
      [discriminate | lia]. }
  destruct (lookup_lt_is_Some_2 pkt (Z.to_nat 0)) as [b Hb]; [lia|].
  rewrite (pkt_read_Some _ _ _ (Z.le_refl 0) Hb). cbn [access_bind].
  destruct (raknet_type_allowed (byte_val b)); [|now exists 0].
  destruct (_ || _); [|now exists 1].
  destruct (d + 17 >? d + Z.of_nat (length pkt)) eqn:E17; [now exists 0|].
  destruct (magic_matches_total pkt raknet_magic 1) as [ok Hok]; [lia | |].
  { cbn [raknet_magic length].
    destruct (Z.gtb_spec (d + 17) (d + Z.of_nat (length pkt)));
      [discriminate | lia]. }
  rewrite Hok. cbn [access_bind]. destruct ok; now exists 1.
Qed.

(** ** Rate limiter: the refill without overflow *)

(** While neither the product [time_diff * rate_limit] nor the sum of
    tokens and refill exceeds 32 bits, the stored bucket follows the
    unbounded formula: denied at 0 tokens, otherwise allowed with one token
    taken. *)
Lemma update_rate_limit_refill (st : xdp_state) (src_ip rl bl : Z)
    (s : rate_limit_state) :
  map_src_rate st !! src_ip = Some s ->
  0 <= tokens s -> 0 <= bl < 2 ^ 32 -> 0 <= rl ->
  let elapsed := u32 (get_current_time st - last_update s) in
  let n := spec_new_tokens (tokens s) elapsed rl bl in
  elapsed * rl < 2 ^ 32 ->
  tokens s + elapsed * rl / 1000 < 2 ^ 32 ->
  (n = 0 -> fst (update_rate_limit src_ip rl bl st) = 0)
  /\ (0 < n ->
      fst (update_rate_limit src_ip rl bl st) = 1
      /\ tokens <$> map_src_rate (snd (update_rate_limit src_ip rl bl st))
                      !! src_ip
         = Some (n - 1)).
Proof.
  intros Hs Htok Hbl Hrl elapsed n Hprod Hsum.
  assert (He : 0 <= elapsed) by (apply Z.mod_pos_bound; lia).
  assert (Hq : 0 <= elapsed * rl / 1000)
    by (apply Z.div_pos; [apply Z.mul_nonneg_nonneg|]; lia).
  unfold update_rate_limit. rewrite Hs. fold elapsed.
  rewrite (u32_small (elapsed * rl))
    by (split; [apply Z.mul_nonneg_nonneg|]; lia).
  rewrite (u32_small (tokens s + elapsed * rl / 1000)) by lia.
  subst n. unfold spec_new_tokens.
  destruct (Z.gtb_spec (tokens s + elapsed * rl / 1000) bl) as [Hgt|Hle].
  - rewrite Z.min_l by lia. split.
    + intros ->. reflexivity.
    + intros Hpos. destruct (Z.eqb_spec bl 0); [lia|].
      cbn [fst snd map_src_rate set_src_rate].
      rewrite lookup_insert_eq. cbn. rewrite u32_small by lia.
      split; reflexivity.
  - rewrite Z.min_r by lia. split.
    + intros ->. reflexivity.
    + intros Hpos.
      destruct (Z.eqb_spec (tokens s + elapsed * rl / 1000) 0); [lia|].
      cbn [fst snd map_src_rate set_src_rate].
      rewrite lookup_insert_eq. cbn. rewrite u32_small by lia.
      split; reflexivity.
Qed.

(** * Further properties of the code *)

(** ** Counters *)

(** X1. [update_stats] on a slot the array holds adds one modulo 2^64 (a
    counter at 2^64 - 1 goes back to 0), keeps the length of the array and
    leaves every other slot as it was. *)
Theorem update_stats_exact_and_isolated :
  forall (stat_type count : Z) (st : xdp_state) (i : nat),
    0 <= stat_type < STATS_MAX_ENTRIES ->
    map_stats st !! Z.to_nat stat_type = Some count ->
    let stats' := map_stats (snd (update_stats stat_type st)) in
    stats' !! Z.to_nat stat_type = Some ((count + 1) mod 2 ^ 64)
    /\ length stats' = length (map_stats st)
    /\ (i <> Z.to_nat stat_type -> stats' !! i = map_stats st !! i).
Proof.
  intros stat_type count st i Hr Hc stats'.
  split; [exact (update_stats_in_range stat_type count st Hr Hc)|].
  subst stats'. unfold update_stats, modify, stats_lookup. cbn [snd].
  destruct (0 <=? stat_type) eqn:E0; [|apply Z.leb_gt in E0; lia].
  destruct (stat_type <? STATS_MAX_ENTRIES) eqn:E1;
    [|apply Z.ltb_ge in E1; lia].
  cbn [andb]. rewrite Hc. cbn [map_stats set_stats].
  split; [apply length_insert|].
  intros Hi. now apply list_lookup_insert_ne.
Qed.

Lemma update_stats_exact_and_isolated_witness :
  map_stats (snd (update_stats STAT_ALLOWED_PACKETS saturated_stats_state))
    !! 0%nat = Some 0
  /\ map_stats (snd (update_stats STAT_ALLOWED_PACKETS saturated_stats_state))
       !! 6%nat = Some 0.
Proof.
  destruct (update_stats_exact_and_isolated STAT_ALLOWED_PACKETS (2 ^ 64 - 1)
              saturated_stats_state 6) as (H0 & _ & H6).
  - vm_compute. split; [discriminate | reflexivity].
  - reflexivity.
  - split; [exact H0|]. rewrite H6; [reflexivity | discriminate].
Defined.

(** ** Rate limiter *)

Lemma u32_range (z : Z) : 0 <= u32 z < 2 ^ 32.
Proof. unfold u32. apply Z.mod_pos_bound. lia. Qed.

(** X2. [update_rate_limit] touches the rate state of its own source only:
    the bucket of every other source and all other maps stay as they
    were. *)
Theorem update_rate_limit_only_its_source :
  forall (src_ip rl bl other : Z) (st : xdp_state),
    other <> src_ip ->
    let st' := snd (update_rate_limit src_ip rl bl st) in
    map_src_rate st' !! other = map_src_rate st !! other
    /\ map_udp_challenges st' = map_udp_challenges st
    /\ map_conntrack st' = map_conntrack st
    /\ map_blacklist st' = map_blacklist st
    /\ map_stats st' = map_stats st
    /\ map_protected_endpoints st' = map_protected_endpoints st.
Proof.
  intros src_ip rl bl other st Hne st'. subst st'.
  unfold update_rate_limit, bpf_map_update_src_rate, hash_update.
  destruct (map_src_rate st !! src_ip) as [s|].
  - destruct (_ >? _); destruct (_ =? 0); cbn;
      (split; [now apply lookup_insert_ne | repeat split]).
  - destruct (_ <? _); cbn;
      (split; [try reflexivity; now apply lookup_insert_ne | repeat split]).
Qed.

Lemma update_rate_limit_only_its_source_witness :
  tokens <$> map_src_rate (snd (update_rate_limit 1 10 5 two_sources_state))
               !! 2 = Some 7.
Proof.
  destruct (update_rate_limit_only_its_source 1 10 5 2 two_sources_state)
    as (H & _); [discriminate|].
  rewrite H. reflexivity.
Defined.

(** X3. Whenever [update_rate_limit] allows a packet, the bucket it leaves
    for the source holds between 0 and [burst_limit] tokens and is stamped
    with the current time. *)
Theorem update_rate_limit_bucket_bounded :
  forall (src_ip rl bl : Z) (st : xdp_state),
    0 <= bl < 2 ^ 32 ->
    fst (update_rate_limit src_ip rl bl st) = 1 ->
    exists s,
      map_src_rate (snd (update_rate_limit src_ip rl bl st)) !! src_ip
      = Some s
      /\ 0 <= tokens s <= bl
      /\ last_update s = get_current_time st.
Proof.
  intros src_ip rl bl st Hbl. unfold update_rate_limit,
    bpf_map_update_src_rate, hash_update.
  destruct (map_src_rate st !! src_ip) as [s|].
  - set (nt := u32 (tokens s + _)).
    assert (Hnt : 0 <= nt < 2 ^ 32) by apply u32_range.
    destruct (Z.gtb_spec nt bl).
    + destruct (Z.eqb_spec bl 0); cbn [fst snd]; [discriminate|].
      intros _. eexists. cbn [map_src_rate set_src_rate].
      rewrite lookup_insert_eq. split; [reflexivity|].
      cbn [tokens last_update]. rewrite u32_small by lia.
      split; [lia | reflexivity].
    + destruct (Z.eqb_spec nt 0); cbn [fst snd]; [discriminate|].
      intros _. eexists. cbn [map_src_rate set_src_rate].
      rewrite lookup_insert_eq. split; [reflexivity|].
      cbn [tokens last_update]. rewrite u32_small by lia.
      split; [lia | reflexivity].
  - destruct (_ <? _); cbn; [|discriminate].
    intros _. eexists. rewrite lookup_insert_eq. split; [reflexivity|].
    cbn. split; [lia | reflexivity].
Qed.

Lemma update_rate_limit_bucket_bounded_witness :
  exists s,
    map_src_rate (snd (update_rate_limit 1 10 5 two_sources_state)) !! 1
    = Some s
    /\ 0 <= tokens s <= 5
    /\ last_update s = 50.
Proof.
  apply (update_rate_limit_bucket_bounded 1 10 5 two_sources_state).
  - lia.
  - reflexivity.
Defined.

(** X4. A source that comes back after its bucket has regained at least one
    token ([elapsed_ms * rate_limit >= 1000]) is allowed, whatever its
    stored token count, as long as the 32-bit product and sum do not
    wrap. *)
Theorem update_rate_limit_slow_sender_allowed :
  forall (st : xdp_state) (src_ip rl bl : Z) (s : rate_limit_state),
    map_src_rate st !! src_ip = Some s ->
    0 <= tokens s -> 1 <= bl < 2 ^ 32 -> 0 <= rl ->
    1000 <= u32 (get_current_time st - last_update s) * rl < 2 ^ 32 ->
    tokens s + u32 (get_current_time st - last_update s) * rl / 1000
    < 2 ^ 32 ->
    fst (update_rate_limit src_ip rl bl st) = 1.
Proof.
  intros st src_ip rl bl s Hs Htok Hbl Hrl Hprod Hsum.
  destruct (update_rate_limit_refill st src_ip rl bl s Hs Htok) as [_ H];
    try lia.
  apply H. unfold spec_new_tokens.
  assert (1 <= u32 (get_current_time st - last_update s) * rl / 1000)
    by (apply Z.div_le_lower_bound; lia).
  lia.
Qed.

Lemma update_rate_limit_slow_sender_allowed_witness :
  fst (update_rate_limit 1 20 5 two_sources_state) = 1.
Proof.
  apply (update_rate_limit_slow_sender_allowed two_sources_state 1 20 5
           {| last_update := 0; tokens := 3; last_burst := 0 |}).
  - reflexivity.
  - cbn; lia.
  - lia.
  - lia.
  - vm_compute. split; [discriminate | reflexivity].
  - vm_compute. reflexivity.
Defined.

(** X5. With a burst limit of 0 a source that already has rate state is
    denied on every packet, however much time has passed and whatever its
    stored token count; its token count is left as it was. *)
Theorem update_rate_limit_zero_burst_denies :
  forall (st : xdp_state) (src_ip rl : Z) (s : rate_limit_state),
    map_src_rate st !! src_ip = Some s ->
    fst (update_rate_limit src_ip rl 0 st) = 0
    /\ tokens <$> map_src_rate (snd (update_rate_limit src_ip rl 0 st))
                    !! src_ip
       = Some (tokens s).
Proof.
  intros st src_ip rl s Hs. unfold update_rate_limit. rewrite Hs.
  set (nt := u32 (tokens s + _)).
  assert (Hnt : 0 <= nt < 2 ^ 32) by apply u32_range.
  destruct (Z.gtb_spec nt 0).
  - cbn. rewrite lookup_insert_eq. split; reflexivity.
  - destruct (Z.eqb_spec nt 0); [|lia].
    cbn. rewrite lookup_insert_eq. split; reflexivity.
Qed.

Lemma update_rate_limit_zero_burst_denies_witness :
  fst (update_rate_limit 2 1000 0 two_sources_state) = 0
  /\ tokens <$> map_src_rate
                  (snd (update_rate_limit 2 1000 0 two_sources_state)) !! 2
     = Some 7.
Proof.
  apply (update_rate_limit_zero_burst_denies two_sources_state 2 1000
           {| last_update := 0; tokens := 7; last_burst := 0 |}).
  reflexivity.
Defined.

(** ** Blacklist *)

(** X6. [is_blacklisted] answers 1 exactly when the source has an entry
    whose block-until time lies after the current time, and then changes
    nothing.  When it answers 0 the source has no entry afterwards (an
    expired one is deleted by the lookup), and no other source's entry is
    touched. *)
Theorem is_blacklisted_lazy_expiry :
  forall (src_ip other : Z) (st : xdp_state),
    let r := is_blacklisted src_ip st in
    (fst r = 1 \/ fst r = 0)
    /\ (fst r = 1 <->
        exists blocked_until,
          map_blacklist st !! src_ip = Some blocked_until
          /\ bpf_ktime_get_ns st / 1000000 < blocked_until)
    /\ (fst r = 1 -> snd r = st)
    /\ (fst r = 0 -> map_blacklist (snd r) !! src_ip = None)
    /\ (other <> src_ip ->
        map_blacklist (snd r) !! other = map_blacklist st !! other).
Proof.
  intros src_ip other st r. subst r. unfold is_blacklisted.
  destruct (map_blacklist st !! src_ip) as [until|] eqn:Hl.
  - destruct (Z.ltb_spec (bpf_ktime_get_ns st / 1000000) until) as [Hlt|Hge];
      cbn [fst snd].
    + split; [now left|]. split; [split; [eauto | reflexivity]|].
      split; [reflexivity|]. split; [discriminate | reflexivity].
    + split; [now right|]. split.
      { split; [discriminate|]. intros (u & Hu & Hlt).
        injection Hu as <-. lia. }
      split; [discriminate|]. cbn [map_blacklist set_blacklist].
      split; [intros _; apply lookup_delete_eq|].
      intros Hne. now apply lookup_delete_ne.
  - cbn [fst snd]. split; [now right|]. split.
    { split; [discriminate|]. intros (u & Hu & _). discriminate. }
    split; [discriminate|]. split; [intros _; exact Hl | reflexivity].
Qed.

Lemma is_blacklisted_lazy_expiry_witness :
  fst (is_blacklisted 8 blacklist_state) = 0
  /\ map_blacklist (snd (is_blacklisted 8 blacklist_state)) !! 8 = None
  /\ map_blacklist (snd (is_blacklisted 8 blacklist_state)) !! 7 = Some 2000
  /\ fst (is_blacklisted 7 blacklist_state) = 1.
Proof.
  destruct (is_blacklisted_lazy_expiry 8 7 blacklist_state)
    as (_ & _ & _ & Hgone & Hother).
  destruct (is_blacklisted_lazy_expiry 7 8 blacklist_state)
    as (_ & [_ Hblocked] & _).
  split; [reflexivity|].
  split; [apply Hgone; reflexivity|].
  split; [rewrite Hother; [reflexivity | discriminate]|].
  apply Hblocked. exists 2000. split; [reflexivity | vm_compute; reflexivity].
Defined.

(** ** Challenge gate *)

(** X7. [handle_udp_challenge] touches the challenge state of its own
    source only: every other source's challenge and the rate, flow,
    blacklist and endpoint maps stay as they were. *)
Theorem handle_udp_challenge_only_its_source :
  forall (src_ip d other : Z) (pkt : list byte) (st : xdp_state),
    other <> src_ip ->
    let st' := snd (handle_udp_challenge src_ip d pkt st) in
    map_udp_challenges st' !! other = map_udp_challenges st !! other
    /\ map_src_rate st' = map_src_rate st
    /\ map_conntrack st' = map_conntrack st
    /\ map_blacklist st' = map_blacklist st
    /\ map_protected_endpoints st' = map_protected_endpoints st.
Proof.
  intros src_ip d other pkt st Hne st'. subst st'.
  unfold handle_udp_challenge. cbn [handle_udp_challenge_fuel].
  unfold bpf_map_update_udp_challenges, hash_update.
  rewrite !update_stats_out_of_range by (vm_compute; discriminate).
  destruct (map_udp_challenges st !! src_ip) as [ch|].
  - destruct (challenge_age st ch >? 5000).
    + cbn [map_udp_challenges set_udp_challenges].
      rewrite lookup_delete_eq.
      destruct (_ <? _); cbn;
        (split; [rewrite ?lookup_insert_ne by congruence;
                 now apply lookup_delete_ne | repeat split]).
    + destruct (_ >? _); [repeat split|].
      destruct (_ >? _); [|repeat split].
      cbn. split; [now apply lookup_delete_ne | repeat split].
  - destruct (_ <? _); cbn;
      (split; [try reflexivity; now apply lookup_insert_ne | repeat split]).
Qed.

Lemma handle_udp_challenge_only_its_source_witness :
  map_udp_challenges
    (snd (handle_udp_challenge 9 sample_data udp_frame waiting_state))
    !! 0x0500000a
  = map_udp_challenges waiting_state !! 0x0500000a.
Proof.
  destruct (handle_udp_challenge_only_its_source 9 sample_data 0x0500000a
              udp_frame waiting_state) as (H & _); [discriminate|].
  exact H.
Defined.

Lemma handle_udp_challenge_allow_deletes (src_ip d : Z) (pkt : list byte)
    (st : xdp_state) :
  fst (handle_udp_challenge src_ip d pkt st) = Done 1 ->
  map_udp_challenges (snd (handle_udp_challenge src_ip d pkt st)) !! src_ip
  = None.
Proof.
  unfold handle_udp_challenge. cbn [handle_udp_challenge_fuel].
  unfold bpf_map_update_udp_challenges.
  rewrite !update_stats_out_of_range by (vm_compute; discriminate).
  destruct (map_udp_challenges st !! src_ip) as [ch|].
  - destruct (challenge_age st ch >? 5000).
    + cbn [map_udp_challenges set_udp_challenges].
      rewrite lookup_delete_eq.
      destruct (hash_update _ _ _ _); cbn; discriminate.
    + destruct (_ >? _); [cbn; discriminate|].
      destruct (_ >? _); [|cbn; discriminate].
      intros _. cbn. apply lookup_delete_eq.
  - destruct (hash_update _ _ _ _); cbn; discriminate.
Qed.

Lemma handle_udp_challenge_first_denied (src_ip d : Z) (pkt : list byte)
    (st : xdp_state) :
  map_udp_challenges st !! src_ip = None ->
  fst (handle_udp_challenge src_ip d pkt st) = Done 0.
Proof.
  intros Hnone. unfold handle_udp_challenge. cbn [handle_udp_challenge_fuel].
  unfold bpf_map_update_udp_challenges. rewrite Hnone.
  destruct (hash_update _ _ _ _); reflexivity.
Qed.

(** X8. The gate never allows two packets of a source in a row: after an
    allowed packet the source's state is gone, so its next packet, whenever
    it arrives and whatever it carries, is denied. *)
Theorem handle_udp_challenge_no_two_allows :
  forall (src_ip d d' t' : Z) (pkt pkt' : list byte) (st : xdp_state),
    fst (handle_udp_challenge src_ip d pkt st) = Done 1 ->
    fst (handle_udp_challenge src_ip d' pkt'
           (set_ktime t' (snd (handle_udp_challenge src_ip d pkt st))))
    = Done 0.
Proof.
  intros src_ip d d' t' pkt pkt' st Hallow.
  apply handle_udp_challenge_first_denied.
  cbn [map_udp_challenges set_ktime].
  now apply handle_udp_challenge_allow_deletes.
Qed.

Lemma handle_udp_challenge_no_two_allows_witness :
  fst (handle_udp_challenge 0x0500000a sample_data udp_frame
         (set_ktime 9000000000
            (snd (handle_udp_challenge 0x0500000a sample_data udp_frame
                    waiting_state))))
  = Done 0.
Proof.
  apply (handle_udp_challenge_no_two_allows 0x0500000a sample_data
           sample_data 9000000000 udp_frame udp_frame waiting_state).
  reflexivity.
Defined.

(** ** Flow tracker *)

(** X9. Recording a flow never overwrites: if the flow key is already in
    the table the state is left exactly as it was.  If the key is new it is
    stored with the flow's 5-tuple, marked established, when the table has
    room; when the table is full nothing is stored.  No other key is
    touched. *)
Theorem conntrack_record_contract :
  forall (src_ip dst_ip src_port dst_port protocol other : Z)
         (st : xdp_state),
    let key := hash_5tuple src_ip dst_ip src_port dst_port protocol in
    let st' :=
      snd (conntrack_record src_ip dst_ip src_port dst_port protocol st) in
    (is_Some (map_conntrack st !! key) -> st' = st)
    /\ (map_conntrack st !! key = None ->
        Z.of_nat (size (map_conntrack st)) < CONNTRACK_MAX_ENTRIES ->
        map_conntrack st' !! key
        = Some (new_conn src_ip dst_ip src_port dst_port protocol))
    /\ (map_conntrack st !! key = None ->
        CONNTRACK_MAX_ENTRIES <= Z.of_nat (size (map_conntrack st)) ->
        map_conntrack st' = map_conntrack st)
    /\ (other <> key ->
        map_conntrack st' !! other = map_conntrack st !! other).
Proof.
  intros src_ip dst_ip src_port dst_port protocol other st key st'.
  subst st'. unfold conntrack_record, bpf_map_update_conntrack, hash_update.
  fold key.
  destruct (map_conntrack st !! key) as [e|] eqn:Hk.
  - split; [reflexivity|]. split; [discriminate|].
    split; [discriminate | reflexivity].
  - split; [intros [? ?]; discriminate|].
    destruct (Z.ltb_spec (Z.of_nat (size (map_conntrack st)))
                CONNTRACK_MAX_ENTRIES); cbn.
    + split; [intros _ _; apply lookup_insert_eq|].
      split; [lia|]. intros Hne. now apply lookup_insert_ne.
    + split; [lia|]. split; reflexivity.
Qed.

Lemma conntrack_record_contract_witness :
  map_conntrack
    (snd (conntrack_record 0x0a010001 0x0a000009 0x0f00 25565 IPPROTO_TCP
            initial_state))
    !! hash_5tuple 0x0a010001 0x0a000009 0x0f00 25565 IPPROTO_TCP
  = Some (new_conn 0x0a010001 0x0a000009 0x0f00 25565 IPPROTO_TCP).
Proof.
  destruct (conntrack_record_contract 0x0a010001 0x0a000009 0x0f00 25565
              IPPROTO_TCP 0 initial_state) as (_ & Hnew & _).
  apply Hnew.
  - reflexivity.
  - vm_compute. reflexivity.
Defined.

(** ** Validators in closed form *)

Lemma continuation_bit (b : byte) :
  truthy (Z.land (byte_val b) 128) = (128 <=? byte_val b).
Proof. destruct b; reflexivity. Qed.

Lemma low_seven_bits (b : byte) :
  byte_val b < 128 -> Z.land (byte_val b) 127 = byte_val b.
Proof. destruct b; vm_compute; congruence. Qed.

(** X10. The datagram validator always returns a verdict without reading
    outside the buffer, and the verdict depends on the buffer length and the
    first byte only: accept exactly when the buffer has at least 4 bytes,
    its first byte is one of the nine allowed types and, for the two ping
    types, it has at least 17 bytes. *)
Theorem validate_minecraft_bedrock_closed_form :
  forall (d : Z) (pkt : list byte),
    validate_minecraft_bedrock d pkt = Done (bedrock_verdict pkt).
Proof.
  intros d pkt. unfold validate_minecraft_bedrock, bedrock_verdict,
    data_end_of.
  destruct (Z.gtb_spec (d + 4) (d + Z.of_nat (length pkt))) as [H4|H4].
  { destruct pkt as [|b rest]; [reflexivity|].
    destruct (Z.leb_spec 4 (Z.of_nat (length (b :: rest)))); [lia|].
    reflexivity. }
  destruct pkt as [|b rest]; [cbn in H4; lia|].
  destruct (Z.leb_spec 4 (Z.of_nat (length (b :: rest)))); [|lia].
  rewrite (pkt_read_Some (b :: rest) 0 b) by (reflexivity || lia).
  cbn [access_bind andb].
  destruct (raknet_type_allowed (byte_val b)); [|reflexivity].
  cbn [andb].
  destruct ((byte_val b =? 5) || (byte_val b =? 21)); cbn [negb orb];
    [|reflexivity].
  destruct (Z.gtb_spec (d + 17) (d + Z.of_nat (length (b :: rest))));
    destruct (Z.leb_spec 17 (Z.of_nat (length (b :: rest)))); try lia;
    [reflexivity|].
  destruct (magic_matches_total (b :: rest) raknet_magic 1) as [ok Hok];
    [lia | cbn [raknet_magic length] in *; lia |].
  rewrite Hok. cbn [access_bind]. now destruct ok.
Qed.

(** X11. A buffer of at least 5 bytes that starts with a one-byte length, a
    packet id and a one-byte protocol version (both VarInt bytes below
    0x80) is accepted by the handshake validator exactly when the length is
    in [5, 100], the packet id is 0 and the version is at least 4; no byte
    past the third is looked at. *)
Theorem validate_minecraft_java_one_byte_fields :
  forall (d : Z) (b0 b1 b2 : byte) (rest : list byte),
    0 <= d ->
    (2 <= length rest)%nat ->
    byte_val b0 < 128 ->
    byte_val b2 < 128 ->
    validate_minecraft_java d (b0 :: b1 :: b2 :: rest)
    = Done (java_short_verdict (byte_val b0) (byte_val b1) (byte_val b2)).
Proof.
  intros d b0 b1 b2 rest Hd Hrest H0 H2.
  pose proof (byte_val_range b0). pose proof (byte_val_range b2).
  unfold validate_minecraft_java, validate_minecraft_java_fuel,
    java_short_verdict, data_end_of.
  set (pkt := b0 :: b1 :: b2 :: rest).
  assert (Hlen : 5 <= Z.of_nat (length pkt)) by (cbn [length pkt]; lia).
  destruct (Z.gtb_spec (d + 5) (d + Z.of_nat (length pkt))); [lia|].
  rewrite (pkt_read_Some pkt 0 b0) by (reflexivity || lia).
  cbn [access_bind]. rewrite continuation_bit.
  destruct (Z.leb_spec 128 (byte_val b0)); [lia|]. cbn [access_bind].
  destruct (Z.ltb_spec (byte_val b0) 5);
    destruct (Z.leb_spec 5 (byte_val b0)); try lia; [reflexivity|].
  destruct (Z.gtb_spec (byte_val b0) 100);
    destruct (Z.leb_spec (byte_val b0) 100); try lia; [reflexivity|].
  cbn [orb andb].
  destruct (Z.geb_spec 1 (d + Z.of_nat (length pkt))); [lia|].
  rewrite (pkt_read_Some pkt 1 b1) by (reflexivity || lia).
  cbn [access_bind].
  destruct (Z.eqb_spec (byte_val b1) 0); cbn [negb andb]; [|reflexivity].
  change (u32 (1 + 1)) with 2.
  destruct (Z.geb_spec 2 (d + Z.of_nat (length pkt))); [lia|].
  rewrite (pkt_read_Some pkt 2 b2) by (reflexivity || lia).
  cbn [access_bind]. rewrite continuation_bit.
  destruct (Z.leb_spec 128 (byte_val b2)); [lia|]. cbn [access_bind].
  destruct (Z.gtb_spec (byte_val b2) 1000); [lia|].
  rewrite orb_false_r.
  destruct (Z.ltb_spec (byte_val b2) 4);
    destruct (Z.leb_spec 4 (byte_val b2)); try lia; reflexivity.
Qed.

Lemma validate_minecraft_java_one_byte_fields_witness :
  validate_minecraft_java sample_data handshake_47 = Done 1.
Proof.
  apply (validate_minecraft_java_one_byte_fields sample_data x32 x00 x2f
           ([x2c] ++ repeat x61 44 ++ [x63; xdd; x02])).
  - vm_compute. discriminate.
  - vm_compute. lia.
  - vm_compute. reflexivity.
  - vm_compute. reflexivity.
Defined.

Lemma low_seven_range (b : byte) : 0 <= Z.land (byte_val b) 127 < 128.
Proof. destruct b; vm_compute; split; congruence. Qed.

Lemma lor_disjoint_add (a c k : Z) :
  0 <= a < 2 ^ k -> 0 <= c -> 0 <= k ->
  Z.lor a (Z.shiftl c k) = a + c * 2 ^ k.
Proof.
  intros Ha Hc Hk.
  assert (Hland : Z.land a (Z.shiftl c k) = 0).
  { apply Z.bits_inj'. intros n Hn.
    rewrite Z.land_spec, Z.bits_0.
    destruct (Z.lt_ge_cases n k).
    - rewrite Z.shiftl_spec_low by assumption. apply andb_false_r.
    - destruct (Z.eq_dec a 0) as [->|Hne];
        [now rewrite Z.bits_0|].
      rewrite (Z.bits_above_log2 a n); [reflexivity | lia |].
      apply Z.lt_le_trans with k; [|assumption].
      apply Z.log2_lt_pow2; lia. }
  rewrite <- Z.lxor_lor by assumption.
  rewrite <- Z.add_nocarry_lxor by assumption.
  now rewrite Z.shiftl_mul_pow2.
Qed.

(** X12. No protocol version that needs a two-byte VarInt (128 to 16383) is
    accepted: with a one-byte length and packet id 0, a version whose first
    byte carries the continuation bit and whose second byte is a non-zero
    final group is always rejected, because the second group is shifted to
    bit 14 and the value read is at least 16384. *)
Theorem validate_minecraft_java_two_byte_version_rejected :
  forall (d : Z) (b0 b2 b3 : byte) (rest : list byte),
    0 <= d ->
    (1 <= length rest)%nat ->
    byte_val b0 < 128 ->
    128 <= byte_val b2 ->
    1 <= byte_val b3 < 128 ->
    validate_minecraft_java d (b0 :: x00 :: b2 :: b3 :: rest) = Done 0.
Proof.
  intros d b0 b2 b3 rest Hd Hrest H0 H2 H3.
  pose proof (byte_val_range b0). pose proof (byte_val_range b2).
  unfold validate_minecraft_java, validate_minecraft_java_fuel, data_end_of.
  set (pkt := b0 :: x00 :: b2 :: b3 :: rest).
  assert (Hlen : 5 <= Z.of_nat (length pkt)) by (cbn [length pkt]; lia).
  destruct (Z.gtb_spec (d + 5) (d + Z.of_nat (length pkt))); [lia|].
  rewrite (pkt_read_Some pkt 0 b0) by (reflexivity || lia).
  cbn [access_bind]. rewrite continuation_bit.
  destruct (Z.leb_spec 128 (byte_val b0)); [lia|]. cbn [access_bind].
  destruct ((byte_val b0 <? 5) || (byte_val b0 >? 100)); [reflexivity|].
  destruct (Z.geb_spec 1 (d + Z.of_nat (length pkt))); [lia|].
  rewrite (pkt_read_Some pkt 1 x00) by (reflexivity || lia).
  cbn [access_bind]. change (negb (byte_val x00 =? 0)) with false.
  cbn iota. change (u32 (1 + 1)) with 2.
  destruct (Z.geb_spec 2 (d + Z.of_nat (length pkt))); [lia|].
  rewrite (pkt_read_Some pkt 2 b2) by (reflexivity || lia).
  cbn [access_bind]. rewrite continuation_bit.
  destruct (Z.leb_spec 128 (byte_val b2)); [|lia].
  change (u32 (2 + 1)) with 3.
  destruct (length pkt) as [|n] eqn:Hn; [cbn in Hlen; lia|].
  cbn [Java.version_loop].
  destruct (Z.ltb_spec 3 (d + Z.of_nat (S n))); [|lia].
  rewrite (pkt_read_Some pkt 3 b3) by (reflexivity || lia).
  cbn [access_bind]. rewrite continuation_bit.
  destruct (Z.leb_spec 128 (byte_val b3)); [lia|].
  cbn [access_bind].
  destruct (Z.ltb_spec 3 (d + Z.of_nat (S n))); [|lia].
  rewrite (pkt_read_Some pkt 3 b3) by (reflexivity || lia).
  cbn [access_bind]. unfold Java.last_group.
  change (Java.shift_count (7 * u32 (3 - 1))) with 14.
  assert (Hsh : Z.shiftl (byte_val b3) 14 = byte_val b3 * 2 ^ 14)
    by (apply Z.shiftl_mul_pow2; lia).
  rewrite (u32_small (Z.shiftl (byte_val b3) 14)) by (rewrite Hsh; lia).
  pose proof (low_seven_range b2) as Hlow.
  rewrite (lor_disjoint_add _ (byte_val b3) 14) by lia.
  destruct (Z.gtb_spec (Z.land (byte_val b2) 127 + byte_val b3 * 2 ^ 14)
              1000); [|lia].
  now rewrite orb_true_r.
Qed.

Lemma validate_minecraft_java_two_byte_version_rejected_witness :
  validate_minecraft_java sample_data handshake_760 = Done 0.
Proof.
  apply (validate_minecraft_java_two_byte_version_rejected sample_data
           x32 xf8 x05 ([x2b] ++ repeat x61 43 ++ [x63; xdd; x02])).
  - vm_compute. discriminate.
  - vm_compute. lia.
  - vm_compute. reflexivity.
  - vm_compute. discriminate.
  - vm_compute. split; [discriminate | reflexivity].
Defined.

(** ** Whole runs of the program *)

Section Steps.

(** A relation kept by every state-changing helper is kept by the whole
    program after its first counter update. *)
Variable R : xdp_state -> xdp_state -> Prop.
Hypothesis R_refl : forall st, R st st.
Hypothesis R_trans : forall a b c, R a b -> R b c -> R a c.
Hypothesis R_stats :
  forall k st, In k reason_counters -> R st (snd (update_stats k st)).
Hypothesis R_blacklist : forall ip st, R st (snd (is_blacklisted ip st)).
Hypothesis R_rate :
  forall ip rl bl st, R st (snd (update_rate_limit ip rl bl st)).
Hypothesis R_gate :
  forall ip d pkt st, R st (snd (handle_udp_challenge ip d pkt st)).
Hypothesis R_flow :
  forall s d sp dp pr st, R st (snd (conntrack_record s d sp dp pr st)).

Lemma xdp_admit_steps (pkt : list byte) (key : endpoint_key) (v : Z)
    (st : xdp_state) :
  R st (snd (xdp_admit pkt key v st)).
Proof.
  unfold xdp_admit. destruct (negb (truthy v)).
  - rewrite bind_update_stats. unfold ret. cbn [snd].
    apply R_stats. cbv [reason_counters In]. intuition.
  - rewrite bind_run, bind_update_stats. unfold ret. cbn [snd].
    eapply R_trans; [apply R_flow|].
    apply R_stats. cbv [reason_counters In]. intuition.
Qed.

Lemma xdp_validate_steps (ctx : xdp_md) (key : endpoint_key)
    (endpoint : endpoint_info) (st : xdp_state) :
  R st (snd (xdp_validate ctx key endpoint st)).
Proof.
  unfold xdp_validate.
  destruct (_ && _).
  { destruct (validate_minecraft_java _ _);
      [apply xdp_admit_steps | apply R_refl | apply R_refl]. }
  destruct (_ && _); [|apply xdp_admit_steps].
  destruct (validate_minecraft_bedrock _ _) as [v| |];
    [|apply R_refl | apply R_refl].
  destruct (truthy v); [|apply xdp_admit_steps].
  rewrite bind_run.
  eapply R_trans; [apply (R_gate (ip_saddr (frame ctx)) (data ctx)
                            (frame ctx) st)|].
  destruct (fst (handle_udp_challenge _ _ _ st)) as [c| |];
    [|apply R_refl | apply R_refl].
  destruct (c =? 0); [|apply xdp_admit_steps].
  rewrite bind_update_stats. unfold ret. cbn [snd].
  apply R_stats. cbv [reason_counters In]. intuition.
Qed.

Lemma xdp_endpoint_steps (ctx : xdp_md) (key : endpoint_key)
    (st : xdp_state) :
  R st (snd (xdp_endpoint ctx key st)).
Proof.
  unfold xdp_endpoint.
  destruct (bpf_map_lookup_endpoint key st) as [endpoint|]; [|apply R_refl].
  destruct (truthy (maintenance_mode endpoint)).
  { rewrite bind_update_stats. unfold ret. cbn [snd].
    apply R_stats. cbv [reason_counters In]. intuition. }
  rewrite bind_run.
  eapply R_trans; [apply (R_rate (ip_saddr (frame ctx))
                            (rate_limit endpoint) (burst_limit endpoint) st)|].
  destruct (_ <? 0); [apply R_refl|].
  destruct (_ =? 0); [|apply xdp_validate_steps].
  rewrite bind_update_stats. unfold ret. cbn [snd].
  apply R_stats. cbv [reason_counters In]. intuition.
Qed.

Lemma xdp_minecraft_protection_steps (ctx : xdp_md) (st : xdp_state) :
  R (snd (update_stats STAT_TOTAL_PACKETS st))
    (snd (xdp_minecraft_protection ctx st)).
Proof.
  unfold xdp_minecraft_protection. rewrite bind_update_stats.
  destruct (_ >? _); [apply R_refl|].
  destruct (negb _); [apply R_refl|].
  destruct (_ >? _); [apply R_refl|].
  rewrite bind_run.
  eapply R_trans; [apply (R_blacklist (ip_saddr (frame ctx)))|].
  destruct (truthy _).
  { rewrite bind_update_stats. unfold ret. cbn [snd].
    apply R_stats. cbv [reason_counters In]. intuition. }
  destruct (_ =? IPPROTO_TCP).
  { destruct (_ >? _); [apply R_refl | apply xdp_endpoint_steps]. }
  destruct (_ =? IPPROTO_UDP); [|apply R_refl].
  destruct (_ >? _); [apply R_refl | apply xdp_endpoint_steps].
Qed.

End Steps.

Lemma update_stats_maps (k : Z) (st : xdp_state) :
  let st' := snd (update_stats k st) in
  map_protected_endpoints st' = map_protected_endpoints st
  /\ map_src_rate st' = map_src_rate st
  /\ map_udp_challenges st' = map_udp_challenges st
  /\ map_conntrack st' = map_conntrack st
  /\ map_blacklist st' = map_blacklist st.
Proof.
  unfold update_stats, modify. cbn [snd].
  destruct (stats_lookup k (map_stats st)); repeat split.
Qed.

Lemma is_blacklisted_maps (ip : Z) (st : xdp_state) :
  let st' := snd (is_blacklisted ip st) in
  map_protected_endpoints st' = map_protected_endpoints st
  /\ map_src_rate st' = map_src_rate st
  /\ map_udp_challenges st' = map_udp_challenges st
  /\ map_conntrack st' = map_conntrack st
  /\ map_stats st' = map_stats st.
Proof.
  unfold is_blacklisted. destruct (map_blacklist st !! ip); [|repeat split].
  destruct (_ <? _); repeat split.
Qed.

Lemma update_rate_limit_maps (ip rl bl : Z) (st : xdp_state) :
  let st' := snd (update_rate_limit ip rl bl st) in
  map_protected_endpoints st' = map_protected_endpoints st
  /\ map_udp_challenges st' = map_udp_challenges st
  /\ map_conntrack st' = map_conntrack st
  /\ map_blacklist st' = map_blacklist st
  /\ map_stats st' = map_stats st.
Proof.
  unfold update_rate_limit, bpf_map_update_src_rate.
  destruct (map_src_rate st !! ip).
  - destruct (_ >? _); destruct (_ =? 0); repeat split.
  - destruct (hash_update _ _ _ _); repeat split.
Qed.

Lemma handle_udp_challenge_maps (ip d : Z) (pkt : list byte)
    (st : xdp_state) :
  let st' := snd (handle_udp_challenge ip d pkt st) in
  map_protected_endpoints st' = map_protected_endpoints st
  /\ map_src_rate st' = map_src_rate st
  /\ map_conntrack st' = map_conntrack st
  /\ map_blacklist st' = map_blacklist st
  /\ map_stats st' = map_stats st.
Proof.
  unfold handle_udp_challenge. cbn [handle_udp_challenge_fuel].
  unfold bpf_map_update_udp_challenges.
  rewrite !update_stats_out_of_range by (vm_compute; discriminate).
  destruct (map_udp_challenges st !! ip) as [ch|].
  - destruct (challenge_age st ch >? 5000).
    + cbn [map_udp_challenges set_udp_challenges].
      rewrite lookup_delete_eq.
      destruct (hash_update _ _ _ _); repeat split.
    + destruct (_ >? _); [repeat split|].
      destruct (_ >? _); repeat split.
  - destruct (hash_update _ _ _ _); repeat split.
Qed.

Lemma conntrack_record_maps (s d sp dp pr : Z) (st : xdp_state) :
  let st' := snd (conntrack_record s d sp dp pr st) in
  map_protected_endpoints st' = map_protected_endpoints st
  /\ map_src_rate st' = map_src_rate st
  /\ map_udp_challenges st' = map_udp_challenges st
  /\ map_blacklist st' = map_blacklist st
  /\ map_stats st' = map_stats st.
Proof.
  unfold conntrack_record, bpf_map_update_conntrack.
  destruct (map_conntrack st !! _); [repeat split|].
  destruct (hash_update _ _ _ _); repeat split.
Qed.

(** X13. A run of the program never writes the endpoint registry, and never
    adds or changes a blacklist entry: every entry the blacklist holds
    afterwards was there before with the same block-until time. *)
Theorem xdp_registry_read_only_blacklist_shrinks :
  forall (ctx : xdp_md) (st : xdp_state) (ip blocked_until : Z),
    let st' := snd (xdp_minecraft_protection ctx st) in
    map_protected_endpoints st' = map_protected_endpoints st
    /\ (map_blacklist st' !! ip = Some blocked_until ->
        map_blacklist st !! ip = Some blocked_until).
Proof.
  intros ctx st ip blocked_until st'. subst st'.
  assert (H : map_protected_endpoints
                (snd (xdp_minecraft_protection ctx st))
              = map_protected_endpoints
                  (snd (update_stats STAT_TOTAL_PACKETS st))
              /\ map_blacklist (snd (xdp_minecraft_protection ctx st))
                 ⊆ map_blacklist (snd (update_stats STAT_TOTAL_PACKETS st))).
  { apply (xdp_minecraft_protection_steps
             (fun a b => map_protected_endpoints b = map_protected_endpoints a
                         /\ map_blacklist b ⊆ map_blacklist a)).
    - intros a. split; reflexivity.
    - intros a b c [H1 H2] [H3 H4]. split; [congruence|].
      now transitivity (map_blacklist b).
    - intros k a _. destruct (update_stats_maps k a) as (-> & _ & _ & _ & ->).
      split; reflexivity.
    - intros src a. destruct (is_blacklisted_maps src a) as (-> & _).
      split; [reflexivity|]. unfold is_blacklisted.
      destruct (map_blacklist a !! src); [|reflexivity].
      destruct (_ <? _); [reflexivity|]. cbn. apply delete_subseteq.
    - intros src rl bl a.
      destruct (update_rate_limit_maps src rl bl a)
        as (-> & _ & _ & -> & _). split; reflexivity.
    - intros src d pkt a.
      destruct (handle_udp_challenge_maps src d pkt a)
        as (-> & _ & _ & -> & _). split; reflexivity.
    - intros s d sp dp pr a.
      destruct (conntrack_record_maps s d sp dp pr a)
        as (-> & _ & _ & -> & _). split; reflexivity. }
  destruct (update_stats_maps STAT_TOTAL_PACKETS st)
    as (He & _ & _ & _ & Hb).
  destruct H as [H1 H2]. rewrite He in H1. rewrite Hb in H2.
  split; [exact H1|]. intros Hl.
  eapply lookup_weaken; eassumption.
Qed.

Lemma xdp_registry_read_only_blacklist_shrinks_witness :
  map_protected_endpoints
    (snd (xdp_minecraft_protection udp_ctx
            (set_blacklist {[ 0x0500000a := 5000 ]} one_endpoint_state)))
  = [(java_endpoint_key, java_endpoint_info)]
  /\ map_blacklist
       (set_blacklist {[ 0x0500000a := 5000 ]} one_endpoint_state)
       !! 0x0500000a = Some 5000.
Proof.
  destruct (xdp_registry_read_only_blacklist_shrinks udp_ctx
              (set_blacklist {[ 0x0500000a := 5000 ]} one_endpoint_state)
              0x0500000a 5000) as [H1 H2].
  split; [exact H1|]. apply H2. vm_compute. reflexivity.
Defined.

Lemma hash_update_capacity {V} (max_entries k : Z) (v : V)
    (m m' : gmap Z V) :
  hash_update max_entries k v m = Some m' ->
  Z.of_nat (size m) <= max_entries ->
  Z.of_nat (size m') <= max_entries.
Proof.
  unfold hash_update. intros H Hsize.
  destruct (m !! k) as [x|] eqn:Hk.
  - injection H as <-. rewrite map_size_insert_Some by eauto. exact Hsize.
  - destruct (Z.ltb_spec (Z.of_nat (size m)) max_entries); [|discriminate].
    injection H as <-. rewrite map_size_insert_None by assumption. lia.
Qed.

Lemma delete_capacity {V} (max_entries k : Z) (m : gmap Z V) :
  Z.of_nat (size m) <= max_entries ->
  Z.of_nat (size (delete k m)) <= max_entries.
Proof.
  intros H. rewrite map_size_delete. destruct (m !! k); cbn; lia.
Qed.

(** X14. The program keeps every hash map within the [max_entries] of its
    declaration: if the rate, challenge, flow and blacklist tables are
    within capacity before a run, they are within capacity after it. *)
Theorem xdp_keeps_tables_within_capacity :
  forall (ctx : xdp_md) (st : xdp_state),
    within_capacity st ->
    within_capacity (snd (xdp_minecraft_protection ctx st)).
Proof.
  intros ctx st Hst.
  apply (xdp_minecraft_protection_steps
           (fun a b => within_capacity a -> within_capacity b)).
  - auto.
  - auto.
  - intros k a _. unfold within_capacity.
    destruct (update_stats_maps k a) as (_ & -> & -> & -> & ->). auto.
  - intros src a. unfold within_capacity.
    destruct (is_blacklisted_maps src a) as (_ & -> & -> & -> & _).
    intros (H1 & H2 & H3 & H4). repeat split; try assumption.
    unfold is_blacklisted. destruct (map_blacklist a !! src); [|exact H4].
    destruct (_ <? _); [exact H4|]. cbn. now apply delete_capacity.
  - intros src rl bl a. unfold within_capacity.
    destruct (update_rate_limit_maps src rl bl a) as (_ & -> & -> & -> & _).
    intros (H1 & H2 & H3 & H4). repeat split; try assumption.
    unfold update_rate_limit, bpf_map_update_src_rate.
    destruct (map_src_rate a !! src) as [s|] eqn:Hs.
    + destruct (_ >? _); destruct (_ =? 0); cbn;
        rewrite map_size_insert_Some by eauto; exact H1.
    + destruct (hash_update _ _ _ _) as [m'|] eqn:Hu; cbn; [|exact H1].
      eapply hash_update_capacity; eassumption.
  - intros src d pkt a. unfold within_capacity.
    destruct (handle_udp_challenge_maps src d pkt a)
      as (_ & -> & -> & -> & _).
    intros (H1 & H2 & H3 & H4). repeat split; try assumption.
    unfold handle_udp_challenge. cbn [handle_udp_challenge_fuel].
    unfold bpf_map_update_udp_challenges.
    rewrite !update_stats_out_of_range by (vm_compute; discriminate).
    destruct (map_udp_challenges a !! src) as [ch|].
    + destruct (challenge_age a ch >? 5000).
      * cbn [map_udp_challenges set_udp_challenges].
        rewrite lookup_delete_eq.
        destruct (hash_update _ _ _ _) as [m'|] eqn:Hu; cbn.
        -- eapply hash_update_capacity; [eassumption|].
           now apply delete_capacity.
        -- now apply delete_capacity.
      * destruct (_ >? _); [exact H2|].
        destruct (_ >? _); [|exact H2]. cbn. now apply delete_capacity.
    + destruct (hash_update _ _ _ _) as [m'|] eqn:Hu; cbn; [|exact H2].
      eapply hash_update_capacity; eassumption.
  - intros s d sp dp pr a. unfold within_capacity.
    destruct (conntrack_record_maps s d sp dp pr a)
      as (_ & -> & -> & -> & _).
    intros (H1 & H2 & H3 & H4). repeat split; try assumption.
    unfold conntrack_record, bpf_map_update_conntrack.
    destruct (map_conntrack a !! _); [exact H3|].
    destruct (hash_update _ _ _ _) as [m'|] eqn:Hu; cbn; [|exact H3].
    eapply hash_update_capacity; eassumption.
  - unfold within_capacity in *.
    destruct (update_stats_maps STAT_TOTAL_PACKETS st)
      as (_ & -> & -> & -> & ->). exact Hst.
Qed.

Lemma xdp_keeps_tables_within_capacity_witness :
  within_capacity
    (snd (xdp_minecraft_protection udp_ctx full_challenges_state)).
Proof.
  apply (xdp_keeps_tables_within_capacity udp_ctx full_challenges_state).
  vm_compute. repeat split; discriminate.
Defined.

Lemma update_stats_frame (k : Z) (st : xdp_state) (i : nat) :
  length (map_stats (snd (update_stats k st))) = length (map_stats st)
  /\ (i <> Z.to_nat k ->
      map_stats (snd (update_stats k st)) !! i = map_stats st !! i).
Proof.
  unfold update_stats, modify. cbn [snd].
  destruct (stats_lookup k (map_stats st)); [|now split].
  cbn [map_stats set_stats]. split; [apply length_insert|].
  intros Hi. now apply list_lookup_insert_ne.
Qed.

(** X15. Every run of the program raises the total-packets counter by
    exactly one (modulo 2^64), whatever the frame and the verdict, keeps the
    length of the counters array, and never changes the slots of the three
    XDP action tallies ([STAT_XDP_DROP], [STAT_XDP_PASS],
    [STAT_XDP_REDIRECT]). *)
Theorem xdp_counts_every_packet_once :
  forall (ctx : xdp_md) (st : xdp_state) (count : Z),
    map_stats st !! Z.to_nat STAT_TOTAL_PACKETS = Some count ->
    let stats' := map_stats (snd (xdp_minecraft_protection ctx st)) in
    stats' !! Z.to_nat STAT_TOTAL_PACKETS = Some ((count + 1) mod 2 ^ 64)
    /\ length stats' = length (map_stats st)
    /\ stats' !! Z.to_nat STAT_XDP_DROP
       = map_stats st !! Z.to_nat STAT_XDP_DROP
    /\ stats' !! Z.to_nat STAT_XDP_PASS
       = map_stats st !! Z.to_nat STAT_XDP_PASS
    /\ stats' !! Z.to_nat STAT_XDP_REDIRECT
       = map_stats st !! Z.to_nat STAT_XDP_REDIRECT.
Proof.
  intros ctx st count Hcount stats'. subst stats'.
  assert (H : length (map_stats (snd (xdp_minecraft_protection ctx st)))
              = length (map_stats (snd (update_stats STAT_TOTAL_PACKETS st)))
              /\ forall i, (6 <= i)%nat ->
                   map_stats (snd (xdp_minecraft_protection ctx st)) !! i
                   = map_stats (snd (update_stats STAT_TOTAL_PACKETS st))
                       !! i).
  { apply (xdp_minecraft_protection_steps
             (fun a b => length (map_stats b) = length (map_stats a)
                         /\ forall i, (6 <= i)%nat ->
                              map_stats b !! i = map_stats a !! i)).
    - intros a. now split.
    - intros a b c [H1 H2] [H3 H4]. split; [congruence|].
      intros i Hi. rewrite H4, H2 by assumption. reflexivity.
    - intros k a Hk. split; [apply (update_stats_frame k a 0)|].
      intros i Hi. apply (update_stats_frame k a i).
      intros Heq. subst i. revert Hi. cbv [reason_counters In] in Hk.
      destruct Hk as [<-|[<-|[<-|[<-|[<-|[<-|[]]]]]]]; vm_compute; lia.
    - intros src a. destruct (is_blacklisted_maps src a)
        as (_ & _ & _ & _ & ->). now split.
    - intros src rl bl a. destruct (update_rate_limit_maps src rl bl a)
        as (_ & _ & _ & _ & ->). now split.
    - intros src d pkt a. destruct (handle_udp_challenge_maps src d pkt a)
        as (_ & _ & _ & _ & ->). now split.
    - intros s d sp dp pr a. destruct (conntrack_record_maps s d sp dp pr a)
        as (_ & _ & _ & _ & ->). now split. }
  destruct H as [Hlen Hslots].
  split.
  { rewrite Hslots by (vm_compute; lia).
    apply update_stats_in_range;
      [vm_compute; split; congruence | exact Hcount]. }
  split.
  { rewrite Hlen. apply (update_stats_frame STAT_TOTAL_PACKETS st 0). }
  repeat split; rewrite Hslots by (vm_compute; lia);
    apply (update_stats_frame STAT_TOTAL_PACKETS st); vm_compute; lia.
Qed.

Lemma xdp_counts_every_packet_once_witness :
  map_stats (snd (xdp_minecraft_protection udp_ctx one_endpoint_state))
    !! Z.to_nat STAT_TOTAL_PACKETS = Some 1.
Proof.
  destruct (xdp_counts_every_packet_once udp_ctx one_endpoint_state 0)
    as (H & _).
  - reflexivity.
  - exact H.
Defined.

Lemma xdp_admit_verdict (pkt : list byte) (key : endpoint_key) (v : Z)
    (st : xdp_state) :
  fst (xdp_admit pkt key v st) = Done XDP_DROP
  \/ fst (xdp_admit pkt key v st) = Done XDP_REDIRECT.
Proof.
  unfold xdp_admit. destruct (negb (truthy v)).
  - left. now rewrite bind_update_stats.
  - right. now rewrite bind_run, bind_update_stats.
Qed.

Lemma xdp_validate_not_pass (ctx : xdp_md) (key : endpoint_key)
    (endpoint : endpoint_info) (st : xdp_state) :
  fst (xdp_validate ctx key endpoint st) <> Done XDP_PASS.
Proof.
  assert (Hadmit : forall v st0,
            fst (xdp_admit (frame ctx) key v st0) <> Done XDP_PASS).
  { intros v st0 H.
    destruct (xdp_admit_verdict (frame ctx) key v st0) as [E | E];
      rewrite E in H; discriminate. }
  unfold xdp_validate.
  destruct (_ && _).
  { destruct (validate_minecraft_java _ _);
      [apply Hadmit | discriminate | discriminate]. }
  destruct (_ && _); [|apply Hadmit].
  destruct (validate_minecraft_bedrock _ _) as [v| |];
    [|discriminate | discriminate].
  destruct (truthy v); [|apply Hadmit].
  rewrite bind_run.
  destruct (fst (handle_udp_challenge _ _ _ st)) as [c| |];
    [|discriminate | discriminate].
  destruct (c =? 0); [|apply Hadmit].
  rewrite bind_update_stats. discriminate.
Qed.

Lemma xdp_endpoint_pass (ctx : xdp_md) (key : endpoint_key)
    (st : xdp_state) :
  fst (xdp_endpoint ctx key st) = Done XDP_PASS ->
  snd (xdp_endpoint ctx key st) = st.
Proof.
  unfold xdp_endpoint.
  destruct (bpf_map_lookup_endpoint key st) as [endpoint|]; [|reflexivity].
  destruct (truthy (maintenance_mode endpoint)).
  { rewrite bind_update_stats. discriminate. }
  rewrite bind_run.
  destruct (_ <? 0); [discriminate|].
  destruct (_ =? 0); [rewrite bind_update_stats; discriminate|].
  intros H. now apply xdp_validate_not_pass in H.
Qed.

(** X16. A run that ends in [XDP_PASS] has treated the frame as unmanaged
    traffic: the rate, challenge and flow tables are exactly as before and
    no counter but the total-packets counter has moved. *)
Theorem xdp_pass_leaves_tables_untouched :
  forall (ctx : xdp_md) (st : xdp_state),
    fst (xdp_minecraft_protection ctx st) = Done XDP_PASS ->
    let st' := snd (xdp_minecraft_protection ctx st) in
    map_src_rate st' = map_src_rate st
    /\ map_udp_challenges st' = map_udp_challenges st
    /\ map_conntrack st' = map_conntrack st
    /\ map_stats st' = map_stats (snd (update_stats STAT_TOTAL_PACKETS st)).
Proof.
  intros ctx st. cbv zeta.
  destruct (update_stats_maps STAT_TOTAL_PACKETS st)
    as (_ & Hr & Hc & Hf & _).
  set (st0 := snd (update_stats STAT_TOTAL_PACKETS st)) in *.
  destruct (is_blacklisted_maps (ip_saddr (frame ctx)) st0)
    as (_ & Hr1 & Hc1 & Hf1 & Hs1).
  unfold xdp_minecraft_protection. rewrite bind_update_stats. fold st0.
  destruct (_ >? _); [discriminate|].
  destruct (negb _);
    [intros _; unfold ret; cbn [snd]; repeat split; assumption|].
  destruct (_ >? _); [discriminate|].
  rewrite bind_run.
  set (st1 := snd (is_blacklisted (ip_saddr (frame ctx)) st0)) in *.
  destruct (truthy _); [rewrite bind_update_stats; discriminate|].
  assert (Hend : forall key,
            fst (xdp_endpoint ctx key st1) = Done XDP_PASS ->
            map_src_rate (snd (xdp_endpoint ctx key st1)) = map_src_rate st
            /\ map_udp_challenges (snd (xdp_endpoint ctx key st1))
               = map_udp_challenges st
            /\ map_conntrack (snd (xdp_endpoint ctx key st1))
               = map_conntrack st
            /\ map_stats (snd (xdp_endpoint ctx key st1)) = map_stats st0).
  { intros key H. rewrite (xdp_endpoint_pass ctx key st1 H).
    now rewrite Hr1, Hc1, Hf1, Hs1, Hr, Hc, Hf. }
  assert (Hst1 : map_src_rate st1 = map_src_rate st
                 /\ map_udp_challenges st1 = map_udp_challenges st
                 /\ map_conntrack st1 = map_conntrack st
                 /\ map_stats st1 = map_stats st0)
    by now rewrite Hr1, Hc1, Hf1, Hs1, Hr, Hc, Hf.
  destruct (_ =? IPPROTO_TCP).
  { destruct (_ >? _); [discriminate | apply Hend]. }
  destruct (_ =? IPPROTO_UDP); [|intros _; unfold ret; exact Hst1].
  destruct (_ >? _); [discriminate | apply Hend].
Qed.

Lemma xdp_pass_leaves_tables_untouched_witness :
  map_src_rate
    (snd (xdp_minecraft_protection (ctx_of arp_frame) one_endpoint_state))
  = map_src_rate one_endpoint_state.
Proof.
  destruct (xdp_pass_leaves_tables_untouched (ctx_of arp_frame)
              one_endpoint_state) as (H & _).
  - vm_compute. reflexivity.
  - exact H.
Defined.

Lemma lpm_lookup_In (trie : list (endpoint_key * endpoint_info))
    (key : endpoint_key) (e : endpoint_key * endpoint_info) :
  lpm_lookup trie key = Some e -> In e trie.
Proof.
  induction trie as [|x rest IH]; [discriminate|].
  cbn [lpm_lookup]. destruct (lpm_prefix_match (fst x) key).
  - unfold lpm_longer. destruct (lpm_lookup rest key) as [b|].
    + destruct (_ <? _); intros [= <-]; [now left | right; now apply IH].
    + intros [= <-]. now left.
  - intros H. right. now apply IH.
Qed.

(** X17. When every registry entry is in maintenance mode (in particular
    when the registry is empty), no frame is redirected and no run changes
    the rate, challenge or flow table: maintenance is decided before rate
    limiting. *)
Theorem xdp_maintenance_blocks_everything :
  forall (ctx : xdp_md) (st : xdp_state),
    (forall key info,
        In (key, info) (map_protected_endpoints st) ->
        maintenance_mode info <> 0) ->
    let st' := snd (xdp_minecraft_protection ctx st) in
    fst (xdp_minecraft_protection ctx st) <> Done XDP_REDIRECT
    /\ map_src_rate st' = map_src_rate st
    /\ map_udp_challenges st' = map_udp_challenges st
    /\ map_conntrack st' = map_conntrack st.
Proof.
  intros ctx st Hmaint. cbv zeta.
  destruct (update_stats_maps STAT_TOTAL_PACKETS st)
    as (He & Hr & Hc & Hf & _).
  set (st0 := snd (update_stats STAT_TOTAL_PACKETS st)) in *.
  destruct (is_blacklisted_maps (ip_saddr (frame ctx)) st0)
    as (He1 & Hr1 & Hc1 & Hf1 & _).
  unfold xdp_minecraft_protection. rewrite bind_update_stats. fold st0.
  assert (Hst0 : map_src_rate st0 = map_src_rate st
                 /\ map_udp_challenges st0 = map_udp_challenges st
                 /\ map_conntrack st0 = map_conntrack st) by now split.
  destruct (_ >? _); [split; [discriminate | exact Hst0]|].
  destruct (negb _); [split; [discriminate | exact Hst0]|].
  destruct (_ >? _); [split; [discriminate | exact Hst0]|].
  rewrite bind_run.
  set (st1 := snd (is_blacklisted (ip_saddr (frame ctx)) st0)) in *.
  assert (Hst1 : map_src_rate st1 = map_src_rate st
                 /\ map_udp_challenges st1 = map_udp_challenges st
                 /\ map_conntrack st1 = map_conntrack st)
    by now rewrite Hr1, Hc1, Hf1.
  destruct (truthy _).
  { rewrite bind_update_stats. unfold ret. cbn [fst snd].
    destruct (update_stats_maps STAT_BLOCKED_BLACKLIST st1)
      as (_ & -> & -> & -> & _). split; [discriminate | exact Hst1]. }
  assert (Hend : forall key,
            fst (xdp_endpoint ctx key st1) <> Done XDP_REDIRECT
            /\ map_src_rate (snd (xdp_endpoint ctx key st1)) = map_src_rate st
            /\ map_udp_challenges (snd (xdp_endpoint ctx key st1))
               = map_udp_challenges st
            /\ map_conntrack (snd (xdp_endpoint ctx key st1))
               = map_conntrack st).
  { intros key. unfold xdp_endpoint, bpf_map_lookup_endpoint.
    destruct (_ >? _); cbn [fst snd]; [split; [discriminate | exact Hst1]|].
    destruct (lpm_lookup (map_protected_endpoints st1) key) as [[k info]|]
      eqn:Hl; cbn [fmap option_fmap option_map snd fst];
      [|split; [discriminate | exact Hst1]].
    apply lpm_lookup_In in Hl. rewrite He1, He in Hl.
    apply Hmaint in Hl. unfold truthy.
    destruct (Z.eqb_spec (maintenance_mode info) 0); [contradiction|].
    cbn [negb]. rewrite bind_update_stats. unfold ret. cbn [fst snd].
    destruct (update_stats_maps STAT_BLOCKED_MAINTENANCE st1)
      as (_ & -> & -> & -> & _). split; [discriminate | exact Hst1]. }
  destruct (_ =? IPPROTO_TCP).
  { destruct (_ >? _); [split; [discriminate | exact Hst1] | apply Hend]. }
  destruct (_ =? IPPROTO_UDP); [|split; [discriminate | exact Hst1]].
  destruct (_ >? _); [split; [discriminate | exact Hst1] | apply Hend].
Qed.

Lemma xdp_maintenance_blocks_everything_witness :
  fst (xdp_minecraft_protection (ctx_of version_47_frame) maintenance_state)
  <> Done XDP_REDIRECT
  /\ map_src_rate
       (snd (xdp_minecraft_protection (ctx_of version_47_frame)
               maintenance_state))
     = map_src_rate maintenance_state.
Proof.
  destruct (xdp_maintenance_blocks_everything (ctx_of version_47_frame)
              maintenance_state) as (H1 & H2 & _).
  - intros key info [[= <- <-] | []]. discriminate.
  - split; assumption.
Defined.

(** X18. A frame with IPv4 headers whose source has a blacklist entry that
    has not expired is dropped at once: the only changes are the
    total-packets and blacklist counters; no lookup, rate limiting or
    validation takes place and the entry stays. *)
Theorem xdp_blacklisted_source_dropped :
  forall (ctx : xdp_md) (st : xdp_state) (blocked_until : Z),
    ipv4_frame ctx = true ->
    map_blacklist st !! ip_saddr (frame ctx) = Some blocked_until ->
    bpf_ktime_get_ns st / 1000000 < blocked_until ->
    xdp_minecraft_protection ctx st
    = (Done XDP_DROP,
       snd (update_stats STAT_BLOCKED_BLACKLIST
              (snd (update_stats STAT_TOTAL_PACKETS st)))).
Proof.
  intros ctx st blocked_until Hframe Hentry Hnow.
  unfold ipv4_frame in Hframe.
  apply andb_true_iff in Hframe as [Hframe H34].
  apply andb_true_iff in Hframe as [H14 Hproto].
  apply negb_true_iff in H14, H34.
  unfold xdp_minecraft_protection. rewrite bind_update_stats.
  rewrite H14, Hproto, H34. cbn [negb]. rewrite bind_run.
  destruct (update_stats_maps STAT_TOTAL_PACKETS st) as (_ & _ & _ & _ & Hb).
  set (st0 := snd (update_stats STAT_TOTAL_PACKETS st)) in *.
  assert (Hbl : is_blacklisted (ip_saddr (frame ctx)) st0 = (1, st0)).
  { unfold is_blacklisted. rewrite Hb, Hentry.
    assert (Ht : bpf_ktime_get_ns st0 = bpf_ktime_get_ns st).
    { unfold st0, update_stats, modify. cbn [snd].
      now destruct (stats_lookup _ _). }
    rewrite Ht.
    destruct (Z.ltb_spec (bpf_ktime_get_ns st / 1000000) blocked_until);
      [reflexivity | lia]. }
  rewrite Hbl. cbn [fst snd truthy Z.eqb negb].
  now rewrite bind_update_stats.
Qed.

Lemma xdp_blacklisted_source_dropped_witness :
  fst (xdp_minecraft_protection udp_ctx blocked_source_state)
  = Done XDP_DROP.
Proof.
  rewrite (xdp_blacklisted_source_dropped udp_ctx blocked_source_state 5000).
  - reflexivity.
  - vm_compute. reflexivity.
  - vm_compute. reflexivity.
  - vm_compute. reflexivity.
Defined.

(** X19. A frame that does not decode as IPv4 never reaches a table: the
    run changes nothing but the total-packets counter.  It is passed when
    the Ethernet header fits and the EtherType is not IPv4, and dropped when
    the Ethernet or the IPv4 header is cut short. *)
Theorem xdp_undecodable_frame :
  forall (ctx : xdp_md) (st : xdp_state),
    ipv4_frame ctx = false ->
    xdp_minecraft_protection ctx st
    = (Done (if negb (data ctx + sizeof_ethhdr
                      >? data_end_of (data ctx) (frame ctx))
                && negb (eth_h_proto (frame ctx) =? bpf_htons ETH_P_IP)
             then XDP_PASS else XDP_DROP),
       snd (update_stats STAT_TOTAL_PACKETS st)).
Proof.
  intros ctx st Hframe. unfold ipv4_frame in Hframe.
  unfold xdp_minecraft_protection. rewrite bind_update_stats.
  destruct (_ >? _); [reflexivity|]. cbn [negb andb] in *.
  destruct (_ =? _); cbn [negb andb] in *; [|reflexivity].
  destruct (_ >? _); [reflexivity | discriminate].
Qed.

Lemma xdp_undecodable_frame_witness :
  fst (xdp_minecraft_protection (ctx_of arp_frame) one_endpoint_state)
  = Done XDP_PASS
  /\ fst (xdp_minecraft_protection (ctx_of cut_frame) one_endpoint_state)
     = Done XDP_DROP.
Proof.
  rewrite (xdp_undecodable_frame (ctx_of arp_frame) one_endpoint_state)
    by (vm_compute; reflexivity).
  rewrite (xdp_undecodable_frame (ctx_of cut_frame) one_endpoint_state)
    by (vm_compute; reflexivity).
  split; vm_compute; reflexivity.
Defined.

Lemma xdp_admit_redirect (pkt : list byte) (key : endpoint_key) (v : Z)
    (st : xdp_state) :
  fst (xdp_admit pkt key v st) = Done XDP_REDIRECT ->
  snd (xdp_admit pkt key v st)
  = snd (update_stats STAT_ALLOWED_PACKETS
           (snd (conntrack_record (ip_saddr pkt) (ip_daddr pkt)
                   (bpf_ntohs (l4_source pkt)) (port key) (ip_protocol pkt)
                   st))).
Proof.
  unfold xdp_admit. destruct (negb (truthy v)).
  - rewrite bind_update_stats. discriminate.
  - intros _. now rewrite bind_run, bind_update_stats.
Qed.

Lemma xdp_validate_redirect (ctx : xdp_md) (key : endpoint_key)
    (endpoint : endpoint_info) (st : xdp_state) :
  fst (xdp_validate ctx key endpoint st) = Done XDP_REDIRECT ->
  exists st1,
    (st1 = st
     \/ st1 = snd (handle_udp_challenge (ip_saddr (frame ctx)) (data ctx)
                     (frame ctx) st))
    /\ snd (xdp_validate ctx key endpoint st)
       = snd (update_stats STAT_ALLOWED_PACKETS
                (snd (conntrack_record (ip_saddr (frame ctx))
                        (ip_daddr (frame ctx))
                        (bpf_ntohs (l4_source (frame ctx))) (port key)
                        (ip_protocol (frame ctx)) st1))).
Proof.
  unfold xdp_validate.
  destruct (_ && _).
  { destruct (validate_minecraft_java _ _); [|discriminate | discriminate].
    intros H. exists st. split; [now left | now apply xdp_admit_redirect]. }
  destruct (_ && _).
  2:{ intros H. exists st. split; [now left | now apply xdp_admit_redirect]. }
  destruct (validate_minecraft_bedrock _ _) as [v| |];
    [|discriminate | discriminate].
  destruct (truthy v).
  2:{ intros H. exists st. split; [now left | now apply xdp_admit_redirect]. }
  rewrite bind_run.
  destruct (fst (handle_udp_challenge _ _ _ st)) as [c| |];
    [|discriminate | discriminate].
  destruct (c =? 0); [rewrite bind_update_stats; discriminate|].
  intros H. eexists. split; [right; reflexivity|].
  now apply xdp_admit_redirect.
Qed.

Lemma is_blacklisted_clear (src_ip : Z) (st : xdp_state) :
  truthy (fst (is_blacklisted src_ip st)) = false ->
  map_blacklist (snd (is_blacklisted src_ip st)) !! src_ip = None.
Proof.
  unfold is_blacklisted.
  destruct (map_blacklist st !! src_ip) eqn:Hl; [|intros _; exact Hl].
  destruct (_ <? _); [discriminate|].
  intros _. cbn. apply lookup_delete_eq.
Qed.

Lemma update_rate_limit_entry (src_ip rl bl : Z) (st : xdp_state) :
  (fst (update_rate_limit src_ip rl bl st) <? 0) = false ->
  is_Some (map_src_rate (snd (update_rate_limit src_ip rl bl st)) !! src_ip).
Proof.
  unfold update_rate_limit, bpf_map_update_src_rate, hash_update.
  destruct (map_src_rate st !! src_ip).
  - destruct (_ >? _); destruct (_ =? 0); intros _; cbn;
      rewrite lookup_insert_eq; eauto.
  - destruct (Z.of_nat (size (map_src_rate st)) <? SRC_RATE_MAX_ENTRIES);
      cbn; [|discriminate].
    intros _. rewrite lookup_insert_eq. eauto.
Qed.

Lemma conntrack_record_present (s d sp dp pr : Z) (st : xdp_state) :
  is_Some (map_conntrack (snd (conntrack_record s d sp dp pr st))
             !! hash_5tuple s d sp dp pr)
  \/ CONNTRACK_MAX_ENTRIES <= Z.of_nat (size (map_conntrack st)).
Proof.
  unfold conntrack_record, bpf_map_update_conntrack, hash_update.
  destruct (map_conntrack st !! _) eqn:Hk; [left; cbn; rewrite Hk; eauto|].
  destruct (Z.ltb_spec (Z.of_nat (size (map_conntrack st)))
              CONNTRACK_MAX_ENTRIES); [left | now right].
  cbn. rewrite lookup_insert_eq. eauto.
Qed.

(** X20. A run that ends in [XDP_REDIRECT] has admitted the frame: after it
    the source has no blacklist entry and has rate state, the flow key of
    the frame's 5-tuple is in the flow table unless that table was already
    full (the failed insert is ignored), and the allowed-packets counter has
    gone up by one. *)
Theorem xdp_redirect_means_admitted :
  forall (ctx : xdp_md) (st : xdp_state) (count : Z),
    fst (xdp_minecraft_protection ctx st) = Done XDP_REDIRECT ->
    map_stats st !! Z.to_nat STAT_ALLOWED_PACKETS = Some count ->
    let pkt := frame ctx in
    let key := hash_5tuple (ip_saddr pkt) (ip_daddr pkt)
                 (bpf_ntohs (l4_source pkt)) (bpf_ntohs (l4_dest pkt))
                 (ip_protocol pkt) in
    let st' := snd (xdp_minecraft_protection ctx st) in
    map_blacklist st' !! ip_saddr pkt = None
    /\ is_Some (map_src_rate st' !! ip_saddr pkt)
    /\ (is_Some (map_conntrack st' !! key)
        \/ CONNTRACK_MAX_ENTRIES <= Z.of_nat (size (map_conntrack st)))
    /\ map_stats st' !! Z.to_nat STAT_ALLOWED_PACKETS
       = Some ((count + 1) mod 2 ^ 64).
Proof.
  intros ctx st count Hred Hcount pkt key st'. subst st'.
  set (src := ip_saddr pkt) in *.
  (* what holds of a state from which the frame is admitted *)
  assert (Hadmitted : forall st2 p,
    p = bpf_ntohs (l4_dest pkt) ->
    map_blacklist st2 !! src = None ->
    is_Some (map_src_rate st2 !! src) ->
    map_conntrack st2 = map_conntrack st ->
    map_stats st2 !! Z.to_nat STAT_ALLOWED_PACKETS = Some count ->
    let st3 := snd (update_stats STAT_ALLOWED_PACKETS
                      (snd (conntrack_record src (ip_daddr pkt)
                              (bpf_ntohs (l4_source pkt)) p
                              (ip_protocol pkt) st2))) in
    map_blacklist st3 !! src = None
    /\ is_Some (map_src_rate st3 !! src)
    /\ (is_Some (map_conntrack st3 !! key)
        \/ CONNTRACK_MAX_ENTRIES <= Z.of_nat (size (map_conntrack st)))
    /\ map_stats st3 !! Z.to_nat STAT_ALLOWED_PACKETS
       = Some ((count + 1) mod 2 ^ 64)).
  { intros st2 p -> Hb Hr Hc Hs st3. subst st3.
    set (stc := snd (conntrack_record src (ip_daddr pkt)
                       (bpf_ntohs (l4_source pkt)) (bpf_ntohs (l4_dest pkt))
                       (ip_protocol pkt) st2)).
    destruct (conntrack_record_maps src (ip_daddr pkt)
                (bpf_ntohs (l4_source pkt)) (bpf_ntohs (l4_dest pkt))
                (ip_protocol pkt) st2) as (_ & Hr' & _ & Hb' & Hs').
    fold stc in Hr', Hb', Hs'.
    destruct (update_stats_maps STAT_ALLOWED_PACKETS stc)
      as (_ & -> & _ & -> & ->).
    rewrite Hb', Hr'. split; [exact Hb|]. split; [exact Hr|].
    split.
    - rewrite <- Hc. apply conntrack_record_present.
    - apply update_stats_in_range; [vm_compute; split; congruence|].
      now rewrite Hs'. }
  (* the same facts carried over the challenge gate *)
  assert (Hgate : forall st1 st2 p,
    p = bpf_ntohs (l4_dest pkt) ->
    st2 = st1
    \/ st2 = snd (handle_udp_challenge src (data ctx) pkt st1) ->
    map_blacklist st1 !! src = None ->
    is_Some (map_src_rate st1 !! src) ->
    map_conntrack st1 = map_conntrack st ->
    map_stats st1 !! Z.to_nat STAT_ALLOWED_PACKETS = Some count ->
    let st3 := snd (update_stats STAT_ALLOWED_PACKETS
                      (snd (conntrack_record src (ip_daddr pkt)
                              (bpf_ntohs (l4_source pkt)) p
                              (ip_protocol pkt) st2))) in
    map_blacklist st3 !! src = None
    /\ is_Some (map_src_rate st3 !! src)
    /\ (is_Some (map_conntrack st3 !! key)
        \/ CONNTRACK_MAX_ENTRIES <= Z.of_nat (size (map_conntrack st)))
    /\ map_stats st3 !! Z.to_nat STAT_ALLOWED_PACKETS
       = Some ((count + 1) mod 2 ^ 64)).
  { intros st1 st2 p Hp [-> | ->] Hb Hr Hc Hs;
      [now apply Hadmitted|].
    destruct (handle_udp_challenge_maps src (data ctx) pkt st1)
      as (_ & Hr' & Hc' & Hb' & Hs').
    apply Hadmitted; [exact Hp | | | |]; congruence. }
  (* the run up to the endpoint lookup *)
  destruct (update_stats_maps STAT_TOTAL_PACKETS st)
    as (_ & Hr0 & _ & Hc0 & Hb0).
  pose proof (proj2 (update_stats_frame STAT_TOTAL_PACKETS st
                       (Z.to_nat STAT_ALLOWED_PACKETS))
                ltac:(vm_compute; lia)) as Hs0.
  set (st0 := snd (update_stats STAT_TOTAL_PACKETS st)) in *.
  destruct (is_blacklisted_maps src st0) as (_ & Hr1 & _ & Hc1 & Hs1).
  revert Hred. unfold xdp_minecraft_protection.
  rewrite bind_update_stats. fold st0. fold pkt.
  destruct (_ >? _); [discriminate|].
  destruct (negb _); [discriminate|].
  destruct (_ >? _); [discriminate|].
  rewrite bind_run. fold src.
  pose proof (is_blacklisted_clear src st0) as Hclear.
  set (st1 := snd (is_blacklisted src st0)) in *.
  destruct (truthy (fst (is_blacklisted src st0)));
    [rewrite bind_update_stats; discriminate|].
  specialize (Hclear eq_refl).
  assert (Hend : forall k,
    port k = bpf_ntohs (l4_dest pkt) ->
    fst (xdp_endpoint ctx k st1) = Done XDP_REDIRECT ->
    map_blacklist (snd (xdp_endpoint ctx k st1)) !! src = None
    /\ is_Some (map_src_rate (snd (xdp_endpoint ctx k st1)) !! src)
    /\ (is_Some (map_conntrack (snd (xdp_endpoint ctx k st1)) !! key)
        \/ CONNTRACK_MAX_ENTRIES <= Z.of_nat (size (map_conntrack st)))
    /\ map_stats (snd (xdp_endpoint ctx k st1))
         !! Z.to_nat STAT_ALLOWED_PACKETS
       = Some ((count + 1) mod 2 ^ 64)).
  { intros k Hport. unfold xdp_endpoint.
    destruct (bpf_map_lookup_endpoint k st1) as [endpoint|]; [|discriminate].
    destruct (truthy (maintenance_mode endpoint));
      [rewrite bind_update_stats; discriminate|].
    rewrite bind_run. fold pkt. fold src.
    pose proof (update_rate_limit_entry src (rate_limit endpoint)
                  (burst_limit endpoint) st1) as Hentry.
    destruct (update_rate_limit_maps src (rate_limit endpoint)
                (burst_limit endpoint) st1) as (_ & _ & Hc2 & Hb2 & Hs2).
    set (st2 := snd (update_rate_limit src (rate_limit endpoint)
                       (burst_limit endpoint) st1)) in *.
    destruct (_ <? 0); [discriminate|]. specialize (Hentry eq_refl).
    destruct (_ =? 0); [rewrite bind_update_stats; discriminate|].
    intros Hv. apply xdp_validate_redirect in Hv as (st3 & Hst3 & ->).
    fold pkt. fold src. fold pkt in Hst3. fold src in Hst3.
    apply (Hgate st2 st3 (port k) Hport Hst3); [| exact Hentry | |];
      congruence. }
  destruct (_ =? IPPROTO_TCP).
  { destruct (_ >? _); [discriminate | now apply Hend]. }
  destruct (_ =? IPPROTO_UDP); [|discriminate].
  destruct (_ >? _); [discriminate | now apply Hend].
Qed.

Lemma xdp_redirect_means_admitted_witness :
  map_stats
    (snd (xdp_minecraft_protection (ctx_of version_47_frame)
            one_endpoint_state))
    !! Z.to_nat STAT_ALLOWED_PACKETS = Some 1.
Proof.
  destruct (xdp_redirect_means_admitted (ctx_of version_47_frame)
              one_endpoint_state 0) as (_ & _ & _ & H).
  - vm_compute. reflexivity.
  - reflexivity.
  - exact H.
Defined.

(** ** Memory safety inside the program *)

Lemma length_loop_in_frame (fuel : nat) :
  forall (data_end : Z) (pkt : list byte) (len off : Z),
    1 <= off <= 5 -> 5 - off < Z.of_nat fuel ->
    5 <= Z.of_nat (length pkt) ->
    exists r,
      Java.length_loop fuel data_end pkt len off = Done r
      /\ forall l o, r = Some (l, o) -> 1 <= o <= 5.
Proof.
  induction fuel as [|fuel IH]; intros data_end pkt len off Hoff Hfuel Hlen;
    [lia|].
  cbn [Java.length_loop].
  destruct (Z.ltb_spec off 5).
  2:{ eexists. split; [reflexivity|]. intros l o [= _ <-]. lia. }
  destruct (lookup_lt_is_Some_2 pkt (Z.to_nat off)) as [b Hb]; [lia|].
  rewrite (pkt_read_Some pkt off b) by (lia || assumption).
  cbn [access_bind].
  destruct (truthy (Z.land (byte_val b) 128)).
  2:{ eexists. split; [reflexivity|]. intros l o [= _ <-]. lia. }
  destruct (_ >? _).
  { eexists. split; [reflexivity|]. discriminate. }
  rewrite (u32_small (off + 1)) by lia.
  apply IH; lia.
Qed.

Lemma version_loop_in_frame (fuel : nat) :
  forall (data_end : Z) (pkt : list byte) (pv off : Z) (b12 : byte),
    pkt !! 12%nat = Some b12 -> byte_val b12 < 128 ->
    0 <= off <= 12 -> 12 - off < Z.of_nat fuel ->
    exists pv' off',
      Java.version_loop fuel data_end pkt pv off = Done (pv', off')
      /\ 0 <= off' <= 12.
Proof.
  induction fuel as [|fuel IH];
    intros data_end pkt pv off b12 H12 Hb12 Hoff Hfuel; [lia|].
  cbn [Java.version_loop].
  destruct (off <? data_end); [|do 2 eexists; split; [reflexivity | lia]].
  pose proof (lookup_lt_Some _ _ _ H12) as Hlen.
  destruct (lookup_lt_is_Some_2 pkt (Z.to_nat off)) as [b Hb]; [lia|].
  rewrite (pkt_read_Some pkt off b) by (lia || assumption).
  cbn [access_bind]. rewrite continuation_bit.
  destruct (Z.leb_spec 128 (byte_val b));
    [|do 2 eexists; split; [reflexivity | lia]].
  assert (off <> 12).
  { intros ->. change (Z.to_nat 12) with 12%nat in Hb.
    rewrite H12 in Hb. injection Hb as <-. lia. }
  rewrite (u32_small (off + 1)) by lia.
  apply (IH _ _ _ _ b12); (assumption || lia).
Qed.

(** On a buffer whose byte 12 has no continuation bit the handshake
    validator stays inside the buffer. *)
Lemma validate_minecraft_java_in_frame (d : Z) (pkt : list byte)
    (b12 : byte) :
  pkt !! 12%nat = Some b12 -> byte_val b12 < 128 ->
  exists v, validate_minecraft_java d pkt = Done v.
Proof.
  intros H12 Hb12. pose proof (lookup_lt_Some _ _ _ H12) as Hlen.
  assert (Hread : forall off, 0 <= off <= 12 ->
            exists b, pkt_read pkt off = Done (byte_val b)).
  { intros off Hoff.
    destruct (lookup_lt_is_Some_2 pkt (Z.to_nat off)) as [b Hb]; [lia|].
    exists b. apply pkt_read_Some; (lia || assumption). }
  unfold validate_minecraft_java, validate_minecraft_java_fuel.
  destruct (_ >? _); [now exists 0|].
  destruct (Hread 0) as [b0 ->]; [lia|]. cbn [access_bind].
  assert (Hfirst : exists lo,
    (if truthy (Z.land (byte_val b0) 128)
     then
       (do r <- Java.length_loop (S (length pkt)) (data_end_of d pkt) pkt
                  (Z.land (byte_val b0) 127) 1;
        match r with
        | None => Done None
        | Some (length0, offset) =>
          if offset <? 5
          then
            do b <- pkt_read pkt offset;
            Done (Some (Z.lor length0
                          (Java.last_group b (u32 (offset - 0))),
                        u32 (offset + 1)))
          else Done (Some (length0, offset))
        end)%access
     else Done (Some (byte_val b0, 1))) = Done lo
    /\ forall l o, lo = Some (l, o) -> 1 <= o <= 5).
  { destruct (truthy (Z.land (byte_val b0) 128)).
    2:{ eexists. split; [reflexivity|]. intros l o [= _ <-]. lia. }
    destruct (length_loop_in_frame (S (length pkt)) (data_end_of d pkt) pkt
                (Z.land (byte_val b0) 127) 1) as (r & -> & Hr);
      [lia | lia | lia |].
    cbn [access_bind]. destruct r as [[l o]|].
    2:{ eexists. split; [reflexivity|]. discriminate. }
    specialize (Hr l o eq_refl).
    destruct (Z.ltb_spec o 5).
    - destruct (Hread o) as [b ->]; [lia|]. cbn [access_bind].
      eexists. split; [reflexivity|]. intros l' o' [= _ <-].
      rewrite u32_small by lia. lia.
    - eexists. split; [reflexivity|]. intros l' o' [= _ <-]. lia. }
  destruct Hfirst as (lo & -> & Hlo). cbn [access_bind].
  destruct lo as [[len off]|]; [|now exists 0].
  specialize (Hlo len off eq_refl).
  destruct (_ || _); [now exists 0|].
  destruct (off >=? _); [now exists 0|].
  destruct (Hread off) as [id ->]; [lia|]. cbn [access_bind].
  destruct (negb _); [now exists 0|].
  rewrite (u32_small (off + 1)) by lia.
  destruct (off + 1 >=? _); [now exists 0|].
  destruct (Hread (off + 1)) as [ver ->]; [lia|]. cbn [access_bind].
  rewrite (u32_small (off + 1 + 1)) by lia.
  destruct (truthy (Z.land (byte_val ver) 128)).
  2:{ cbn [access_bind]. destruct (_ || _); eauto. }
  destruct (version_loop_in_frame (S (length pkt)) (data_end_of d pkt) pkt
              (Z.land (byte_val ver) 127) (off + 1 + 1) b12)
    as (pv & off' & -> & Hoff'); [assumption | assumption | lia | lia |].
  cbn [access_bind].
  destruct (off' <? _).
  - destruct (Hread off') as [b ->]; [lia|]. cbn [access_bind].
    destruct (_ || _); eauto.
  - cbn [access_bind]. destruct (_ || _); eauto.
Qed.

Lemma frame_u8_range (pkt : list byte) (off : Z) : 0 <= frame_u8 pkt off < 256.
Proof.
  unfold frame_u8. destruct (pkt !! Z.to_nat off); [apply byte_val_range|lia].
Qed.

(** In a frame with the IPv4 EtherType byte 12 is 0x08. *)
Lemma ipv4_ethertype_byte (d : Z) (pkt : list byte) :
  (d + sizeof_ethhdr >? data_end_of d pkt) = false ->
  (eth_h_proto pkt =? bpf_htons ETH_P_IP) = true ->
  exists b12, pkt !! 12%nat = Some b12 /\ byte_val b12 < 128.
Proof.
  unfold data_end_of, sizeof_ethhdr. intros Hlen Hproto.
  destruct (Z.gtb_spec (d + 14) (d + Z.of_nat (length pkt)));
    [discriminate|].
  destruct (lookup_lt_is_Some_2 pkt 12) as [b12 Hb]; [lia|].
  exists b12. split; [exact Hb|].
  apply Z.eqb_eq in Hproto. change (bpf_htons ETH_P_IP) with 8 in Hproto.
  unfold eth_h_proto, frame_u16 in Hproto.
  pose proof (frame_u8_range pkt 12) as H12.
  pose proof (frame_u8_range pkt (12 + 1)) as H13.
  rewrite (lor_disjoint_add (frame_u8 pkt 12) (frame_u8 pkt (12 + 1)) 8)
    in Hproto by lia.
  unfold frame_u8 in Hproto at 1, H12.
  change (Z.to_nat 12) with 12%nat in *. rewrite Hb in *. lia.
Qed.

Lemma xdp_admit_returns (pkt : list byte) (key : endpoint_key) (v : Z)
    (st : xdp_state) :
  exists a, fst (xdp_admit pkt key v st) = Done a.
Proof.
  destruct (xdp_admit_verdict pkt key v st) as [-> | ->]; eauto.
Qed.

Lemma xdp_endpoint_returns (ctx : xdp_md) (key : endpoint_key)
    (st : xdp_state) (b12 : byte) :
  frame ctx !! 12%nat = Some b12 -> byte_val b12 < 128 ->
  exists a, fst (xdp_endpoint ctx key st) = Done a.
Proof.
  intros H12 Hb12. unfold xdp_endpoint.
  destruct (bpf_map_lookup_endpoint key st) as [endpoint|]; [|cbn; eauto].
  destruct (truthy (maintenance_mode endpoint));
    [rewrite bind_update_stats; cbn; eauto|].
  rewrite bind_run.
  destruct (_ <? 0); [cbn; eauto|].
  destruct (_ =? 0); [rewrite bind_update_stats; cbn; eauto|].
  unfold xdp_validate.
  destruct (_ && _).
  { destruct (validate_minecraft_java_in_frame (data ctx) (frame ctx) b12
                H12 Hb12) as [v ->].
    apply xdp_admit_returns. }
  destruct (_ && _); [|apply xdp_admit_returns].
  destruct (validate_minecraft_bedrock_in_bounds (data ctx) (frame ctx))
    as [v ->].
  cbv iota.
  destruct (truthy v); [|apply xdp_admit_returns].
  match goal with
  | |- context [bind (handle_udp_challenge ?s ?d ?p) _ ?x] =>
    destruct (handle_udp_challenge_trace s d p x)
      as (evs & c & _ & _ & Hc & _);
    unfold bind at 1;
    destruct (handle_udp_challenge s d p x) as [r st2];
    cbn [fst] in Hc; subst r
  end.
  destruct (c =? 0); [rewrite bind_update_stats; cbn; eauto|].
  apply xdp_admit_returns.
Qed.

(** X21. Every run of the program ends with a verdict: as the program calls
    them, neither validator reads a byte outside the frame.  The handshake
    validator is only reached for frames that hold the Ethernet header with
    the IPv4 EtherType, whose byte 12 (0x08) stops the version loop at the
    latest. *)
Theorem xdp_always_returns_verdict :
  forall (ctx : xdp_md) (st : xdp_state),
    exists a, fst (xdp_minecraft_protection ctx st) = Done a.
Proof.
  intros ctx st. unfold xdp_minecraft_protection.
  rewrite bind_update_stats.
  destruct (_ >? _) eqn:H14; [cbn; eauto|].
  destruct (eth_h_proto (frame ctx) =? bpf_htons ETH_P_IP) eqn:Hproto;
    cbn [negb]; [|cbn; eauto].
  destruct (ipv4_ethertype_byte (data ctx) (frame ctx) H14 Hproto)
    as (b12 & H12 & Hb12).
  clear H14 Hproto.
  destruct (_ >? _); [cbn; eauto|].
  rewrite bind_run.
  destruct (truthy _); [rewrite bind_update_stats; cbn; eauto|].
  destruct (_ =? IPPROTO_TCP).
  { destruct (_ >? _); [cbn; eauto|].
    now apply (xdp_endpoint_returns ctx _ _ b12). }
  destruct (_ =? IPPROTO_UDP); [|cbn; eauto].
  destruct (_ >? _); [cbn; eauto|].
  now apply (xdp_endpoint_returns ctx _ _ b12).
Qed.

(** ** Control plane *)

Lemma ktime_set_ktime (t : Z) (st : xdp_state) :
  bpf_ktime_get_ns (set_ktime t st) = u64 t.
Proof. reflexivity. Qed.

(** X22. After [add_to_blacklist] has succeeded for an address, the filter
    treats that address as blocked exactly while its own clock, the
    milliseconds since boot, is below the stored block-until value, which
    the loader computes from the wall clock as
    [time(NULL) * 1000 + duration_ms]; a later call for the same address
    overwrites the value.  The call fails, changing nothing, only for a new
    address in a full table. *)
Theorem add_to_blacklist_then_lookup :
  forall (now_s ip duration_ms t : Z) (st : xdp_state),
    let r := add_to_blacklist now_s ip duration_ms st in
    let block_until := (now_s mod 2 ^ 64 * 1000 + duration_ms) mod 2 ^ 64 in
    (fst r = 0 \/ fst r = -1)
    /\ (fst r = -1 <->
        map_blacklist st !! ip = None
        /\ BLACKLIST_MAX_ENTRIES <= Z.of_nat (size (map_blacklist st)))
    /\ (fst r = -1 -> snd r = st)
    /\ (fst r = 0 ->
        map_blacklist (snd r) !! ip = Some block_until
        /\ fst (is_blacklisted ip (set_ktime t (snd r)))
           = if t mod 2 ^ 64 / 1000000 <? block_until then 1 else 0).
Proof.
  intros now_s ip duration_ms t st r block_until. subst r.
  unfold add_to_blacklist, hash_update.
  fold (u64 now_s). fold (u64 (u64 now_s * 1000 + duration_ms)) in block_until.
  destruct (map_blacklist st !! ip) as [old|] eqn:Hl.
  - cbn [fst snd]. split; [now left|].
    split; [split; [discriminate | intros [? _]; discriminate]|].
    split; [discriminate|]. intros _.
    cbn [map_blacklist set_blacklist]. rewrite lookup_insert_eq.
    split; [reflexivity|]. unfold is_blacklisted.
    cbn [map_blacklist set_blacklist set_ktime].
    rewrite lookup_insert_eq. rewrite ktime_set_ktime.
    now destruct (_ <? _).
  - destruct (Z.ltb_spec (Z.of_nat (size (map_blacklist st)))
                BLACKLIST_MAX_ENTRIES); cbn [fst snd].
    + split; [now left|].
      split; [split; [discriminate | intros [_ ?]; lia]|].
      split; [discriminate|]. intros _.
      cbn [map_blacklist set_blacklist]. rewrite lookup_insert_eq.
      split; [reflexivity|]. unfold is_blacklisted.
      cbn [map_blacklist set_blacklist set_ktime].
      rewrite lookup_insert_eq. rewrite ktime_set_ktime.
      now destruct (_ <? _).
    + split; [now right|].
      split; [split; [intros _; now split | reflexivity]|].
      split; [reflexivity | discriminate].
Qed.

Lemma add_to_blacklist_then_lookup_witness :
  map_blacklist after_blacklisting !! 0x0500000a = Some 1700000060000
  /\ fst (is_blacklisted 0x0500000a
            (set_ktime (3600 * 1000000000) after_blacklisting)) = 1.
Proof.
  destruct (add_to_blacklist_then_lookup 1700000000 0x0500000a 60000
              (3600 * 1000000000) initial_state) as (_ & _ & _ & H).
  destruct H as [H1 H2]; [reflexivity|].
  split; [exact H1 | exact H2].
Defined.

(** X23. [remove_from_blacklist] succeeds exactly when the address has an
    entry; afterwards the address has none, the filter no longer treats it
    as blocked, and no other address is affected.  On failure nothing
    changes. *)
Theorem remove_from_blacklist_then_lookup :
  forall (ip other : Z) (st : xdp_state),
    let r := remove_from_blacklist ip st in
    (fst r = 0 <-> is_Some (map_blacklist st !! ip))
    /\ (fst r <> 0 -> fst r = -1 /\ snd r = st)
    /\ map_blacklist (snd r) !! ip = None
    /\ is_blacklisted ip (snd r) = (0, snd r)
    /\ (other <> ip ->
        map_blacklist (snd r) !! other = map_blacklist st !! other).
Proof.
  intros ip other st r. subst r.
  unfold remove_from_blacklist, hash_delete.
  destruct (map_blacklist st !! ip) as [old|] eqn:Hl; cbn [fst snd].
  - split; [split; eauto|]. split; [congruence|].
    cbn [map_blacklist set_blacklist]. rewrite lookup_delete_eq.
    split; [reflexivity|]. split.
    + unfold is_blacklisted. cbn [map_blacklist set_blacklist].
      now rewrite lookup_delete_eq.
    + intros Hne. now apply lookup_delete_ne.
  - split; [split; [discriminate | intros [? ?]; discriminate]|].
    split; [now split|]. split; [exact Hl|]. split; [|reflexivity].
    unfold is_blacklisted. now rewrite Hl.
Qed.

Lemma remove_from_blacklist_then_lookup_witness :
  fst (remove_from_blacklist 7 blacklist_state) = 0
  /\ map_blacklist (snd (remove_from_blacklist 7 blacklist_state)) !! 8
     = Some 500.
Proof.
  destruct (remove_from_blacklist_then_lookup 7 8 blacklist_state)
    as ([_ H0] & _ & _ & _ & H8).
  split.
  - apply H0. vm_compute. eauto.
  - rewrite H8; [reflexivity | discriminate].
Defined.

(** X24. [get_stats] never fails: it returns [count] values, the value of
    slot [i] for an index the counters array has, and 0 for every index at
    or beyond its ten entries.  With the 12 slots [print_stats] asks for,
    the challenges-sent and challenges-passed figures are 0 in every
    state. *)
Theorem get_stats_reads_slots :
  forall (count i : nat) (st : xdp_state),
    (i < count)%nat -> Z.of_nat count <= 2 ^ 32 ->
    length (get_stats count st) = count
    /\ (forall v, (i < 10)%nat -> map_stats st !! i = Some v ->
          get_stats count st !! i = Some v)
    /\ ((10 <= i)%nat -> get_stats count st !! i = Some 0).
Proof.
  intros count i st Hi Hcount. unfold get_stats.
  split; [now rewrite length_map, length_seq|].
  assert (Hnth : seq 0 count !! i = Some i)
    by (apply lookup_seq; lia).
  split.
  - intros v H10 Hv. rewrite list_lookup_fmap, Hnth. cbn.
    rewrite u32_small by lia. unfold stats_lookup.
    destruct (Z.leb_spec 0 (Z.of_nat i)); [|lia].
    destruct (Z.ltb_spec (Z.of_nat i) STATS_MAX_ENTRIES);
      [|unfold STATS_MAX_ENTRIES in *; lia].
    cbn [andb]. now rewrite Nat2Z.id, Hv.
  - intros H10. rewrite list_lookup_fmap, Hnth. cbn.
    rewrite u32_small by lia.
    rewrite stats_lookup_out_of_range; [reflexivity|].
    unfold STATS_MAX_ENTRIES. lia.
Qed.

Lemma get_stats_reads_slots_witness :
  get_stats 12
    (snd (handle_udp_challenge 1 sample_data ping_good_magic initial_state))
    !! 10%nat = Some 0.
Proof.
  destruct (get_stats_reads_slots 12 10
              (snd (handle_udp_challenge 1 sample_data ping_good_magic
                      initial_state))) as (_ & _ & H).
  - lia.
  - vm_compute. discriminate.
  - apply H. lia.
Defined.

Lemma lpm_lookup_best (trie : list (endpoint_key * endpoint_info))
    (key : endpoint_key) (e : endpoint_key * endpoint_info) :
  lpm_lookup trie key = Some e ->
  In e trie
  /\ lpm_prefix_match (fst e) key = true
  /\ forall e', In e' trie -> lpm_prefix_match (fst e') key = true ->
       prefix_len (fst e') <= prefix_len (fst e).
Proof.
  revert e. induction trie as [|x rest IH]; intros e; [discriminate|].
  cbn [lpm_lookup].
  destruct (lpm_prefix_match (fst x) key) eqn:Hx.
  - unfold lpm_longer. destruct (lpm_lookup rest key) as [b|] eqn:Hb.
    + destruct (IH b eq_refl) as (Hin & Hm & Hmax).
      destruct (Z.ltb_spec (prefix_len (fst b)) (prefix_len (fst x)));
        intros [= <-].
      * split; [now left|]. split; [exact Hx|].
        intros e' [<- | He'] Hm'; [lia|].
        specialize (Hmax e' He' Hm'). lia.
      * split; [now right|]. split; [exact Hm|].
        intros e' [<- | He'] Hm'; [lia|]. now apply Hmax.
    + intros [= <-]. split; [now left|]. split; [exact Hx|].
      intros e' [<- | He'] Hm'; [lia|].
      exfalso. clear IH. induction rest as [|y rest IHr]; [destruct He'|].
      cbn [lpm_lookup] in Hb.
      destruct (lpm_prefix_match (fst y) key) eqn:Hy.
      * unfold lpm_longer in Hb. destruct (lpm_lookup rest key);
          [destruct (_ <? _)|]; discriminate.
      * destruct He' as [<- | He']; [congruence | now apply IHr].
  - intros H. destruct (IH e H) as (Hin & Hm & Hmax).
    split; [now right|]. split; [exact Hm|].
    intros e' [<- | He'] Hm'; [congruence | now apply Hmax].
Qed.

Lemma lpm_lookup_found (trie : list (endpoint_key * endpoint_info))
    (key : endpoint_key) (e : endpoint_key * endpoint_info) :
  In e trie -> lpm_prefix_match (fst e) key = true ->
  exists b, lpm_lookup trie key = Some b.
Proof.
  induction trie as [|x rest IH]; intros Hin Hm; [destruct Hin|].
  cbn [lpm_lookup]. destruct (lpm_prefix_match (fst x) key) eqn:Hx.
  - unfold lpm_longer. destruct (lpm_lookup rest key);
      [destruct (_ <? _)|]; eauto.
  - destruct Hin as [<- | Hin]; [congruence | now apply IH].
Qed.

Lemma lpm_prefix_match_refl (key : endpoint_key) :
  lpm_prefix_match key key = true.
Proof.
  unfold lpm_prefix_match. rewrite Z.leb_refl. cbn [andb].
  apply forallb_forall. intros i _. apply Bool.eqb_reflx.
Qed.

Lemma lpm_same_node_ip_only (node k1 k2 : endpoint_key) :
  prefix_len k1 = 32 -> prefix_len k2 = 32 -> ip k1 = ip k2 ->
  lpm_same_node node k1 = lpm_same_node node k2.
Proof.
  intros H1 H2 Hip. unfold lpm_same_node.
  now rewrite H1, H2, (lpm_prefix_match_ip_only node k1 k2).
Qed.

(** After a successful update every entry on the key's node is the new
    entry, and there is one. *)
Lemma lpm_update_node (key : endpoint_key) (info : endpoint_info)
    (trie trie' : list (endpoint_key * endpoint_info)) :
  lpm_update key info trie = Some trie' ->
  In (key, info) trie'
  /\ forall e, In e trie' -> lpm_same_node (fst e) key = true ->
       e = (key, info).
Proof.
  assert (Hself : lpm_same_node key key = true).
  { unfold lpm_same_node. now rewrite Z.eqb_refl, lpm_prefix_match_refl. }
  unfold lpm_update. destruct (_ >? _); [discriminate|].
  destruct (existsb _ trie) eqn:Hex.
  - intros [= <-]. split.
    + apply existsb_exists in Hex as (x & Hx & Hsame).
      apply in_map_iff. exists x. split; [now rewrite Hsame | exact Hx].
    + intros e He Hsame. apply in_map_iff in He as (x & <- & Hx).
      destruct (lpm_same_node (fst x) key) eqn:E; [reflexivity|].
      cbn in Hsame. congruence.
  - destruct (_ <? _); [|discriminate]. intros [= <-].
    split; [now left|]. intros e [<- | He] Hsame; [reflexivity|].
    exfalso.
    assert (existsb (fun e => lpm_same_node (fst e) key) trie = true)
      by (apply existsb_exists; eauto).
    congruence.
Qed.

(** X25. Once [add_protected_endpoint] has succeeded for an address, the
    filter's lookup returns the new policy (maintenance off) for every
    destination port and protocol on that address: the entry is keyed with
    [prefix_len = 32], so a policy registered earlier for the same address,
    on whatever port, has been replaced. *)
Theorem add_protected_endpoint_then_lookup :
  forall (front_ip front_port protocol origin_ip origin_port protocol_type
          rate_limit burst_limit : Z) (st : xdp_state) (p pr : Z),
    fst (add_protected_endpoint front_ip front_port protocol origin_ip
           origin_port protocol_type rate_limit burst_limit st) = 0 ->
    bpf_map_lookup_endpoint
      {| prefix_len := 32; ip := front_ip; port := p; protocol := pr |}
      (snd (add_protected_endpoint front_ip front_port protocol origin_ip
              origin_port protocol_type rate_limit burst_limit st))
    = Some {| origin_ip := origin_ip; origin_port := origin_port;
              rate_limit := rate_limit; burst_limit := burst_limit;
              protocol_type := protocol_type; maintenance_mode := 0 |}.
Proof.
  intros front_ip front_port protocol oip oport ptype rl bl st p pr.
  unfold add_protected_endpoint.
  set (key := {| prefix_len := 32; ip := front_ip; port := front_port;
                 protocol := protocol |}).
  set (info := {| origin_ip := oip; origin_port := oport; rate_limit := rl;
                  burst_limit := bl; protocol_type := ptype;
                  maintenance_mode := 0 |}).
  destruct (lpm_update key info (map_protected_endpoints st)) as [trie'|]
    eqn:Hup; cbn [fst snd]; [intros _|discriminate].
  rewrite (lookup_ignores_port_and_protocol _ front_ip p pr front_port
             protocol).
  fold key. unfold bpf_map_lookup_endpoint.
  cbn [prefix_len key map_protected_endpoints set_endpoints].
  change (32 >? LPM_MAX_PREFIXLEN) with false. cbv iota.
  destruct (lpm_update_node key info _ _ Hup) as [Hin Hnode].
  destruct (lpm_lookup_found trie' key (key, info) Hin
              (lpm_prefix_match_refl key)) as [b Hb].
  fold key in Hb |- *. rewrite Hb. cbn. f_equal.
  destruct (lpm_lookup_best trie' key b Hb) as (Hbin & Hbm & Hmax).
  specialize (Hmax (key, info) Hin (lpm_prefix_match_refl key)).
  cbn [fst] in Hmax.
  assert (Hsame : lpm_same_node (fst b) key = true).
  { unfold lpm_same_node. rewrite Hbm, andb_true_r. apply Z.eqb_eq.
    unfold lpm_prefix_match in Hbm. apply andb_true_iff in Hbm as [Hle _].
    apply Z.leb_le in Hle. lia. }
  now rewrite (Hnode b Hbin Hsame).
Qed.

Lemma add_protected_endpoint_then_lookup_witness :
  bpf_map_lookup_endpoint
    {| prefix_len := 32; ip := 0x0100000a; port := 25565;
       protocol := IPPROTO_TCP |}
    (snd (add_protected_endpoint 0x0100000a 19132 IPPROTO_UDP 0x0200000a
            19132 1 1000 10 one_endpoint_state))
  = Some bedrock_endpoint_info.
Proof.
  apply (add_protected_endpoint_then_lookup 0x0100000a 19132 IPPROTO_UDP
           0x0200000a 19132 1 1000 10 one_endpoint_state 25565 IPPROTO_TCP).
  vm_compute. reflexivity.
Defined.

(** X26. [remove_protected_endpoint] ignores the port and protocol it is
    given: it succeeds exactly when some entry sits on the node of the
    address (prefix length 32), removes every such entry whatever port it
    was registered with, keeps all other entries, and on failure changes
    nothing. *)
Theorem remove_protected_endpoint_by_address :
  forall (front_ip front_port protocol : Z) (st : xdp_state)
         (e : endpoint_key * endpoint_info),
    let r := remove_protected_endpoint front_ip front_port protocol st in
    let on_node (k : endpoint_key) :=
      lpm_same_node k {| prefix_len := 32; ip := front_ip; port := 0;
                         protocol := 0 |} in
    (fst r = 0 <->
     exists x, In x (map_protected_endpoints st) /\ on_node (fst x) = true)
    /\ (fst r <> 0 -> fst r = -1 /\ snd r = st)
    /\ (In e (map_protected_endpoints (snd r)) ->
        fst r = 0 -> on_node (fst e) = false)
    /\ (In e (map_protected_endpoints st) -> on_node (fst e) = false ->
        In e (map_protected_endpoints (snd r))).
Proof.
  intros front_ip front_port protocol st e r on_node. subst r.
  unfold remove_protected_endpoint, lpm_delete.
  set (key := {| prefix_len := 32; ip := front_ip; port := front_port;
                 protocol := protocol |}).
  assert (Hnode : forall k, lpm_same_node k key = on_node k).
  { intros k. now apply lpm_same_node_ip_only. }
  destruct (existsb _ (map_protected_endpoints st)) eqn:Hex; cbn [fst snd].
  - split.
    { split; [intros _|reflexivity].
      apply existsb_exists in Hex as (x & Hx & Hsame).
      exists x. now rewrite <- Hnode. }
    split; [congruence|].
    cbn [map_protected_endpoints set_endpoints]. split.
    + intros He _. apply filter_In in He as [_ He].
      rewrite <- Hnode. now apply negb_true_iff.
    + intros He Hoff. apply filter_In. split; [exact He|].
      now rewrite Hnode, Hoff.
  - split.
    { split; [discriminate|]. intros (x & Hx & Hsame). exfalso.
      assert (existsb (fun e => lpm_same_node (fst e) key)
                (map_protected_endpoints st) = true)
        by (apply existsb_exists; exists x; now rewrite Hnode).
      congruence. }
    split; [now split|]. split; [discriminate | auto].
Qed.

Lemma remove_protected_endpoint_by_address_witness :
  fst (remove_protected_endpoint 0x0100000a 80 IPPROTO_UDP
         one_endpoint_state) = 0
  /\ map_protected_endpoints
       (snd (remove_protected_endpoint 0x0100000a 80 IPPROTO_UDP
               one_endpoint_state)) = [].
Proof.
  destruct (remove_protected_endpoint_by_address 0x0100000a 80 IPPROTO_UDP
              one_endpoint_state (java_endpoint_key, java_endpoint_info))
    as ([_ H0] & _).
  split; [|reflexivity].
  apply H0. exists (java_endpoint_key, java_endpoint_info).
  split; [now left | vm_compute; reflexivity].
Defined.
